(** * Command execution with retries, rate-limit backoff and CI-status resolution

    A shallow embedding of
    - [shared_libs/common/error_handling.py]      (module [ErrorHandling]),
    - [shared_libs/cmd_utils/subprocess_client.py] (module [SubprocessClient]),
    - [shared_libs/github_utils/gh_client.py]      (module [GHClient]),
    - [agents/general/code/scripts/pr_quality_check.py] (module [PrQualityCheck]),
    followed by concrete scenarios and by the properties established about
    them.

    Conventions.  Python [int] is [Z]; a Python [float] is the rational
    [Q] it denotes (the infinities and NaN are not among the values
    considered), and float arithmetic is written as exact arithmetic:
    that is what the code computes wherever no rounding occurs (scaling by
    a power of two, [min], [max], sums of integers), and nothing stated
    below about a jittered delay or a total wait depends on the last bit of
    a rounded sum.  What float arithmetic does besides is written out: the
    [OverflowError] of [float * 2**attempt] from attempt 1024 on, and the
    exceptions of [time.sleep].  [str] is [string], with [lower()] and
    [re.IGNORECASE] acting on the ASCII letters.  The operating system is
    an oracle: the k-th call of [subprocess.run] yields the k-th outcome of
    the world, and every call of [time.sleep] that returns is appended to a
    log.  What is printed in verbose mode is left out; the delay computed
    for it is not. *)

From Stdlib Require Import ZArith QArith Qminmax Qround Lqa Bool List Lia Ascii String.
From Stdlib Require Import DecimalString Qpower.
From Stdlib Require Import Mergesort Sorted Permutation.
Import ListNotations.

Local Open Scope string_scope.
Local Open Scope Z_scope.

(* ================================================================== *)
(** ** Python strings *)

Module PyStr.

Definition is_upper (c : ascii) : bool :=
    let n := nat_of_ascii c in (Nat.leb 65 n && Nat.leb n 90)%bool.

Definition lower_ascii (c : ascii) : ascii :=
    if is_upper c then ascii_of_nat (nat_of_ascii c + 32) else c.

(** [s.lower()] *)
Fixpoint lower (s : string) : string :=
    match s with
    | EmptyString => EmptyString
    | String c s' => String (lower_ascii c) (lower s')
    end.

(** [s.startswith(p)] *)
Fixpoint startswith (p s : string) : bool :=
    match p, s with
    | EmptyString, _ => true
    | String _ _, EmptyString => false
    | String a p', String b s' => (Ascii.eqb a b && startswith p' s')%bool
    end.

(** [needle in hay] *)
Fixpoint contains (needle hay : string) : bool :=
    (startswith needle hay ||
     match hay with
     | EmptyString => false
     | String _ hay' => contains needle hay'
     end)%bool.

(** The characters [str.split()] and [str.strip()] treat as blank. *)
Definition is_space (c : ascii) : bool :=
    let n := nat_of_ascii c in
    (Nat.eqb n 32 || (Nat.leb 9 n && Nat.leb n 13) || (Nat.leb 28 n && Nat.leb n 31))%bool.

Fixpoint lstrip (s : string) : string :=
    match s with
    | EmptyString => EmptyString
    | String c s' => if is_space c then lstrip s' else s
    end.

Fixpoint rstrip (s : string) : string :=
    match s with
    | EmptyString => EmptyString
    | String c s' =>
        match rstrip s' with
        | EmptyString => if is_space c then EmptyString else String c EmptyString
        | t => String c t
        end
    end.

(** [s.strip()] *)
Definition strip (s : string) : string := rstrip (lstrip s).

(** [s.split()]: maximal runs of non-blank characters.  [cur] is the word
    being read, in reverse. *)
Fixpoint split_ws_aux (s : string) (cur : list ascii) : list string :=
    let flush (rest : list string) :=
      match cur with
      | [] => rest
      | _ => string_of_list_ascii (rev cur) :: rest
      end in
    match s with
    | EmptyString => flush []
    | String c s' =>
        if is_space c then flush (split_ws_aux s' [])
        else split_ws_aux s' (c :: cur)
    end.

Definition split_ws (s : string) : list string := split_ws_aux s [].

(** [s.split(sep)] for a one-character separator. *)
Fixpoint split_on_aux (sep : ascii) (s : string) (cur : list ascii) : list string :=
    match s with
    | EmptyString => [string_of_list_ascii (rev cur)]
    | String c s' =>
        if Ascii.eqb c sep
        then string_of_list_ascii (rev cur) :: split_on_aux sep s' []
        else split_on_aux sep s' (c :: cur)
    end.

Definition split_on (sep : ascii) (s : string) : list string := split_on_aux sep s [].

(** [sep.join(parts)] *)
Fixpoint join (sep : string) (parts : list string) : string :=
    match parts with
    | [] => ""
    | [p] => p
    | p :: rest => p ++ sep ++ join sep rest
    end.

(** [str(n)] for an [int]. *)
Definition of_Z (n : Z) : string := NilZero.string_of_int (Z.to_int n).

(** Truthiness of a string. *)
Definition nonempty (s : string) : bool :=
    match s with EmptyString => false | _ => true end.

End PyStr.

(* ================================================================== *)
(** ** Regular expressions, as far as [re.search(p, s, re.IGNORECASE)] is used

    A [regex] is a pattern that [re.compile] accepts.  A pattern it
    refuses, on which [re.search] raises [re.error], has no counterpart
    here: what is stated about a detector is stated about one whose
    patterns are all valid. *)

Module Re.

Inductive regex : Type :=
  | Empty                       (* matches nothing *)
  | Eps                         (* matches the empty string *)
  | Chr (c : ascii)             (* a literal character, case-insensitively *)
  | Dot                         (* [.]: any character but a newline *)
  | Cat (r1 r2 : regex)
  | Alt (r1 r2 : regex)
  | Star (r : regex).

Definition newline : ascii := ascii_of_nat 10.

Fixpoint nullable (r : regex) : bool :=
    match r with
    | Empty => false
    | Eps => true
    | Chr _ => false
    | Dot => false
    | Cat a b => nullable a && nullable b
    | Alt a b => nullable a || nullable b
    | Star _ => true
    end.

Definition cat (a b : regex) : regex :=
    match a, b with
    | Empty, _ => Empty
    | _, Empty => Empty
    | Eps, _ => b
    | _, Eps => a
    | _, _ => Cat a b
    end.

Definition alt (a b : regex) : regex :=
    match a, b with
    | Empty, _ => b
    | _, Empty => a
    | _, _ => Alt a b
    end.

(** Brzozowski derivative of [r] by the character [c]. *)
Fixpoint deriv (c : ascii) (r : regex) : regex :=
    match r with
    | Empty => Empty
    | Eps => Empty
    | Chr d => if Ascii.eqb (PyStr.lower_ascii c) (PyStr.lower_ascii d) then Eps else Empty
    | Dot => if Ascii.eqb c newline then Empty else Eps
    | Cat a b =>
        if nullable a
        then alt (cat (deriv c a) b) (deriv c b)
        else cat (deriv c a) b
    | Alt a b => alt (deriv c a) (deriv c b)
    | Star a => cat (deriv c a) (Star a)
    end.

(** Does some prefix of [s] match [r]? *)
Fixpoint prefix_match (r : regex) (s : string) : bool :=
    nullable r ||
    match s with
    | EmptyString => false
    | String c s' => prefix_match (deriv c r) s'
    end.

(** [re.search(r, s, re.IGNORECASE) is not None] *)
Fixpoint search (r : regex) (s : string) : bool :=
    prefix_match r s ||
    match s with
    | EmptyString => false
    | String _ s' => search r s'
    end.

(** Reading of the pattern syntax the repository's tables use: literal
    characters, [\c] for a quoted character, [.], a postfix [*] and a
    top-level [|].  [seq] is the current alternative, [last] its last
    atom, which a following [*] applies to. *)
Fixpoint parse (s : string) (seq : regex) (last : option regex) : regex :=
    let close := match last with None => seq | Some a => cat seq a end in
    match s with
    | EmptyString => close
    | String c s' =>
        if Ascii.eqb c "|" then alt close (parse s' Eps None)
        else if Ascii.eqb c "*" then
          match last with
          | Some a => parse s' (cat seq (Star a)) None
          | None => parse s' seq None
          end
        else if Ascii.eqb c "." then parse s' close (Some Dot)
        else if Ascii.eqb c "\" then
          match s' with
          | String d s'' => parse s'' close (Some (Chr d))
          | EmptyString => close
          end
        else parse s' close (Some (Chr c))
    end.

Definition compile (s : string) : regex := parse s Eps None.

End Re.

(* ================================================================== *)
(** ** error_handling.py *)

(** A Python call either returns or raises an [Exception] carrying [str(e)]. *)
Inductive pyresult (A : Type) : Type :=
| Returns (a : A)
| Raises (msg : string).
Arguments Returns {A} a.
Arguments Raises {A} msg.

Module ErrorHandling.

Record ErrorInfo : Type := mkErrorInfo {
    error_type : string;
    is_error : bool;
    message : string;
    suggestion : string;
    recoverable : bool
  }.

Record ErrorPatternSet : Type := mkErrorPatternSet {
    ps_name : string;
    ps_patterns : list Re.regex;
    ps_error_type : string;
    ps_message : string;
    ps_suggestion : string;
    ps_recoverable : bool
  }.

Record ErrorPatternDetector : Type := mkDetector {
    det_timeout : Z;
    _pattern_sets : list ErrorPatternSet;
    _custom_patterns : list ErrorPatternSet
  }.

Definition _get_default_patterns : list ErrorPatternSet :=
    [ mkErrorPatternSet "sso-auth"
        (map Re.compile
           [ "To sign in, use a web browser";
             "please run az login";
             "authentication required";
             "login required";
             "Please re-run azure login";
             "interactive authentication is needed";
             "https://microsoft\.com/devicelogin";
             "enter the code .* to authenticate";
             "authentication via web browser.*required" ])
        "sso-required"
        "SSO authentication required"
        "Please complete SSO authentication in your web browser and retry"
        true;
      mkErrorPatternSet "tls-cert"
        (map Re.compile
           [ "tls: failed to verify certificate";
             "certificate verify failed";
             "x509: certificate";
             "certificate signed by unknown authority";
             "certificate has expired";
             "certificate is not valid";
             "ssl certificate problem" ])
        "tls-error"
        "TLS certificate verification failed"
        "Use --skip-tls-verify flag (INSECURE) or contact your administrator to fix certificate issues"
        true;
      mkErrorPatternSet "network"
        (map Re.compile
           [ "connection refused";
             "network is unreachable";
             "timeout";
             "connection timed out";
             "dial tcp.*timeout";
             "no route to host";
             "temporary failure in name resolution" ])
        "network-error"
        "Network connectivity issue"
        "Check network connectivity and endpoint configuration"
        true;
      mkErrorPatternSet "permission"
        (map Re.compile
           [ "forbidden";
             "unauthorized";
             "access denied";
             "permission denied";
             "user.*cannot.*get";
             "RBAC.*denied" ])
        "permission-error"
        "Permission denied or insufficient permissions"
        "Contact your administrator to check permissions"
        false;
      mkErrorPatternSet "service-not-found"
        (map Re.compile
           [ "service not found";
             "no records found";
             "service.*does not exist";
             "could not find.*service" ])
        "service-not-found"
        "Service not found in system"
        "Verify the service name and check if it exists in the target environment"
        false ].

(** [ErrorPatternDetector(timeout)] *)
Definition new_detector (timeout : Z) : ErrorPatternDetector :=
    mkDetector timeout _get_default_patterns [].

Definition add_pattern_set (d : ErrorPatternDetector) (ps : ErrorPatternSet)
    : ErrorPatternDetector :=
    mkDetector (det_timeout d) (_pattern_sets d) (_custom_patterns d ++ [ps]).

Definition add_simple_pattern (d : ErrorPatternDetector) (pattern : Re.regex)
      (error_type message suggestion : string) (recoverable : bool)
    : ErrorPatternDetector :=
    add_pattern_set d
      (mkErrorPatternSet ("custom-" ++ error_type) [pattern]
         error_type message suggestion recoverable).

Definition _matches_pattern_set (output : string) (ps : ErrorPatternSet) : bool :=
    existsb (fun pattern => Re.search pattern output) (ps_patterns ps).

(** The [ErrorInfo] a matching pattern set yields. *)
Definition info_of_set (ps : ErrorPatternSet) : ErrorInfo :=
    mkErrorInfo (ps_error_type ps) true (ps_message ps) (ps_suggestion ps)
                (ps_recoverable ps).

(** [command.split()[0] if command else "unknown"]; indexing the empty
    list raises [IndexError]. *)
Definition cmd_name_of (command : string) : pyresult string :=
    if PyStr.nonempty command then
      match PyStr.split_ws command with
      | w :: _ => Returns w
      | [] => Raises "list index out of range"
      end
    else Returns "unknown".

Definition timeout_regex : Re.regex := Re.compile "timeout|timed out".

Definition detect_error_patterns (d : ErrorPatternDetector)
      (output : string) (return_code : Z) (command : string) : pyresult ErrorInfo :=
    match find (_matches_pattern_set output) (_custom_patterns d) with
    | Some ps => Returns (info_of_set ps)
    | None =>
    match find (_matches_pattern_set output) (_pattern_sets d) with
    | Some ps => Returns (info_of_set ps)
    | None =>
    if (return_code =? 127) || PyStr.contains "command not found" (PyStr.lower output) then
      match cmd_name_of command with
      | Raises e => Raises e
      | Returns cmd_name =>
          Returns (mkErrorInfo "command-not-found" true
                     ("Command not found: " ++ cmd_name)
                     "Ensure the required command is installed and in PATH"
                     false)
      end
    else if (return_code =? 124) || Re.search timeout_regex output then
      Returns (mkErrorInfo "timeout" true
                 ("Command timed out after " ++ PyStr.of_Z (det_timeout d) ++ " seconds")
                 "Try increasing timeout or check for hanging processes"
                 true)
    else if negb (return_code =? 0) then
      Returns (mkErrorInfo "generic-error" true
                 ("Command failed with return code " ++ PyStr.of_Z return_code)
                 "Check command output for details"
                 true)
    else
      Returns (mkErrorInfo "success" false "Command completed successfully" "" true)
    end end.

End ErrorHandling.

(* ================================================================== *)
(** ** The operating system *)

Module Os.

(** What one call of [subprocess.run] does. *)
Inductive SpawnOutcome : Type :=
  | Completed (returncode : Z) (stdout stderr : string)
  | TimeoutExpired
  | FileNotFoundError
  | OtherException (msg : string).

(** The environment of one command: the outcome of its k-th
    [subprocess.run], the value of [time.time() - start_time] read after
    it, the value [random.random()] has in the k-th delay computation, and
    the exception, if any, with which the platform's [time.sleep] refuses a
    delay that is too long for its clock. *)
Record World : Type := mkWorld {
    spawn : nat -> SpawnOutcome;
    elapsed : nat -> Q;
    random_draw : nat -> Q;
    sleep_error : Q -> option string
  }.

(** Effects so far: number of [subprocess.run] calls, the arguments of the
    [time.sleep] calls in order, number of delay computations. *)
Record Effects : Type := mkEffects {
    calls : nat;
    sleeps : list Q;
    draws : nat
  }.

Definition no_effects : Effects := mkEffects 0 [] 0.

Definition slept (delay : Q) (fx : Effects) : Effects :=
    mkEffects (calls fx) (sleeps fx ++ [delay]) (draws fx).

(** Delays of up to a million seconds are within the range of the clock of
    every platform. *)
Definition SLEEP_SAFE : Q := 1000000.

(** Whether [time.sleep(delay)] returns.  A negative delay raises
    [ValueError]; a delay beyond the range of the platform's clock raises
    [OverflowError] or [OSError], and where that range ends is the
    platform's affair. *)
Definition accepts (w : World) (delay : Q) : bool :=
    Qle_bool 0 delay
    && (Qle_bool delay SLEEP_SAFE
        || match sleep_error w delay with None => true | Some _ => false end).

(** [time.sleep(delay)] *)
Definition sleep (w : World) (delay : Q) (fx : Effects) : pyresult Effects :=
    if Qle_bool 0 delay then
      if Qle_bool delay SLEEP_SAFE then Returns (slept delay fx)
      else
        match sleep_error w delay with
        | None => Returns (slept delay fx)
        | Some e => Raises e
        end
    else Raises "sleep length must be non-negative".

Definition ran (fx : Effects) : Effects :=
    mkEffects (S (calls fx)) (sleeps fx) (draws fx).

Definition drew (fx : Effects) : Effects :=
    mkEffects (calls fx) (sleeps fx) (S (draws fx)).

(** A process that exits with a non-zero code and the rate-limit text the
    wrappers look for: "rate limit" on its standard error or, where the
    standard output is inspected as well, "rate_limit" on that. *)
Definition rate_limited (check_stdout : bool) (oc : SpawnOutcome) : bool :=
    match oc with
    | Completed returncode stdout stderr =>
        negb (returncode =? 0)
        && (PyStr.contains "rate limit" (PyStr.lower (PyStr.strip stderr))
            || (check_stdout
                && PyStr.contains "rate_limit" (PyStr.lower (PyStr.strip stdout))))
    | _ => false
    end.

(** A process that exits with a non-zero code and rate-limit text on its
    standard error. *)
Definition fails_rate_limited (oc : SpawnOutcome) : bool :=
    match oc with
    | Completed returncode _ stderr =>
        negb (returncode =? 0)
        && PyStr.contains "rate limit" (PyStr.lower (PyStr.strip stderr))
    | _ => false
    end.

(** The standard output, stripped, of a process that exits with 0. *)
Definition succeeds_with (oc : SpawnOutcome) : option string :=
    match oc with
    | Completed returncode stdout _ =>
        if returncode =? 0 then Some (PyStr.strip stdout) else None
    | _ => None
    end.

End Os.

(* ================================================================== *)
(** ** subprocess_client.py *)

Module SubprocessClient.
Import ErrorHandling Os.

(** [x > 0] on floats. *)
Definition Qpositive (x : Q) : bool := negb (Qle_bool x 0).

(** [random.uniform(a, b)], which is [a + (b - a) * random.random()];
    [u] is the value [random.random()] returns. *)
Definition uniform (a b u : Q) : Q := (a + (b - a) * u)%Q.

(** The abstract base class [RetryStrategy].  [get_delay] also receives the
    value that [random.random()] would return during the call, and may
    raise. *)
Record RetryStrategy : Type := mkRetryStrategy {
    get_delay : Z -> Q -> pyresult Q;
    should_retry : string -> Z -> bool
  }.

Definition ConstantDelayStrategy (delay : Q) : RetryStrategy :=
    {| get_delay := fun _ _ => Returns delay;
       should_retry := fun _ _ => true |}.

(** [initial_delay * (2**attempt)] for a float [initial_delay]: the integer
    [2**attempt] is converted to a float, which raises [OverflowError] from
    [2**1024] on.  Attempt numbers are indices of a [range], so not
    negative. *)
Definition scaled (initial_delay : Q) (attempt : Z) : pyresult Q :=
    if 1024 <=? attempt then Raises "int too large to convert to float"
    else Returns (initial_delay * (2 ^ attempt))%Q.

Definition exponential_get_delay (initial_delay max_delay jitter : Q)
      (attempt : Z) (u : Q) : pyresult Q :=
    match scaled initial_delay attempt with
    | Raises e => Raises e
    | Returns product =>
        let base_delay := Qmin product max_delay in
        if Qpositive jitter then
          let jitter_range := (base_delay * jitter)%Q in
          let jitter_value := uniform (- jitter_range) jitter_range u in
          Returns (Qmax 0 (base_delay + jitter_value))
        else Returns base_delay
    end.

Definition exponential_should_retry (retry_patterns : list string)
      (error_output : string) (return_code : Z) : bool :=
    match retry_patterns with
    | [] => true
    | _ =>
        let error_lower := PyStr.lower error_output in
        existsb (fun pattern => PyStr.contains (PyStr.lower pattern) error_lower)
                retry_patterns
    end.

Definition ExponentialBackoffStrategy (initial_delay max_delay jitter : Q)
      (retry_patterns : list string) : RetryStrategy :=
    {| get_delay := exponential_get_delay initial_delay max_delay jitter;
       should_retry := exponential_should_retry retry_patterns |}.

Record CommandResult : Type := mkCommandResult {
    success : bool;
    output : string;
    error_output : string;
    return_code : Z;
    command : string;
    execution_time : Q;
    error_info : option ErrorInfo
  }.

(** One value of [custom_error_patterns]: the keys a caller may give. *)
Record PatternConfig : Type := mkPatternConfig {
    pc_error_type : option string;
    pc_message : option string;
    pc_suggestion : option string;
    pc_recoverable : option bool
  }.

Record CommandConfig : Type := mkCommandConfig {
    timeout : Z;
    retries : Z;
    retry_delay : Q;
    combine_output : bool;
    check_return_code : bool;
    verbose : bool;
    custom_error_patterns : option (list (Re.regex * PatternConfig));
    retry_strategy : option RetryStrategy
  }.

(** [CommandConfig()] *)
Definition default_config : CommandConfig :=
    mkCommandConfig 30 0 1 true true false None None.

Record Client : Type := mkClient {
    config : CommandConfig;
    error_detector : ErrorPatternDetector
  }.

Definition get {A} (o : option A) (default : A) : A :=
    match o with Some a => a | None => default end.

(** [SubprocessClient(config)] *)
Definition new_client (cfg : option CommandConfig) : Client :=
    let cfg := get cfg default_config in
    let detector := new_detector (timeout cfg) in
    let detector :=
      fold_left
        (fun d (entry : Re.regex * PatternConfig) =>
           let (pattern, pattern_config) := entry in
           add_simple_pattern d pattern
             (get (pc_error_type pattern_config) "custom")
             (get (pc_message pattern_config) "Custom error detected")
             (get (pc_suggestion pattern_config) "")
             (get (pc_recoverable pattern_config) true))
        (get (custom_error_patterns cfg) [])
        detector in
    mkClient cfg detector.

(** The state of a call: its effects so far, and every outcome paired with
    the [last_result] built from it. *)
Record Exec : Type := mkExec {
    effects : Effects;
    history : list (SpawnOutcome * CommandResult)
  }.

Definition start : Exec := mkExec no_effects [].

Definition lift (f : Effects -> Effects) (st : Exec) : Exec :=
    mkExec (f (effects st)) (history st).

Definition recorded (oc : SpawnOutcome) (r : CommandResult) (st : Exec) : Exec :=
    mkExec (effects st) (history st ++ [(oc, r)]).

Inductive control : Type := Break | Continue.

Inductive command_arg : Type :=
  | CmdStr (s : string)
  | CmdList (l : list string).

Section Attempts.
Variable w : World.
Variable detector : ErrorPatternDetector.
Variable cfg : CommandConfig.
Variable cmd_list : list string.
Variable cmd_string : string.

(** [config.retry_strategy.get_delay(attempt)] or [config.retry_delay] *)
Definition delay_for (attempt : Z) (st : Exec) : pyresult Q * Exec :=
      match retry_strategy cfg with
      | Some s =>
          (get_delay s attempt (random_draw w (draws (effects st))), lift drew st)
      | None => (Returns (retry_delay cfg), st)
      end.

(** The delay computation and the [time.sleep(delay)] that open an
    iteration with [attempt > 0].  They stand before the [try], so what
    they raise leaves [execute_command]. *)
Definition wait_before (attempt : Z) (st : Exec) : Exec * option string :=
      if 0 <? attempt then
        let (delay, st) := delay_for (attempt - 1) st in
        match delay with
        | Raises e => (st, Some e)
        | Returns delay =>
            match sleep w delay (effects st) with
            | Raises e => (st, Some e)
            | Returns fx => (mkExec fx (history st), None)
            end
        end
      else (st, None).

Definition timeout_result (execution_time : Q) : CommandResult :=
      let text := "Command timed out after " ++ PyStr.of_Z (timeout cfg) ++ " seconds" in
      mkCommandResult false text "" 124 cmd_string execution_time
        (Some (mkErrorInfo "timeout" true text
                 "Try increasing timeout or check for hanging processes" true)).

Definition not_found_result (execution_time : Q) : CommandResult :=
      let cmd_name := match cmd_list with c :: _ => c | [] => "unknown" end in
      mkCommandResult false ("Command not found: " ++ cmd_name) "" 127 cmd_string
        execution_time
        (Some (mkErrorInfo "command-not-found" true ("Command not found: " ++ cmd_name)
                 "Ensure the command is installed and in PATH" false)).

Definition exception_result (e : string) (execution_time : Q) : CommandResult :=
      mkCommandResult false ("Execution error: " ++ e) "" 1 cmd_string execution_time
        (Some (mkErrorInfo "execution-error" true ("Command execution failed: " ++ e)
                 "Check command syntax and system resources" true)).

(** [if attempt < config.retries: continue else: break] *)
Definition retry_if_budget (attempt : Z) : control :=
      if attempt <? retries cfg then Continue else Break.

(** The [try] statement of an iteration whose [subprocess.run] had the
    outcome [oc]: the state, the [last_result] it leaves and how the loop
    goes on.  Every exception raised inside the [try], also by the error
    detector or by the delay computed for the verbose message, ends in the
    handler [except Exception]. *)
Definition try_block (attempt : Z) (oc : SpawnOutcome) (execution_time : Q)
      (st : Exec) : Exec * CommandResult * control :=
      let on_exception (e : string) (st : Exec) :=
        (st, exception_result e execution_time, retry_if_budget attempt) in
      match oc with
      | Completed returncode stdout stderr =>
          let output := if combine_output cfg then stdout ++ stderr else stdout in
          let error_output := stderr in
          match detect_error_patterns detector output returncode cmd_string with
          | Raises e => on_exception e st
          | Returns error_info =>
              let success :=
                (returncode =? 0)
                && (negb (check_return_code cfg) || negb (is_error error_info)) in
              let r := mkCommandResult success output error_output returncode
                         cmd_string execution_time (Some error_info) in
              if success || negb (recoverable error_info) then (st, r, Break)
              else
                match retry_strategy cfg with
                | Some s =>
                    if negb (should_retry s output returncode) then (st, r, Break)
                    else if verbose cfg && is_error error_info
                            && (recoverable error_info && (attempt <? retries cfg))
                    then
                      match delay_for attempt st with
                      | (Raises e, st) => on_exception e st
                      | (Returns _, st) => (st, r, Continue)
                      end
                    else (st, r, Continue)
                | None => (st, r, Continue)
                end
          end
      | TimeoutExpired => (st, timeout_result execution_time, retry_if_budget attempt)
      | FileNotFoundError => (st, not_found_result execution_time, Break)
      | OtherException e => on_exception e st
      end.

(** What one iteration of the loop comes to. *)
Inductive step : Type :=
  | Raised (e : string)
  | Decided (last_result : CommandResult) (c : control).

(** The body of the [for attempt in range(config.retries + 1)] loop. *)
Definition attempt_body (attempt : Z) (st : Exec) : Exec * step :=
      match wait_before attempt st with
      | (st, Some e) => (st, Raised e)
      | (st, None) =>
          let k := calls (effects st) in
          let oc := spawn w k in
          let '(st, r, c) := try_block attempt oc (elapsed w k) (lift ran st) in
          (recorded oc r st, Decided r c)
      end.

(** The loop, with [n] iterations of [range] left. *)
Fixpoint attempt_loop (n : nat) (attempt : Z) (st : Exec)
        (last_result : option CommandResult)
      : Exec * pyresult (option CommandResult) :=
      match n with
      | O => (st, Returns last_result)
      | S n' =>
          match attempt_body attempt st with
          | (st', Raised e) => (st', Raises e)
          | (st', Decided r Break) => (st', Returns (Some r))
          | (st', Decided r Continue) => attempt_loop n' (attempt + 1) st' (Some r)
          end
      end.

End Attempts.

Definition no_execution_result (cmd_string : string) : CommandResult :=
    mkCommandResult false "No execution attempted" "" 1 cmd_string 0
      (Some (mkErrorInfo "no-execution" true "No execution attempted" "" false)).

Definition cmd_list_of (command : command_arg) : list string :=
    match command with
    | CmdStr s => PyStr.split_ws s
    | CmdList l => l
    end.

(** [SubprocessClient.execute_command(command, override_config)]: the
    result, or the exception that leaves the call, and the effects it had.
    [env] and [working_dir] are handed to the process unchanged and are
    part of the world. *)
Definition execute_command (w : World) (self : Client) (command : command_arg)
      (override_config : option CommandConfig) : pyresult CommandResult * Exec :=
    let cfg := get override_config (config self) in
    let cmd_list := cmd_list_of command in
    let cmd_string := PyStr.join " " cmd_list in
    let (st, last_result) :=
      attempt_loop w (error_detector self) cfg cmd_list cmd_string
        (Z.to_nat (retries cfg + 1)) 0 start None in
    (match last_result with
     | Raises e => Raises e
     | Returns last_result => Returns (get last_result (no_execution_result cmd_string))
     end, st).

(** [execute_simple(command, timeout, verbose)] *)
Definition execute_simple (w : World) (self : Client) (command : command_arg)
      (timeout : Z) (verbose : bool) : pyresult CommandResult * Exec :=
    let simple_config := mkCommandConfig timeout 0 1 true true verbose None None in
    execute_command w self command (Some simple_config).

(** *** What an attempt amounts to

    As long as no delay computation raises, the result and the loop
    decision of an attempt are functions of the outcome of its
    [subprocess.run], and the number of iterations the loop executes
    follows from the decisions. *)

Section Views.
Variable w : World.
Variable detector : ErrorPatternDetector.
Variable cfg : CommandConfig.
Variable cmd_list : list string.
Variable cmd_string : string.

(** The text handed to the error detector and to [should_retry]. *)
Definition combined (stdout stderr : string) : string :=
    if combine_output cfg then stdout ++ stderr else stdout.

(** The classification of an outcome, when the detector is reached and
    returns. *)
Definition classification (oc : SpawnOutcome) : option ErrorInfo :=
    match oc with
    | Completed returncode stdout stderr =>
        match detect_error_patterns detector (combined stdout stderr) returncode cmd_string with
        | Returns error_info => Some error_info
        | Raises _ => None
        end
    | _ => None
    end.

(** The [last_result] an outcome leads to, read at time [t]. *)
Definition outcome_result (oc : SpawnOutcome) (t : Q) : CommandResult :=
    match oc with
    | Completed returncode stdout stderr =>
        match detect_error_patterns detector (combined stdout stderr) returncode cmd_string with
        | Returns error_info =>
            mkCommandResult
              ((returncode =? 0)
               && (negb (check_return_code cfg) || negb (is_error error_info)))
              (combined stdout stderr) stderr returncode cmd_string t (Some error_info)
        | Raises e => exception_result cmd_string e t
        end
    | TimeoutExpired => timeout_result cfg cmd_string t
    | FileNotFoundError => not_found_result cmd_list cmd_string t
    | OtherException e => exception_result cmd_string e t
    end.

(** Whether the loop goes on after an outcome seen in iteration [attempt]. *)
Definition outcome_control (attempt : Z) (oc : SpawnOutcome) : control :=
    match oc with
    | Completed returncode stdout stderr =>
        match detect_error_patterns detector (combined stdout stderr) returncode cmd_string with
        | Returns error_info =>
            let success :=
              (returncode =? 0)
              && (negb (check_return_code cfg) || negb (is_error error_info)) in
            if success || negb (recoverable error_info) then Break
            else
              match retry_strategy cfg with
              | Some s =>
                  if should_retry s (combined stdout stderr) returncode
                  then Continue else Break
              | None => Continue
              end
        | Raises _ => retry_if_budget cfg attempt
        end
    | TimeoutExpired => retry_if_budget cfg attempt
    | FileNotFoundError => Break
    | OtherException _ => retry_if_budget cfg attempt
    end.

(** The delay of the retry after iteration [attempt], computed with the
    [j]-th draw of the world. *)
Definition delay_value (attempt : Z) (j : nat) : pyresult Q :=
    match retry_strategy cfg with
    | Some s => get_delay s attempt (random_draw w j)
    | None => Returns (retry_delay cfg)
    end.

(** That delay is computed without an exception and [time.sleep] takes it. *)
Definition delay_accepted (attempt : Z) (j : nat) : bool :=
    match delay_value attempt j with
    | Returns delay => accepts w delay
    | Raises _ => false
    end.

(** Iterations executed by a loop with [n] iterations left, entered at
    iteration [attempt] with [k] processes run so far. *)
Fixpoint iterations (n : nat) (attempt : Z) (k : nat) : nat :=
    match n with
    | O => O
    | S n' =>
        match outcome_control attempt (spawn w k) with
        | Break => 1
        | Continue => S (iterations n' (attempt + 1) (S k))
        end
    end.

(** The history entry of the k-th process. *)
Definition entry (k : nat) : SpawnOutcome * CommandResult :=
    (spawn w k, outcome_result (spawn w k) (elapsed w k)).

(** An outcome that is a failure with a recoverable classification which
    the strategy, when one is configured and consulted, lets retry. *)
Definition retryable_failure (oc : SpawnOutcome) : bool :=
    match oc with
    | Completed returncode stdout stderr =>
        match detect_error_patterns detector (combined stdout stderr) returncode cmd_string with
        | Returns error_info =>
            negb ((returncode =? 0)
                  && (negb (check_return_code cfg) || negb (is_error error_info)))
            && recoverable error_info
            && match retry_strategy cfg with
               | Some s => should_retry s (combined stdout stderr) returncode
               | None => true
               end
        | Raises _ => true
        end
    | TimeoutExpired => true
    | FileNotFoundError => false
    | OtherException _ => true
    end.

End Views.

(** [error_info.recoverable] of a result; every result carries one. *)
Definition result_recoverable (r : CommandResult) : bool :=
    match error_info r with Some i => recoverable i | None => true end.

Definition result_is_error (r : CommandResult) : bool :=
    match error_info r with Some i => is_error i | None => false end.

Definition result_error_type (r : CommandResult) : string :=
    match error_info r with Some i => error_type i | None => "" end.

(** The command string [execute_command] works with. *)
Definition cmd_string_of (command : command_arg) : string :=
    PyStr.join " " (cmd_list_of command).

(** An attempt after which the loop is to stop: its result is a success, or
    its classification is not recoverable, or its process completed, was
    classified by the detector, and the configured strategy's
    [should_retry] refuses the output and return code of that process. *)
Definition stopping (detector : ErrorPatternDetector) (cfg : CommandConfig)
      (cmd_string : string) (oc : SpawnOutcome) (r : CommandResult) : Prop :=
    success r = true
    \/ result_recoverable r = false
    \/ (exists s returncode stdout stderr info,
          retry_strategy cfg = Some s
          /\ oc = Completed returncode stdout stderr
          /\ classification detector cfg cmd_string oc = Some info
          /\ should_retry s (combined cfg stdout stderr) returncode = false).

(** Every delay the loop can come to compute, for the retries after the
    attempts [0 .. retries - 1] and whichever draw it is computed with, is
    computed without an exception and taken by [time.sleep]. *)
Definition delays_accepted (w : World) (cfg : CommandConfig) : Prop :=
    forall attempt j, 0 <= attempt < retries cfg -> delay_accepted w cfg attempt j = true.

End SubprocessClient.

(* ================================================================== *)
(** ** gh_client.py *)

Module GHClient.
Import Os.

Record GHClientConfig : Type := mkGHClientConfig {
    max_retries : Z;
    initial_delay : Q;
    max_delay : Q;
    jitter : Q;
    verbose : bool
  }.

(** [GHClientConfig()] *)
Definition default_config : GHClientConfig :=
    mkGHClientConfig 25 2 300 (1 # 10) false.

Definition _calculate_delay (cfg : GHClientConfig) (attempt : Z) (u : Q)
    : pyresult Q :=
    match SubprocessClient.scaled (initial_delay cfg) attempt with
    | Raises e => Raises e
    | Returns product =>
        let base_delay := Qmin product (max_delay cfg) in
        if SubprocessClient.Qpositive (jitter cfg) then
          let jitter_range := (base_delay * jitter cfg)%Q in
          let jitter_value := SubprocessClient.uniform (- jitter_range) jitter_range u in
          Returns (Qmax 0 (base_delay + jitter_value))
        else Returns base_delay
    end.

(** [f"{n:02d}"] *)
Definition pad2 (n : Z) : string :=
    if (0 <=? n) && (n <? 10) then "0" ++ PyStr.of_Z n else PyStr.of_Z n.

(** [x // d] and [x % d] on floats, for a positive [d]; exact as long as
    the quotient is below [2^53]. *)
Definition floordiv (x : Q) (d : Z) : Z := Qfloor (x / inject_Z d).
Definition fmod (x : Q) (d : Z) : Q := (x - inject_Z (d * floordiv x d))%Q.

Definition _format_duration (seconds : Q) : string :=
    let hours := floordiv seconds 3600 in
    let mins := floordiv (fmod seconds 3600) 60 in
    let secs := Qfloor (fmod seconds 60) in
    if 0 <? hours
    then PyStr.of_Z hours ++ "h" ++ pad2 mins ++ "m" ++ pad2 secs ++ "s"
    else pad2 mins ++ "m" ++ pad2 secs ++ "s".

Definition nl : string := String (ascii_of_nat 10) "".

(** What one iteration of the retry loop decides. *)
Inductive step : Type :=
  | Done (r : pyresult (bool * string))
  | Next (total_wait : Q).

Section Retry.
Variable w : World.
(** [datetime.now().strftime("%Y-%m-%d %H:%M:%S")] *)
Variable timestamp : string.
Variable cfg : GHClientConfig.
Variable retries : Z.
Variable label : string.
Variable check_stdout_for_rate_limit : bool.
Variable return_stdout_on_error : bool.
Variable rate_limit_exhausted_output : string.

Definition label_prefix : string :=
      if PyStr.nonempty label then label ++ " " else "".

Definition exhausted_message (stderr : string) (total_wait : Q) : string :=
      stderr ++ nl ++ nl
      ++ "[" ++ timestamp ++ "] ⚠ " ++ label_prefix ++ "Rate limit exceeded"
      ++ " after " ++ PyStr.of_Z retries ++ " retries "
      ++ "(waited total: " ++ _format_duration total_wait ++ ")." ++ nl
      ++ "   GitHub rate limits reset after 1 hour." ++ nl
      ++ "   Check remaining quota: gh api rate_limit" ++ nl
      ++ "   Or reduce parallelism and try again".

(** The body of [for attempt in range(retries)], inside the [try], which
    handles [FileNotFoundError] only: what the delay computation or
    [time.sleep] raises leaves the call. *)
Definition attempt_body (attempt : Z) (total_wait : Q) (fx : Effects)
      : step * Effects :=
      let oc := spawn w (calls fx) in
      let fx := ran fx in
      match oc with
      | Completed returncode out err =>
          let stdout := PyStr.strip out in
          let stderr := PyStr.strip err in
          if returncode =? 0 then (Done (Returns (true, stdout)), fx)
          else
            let is_rate_limited := PyStr.contains "rate limit" (PyStr.lower stderr) in
            let is_rate_limited :=
              if check_stdout_for_rate_limit
              then is_rate_limited || PyStr.contains "rate_limit" (PyStr.lower stdout)
              else is_rate_limited in
            if is_rate_limited then
              if attempt <? retries - 1 then
                match _calculate_delay cfg attempt (random_draw w (draws fx)) with
                | Raises e => (Done (Raises e), drew fx)
                | Returns wait_time =>
                    let fx := drew fx in
                    let total_wait := (total_wait + wait_time)%Q in
                    match sleep w wait_time fx with
                    | Raises e => (Done (Raises e), fx)
                    | Returns fx => (Next total_wait, fx)
                    end
                end
              else if PyStr.nonempty rate_limit_exhausted_output
              then (Done (Returns (false, rate_limit_exhausted_output)), fx)
              else (Done (Returns (false, exhausted_message stderr total_wait)), fx)
            else if return_stdout_on_error then (Done (Returns (false, stdout)), fx)
            else (Done (Returns (false, stderr)), fx)
      | FileNotFoundError =>
          if return_stdout_on_error then (Done (Returns (false, "")), fx)
          else (Done (Returns (false, "gh CLI not found. Install with: brew install gh")), fx)
      | TimeoutExpired => (Done (Raises "TimeoutExpired"), fx)
      | OtherException e => (Done (Raises e), fx)
      end.

Fixpoint attempt_loop (n : nat) (attempt : Z) (total_wait : Q) (fx : Effects)
      : pyresult (bool * string) * Effects :=
      match n with
      | O => (Returns (false, "Max retries exceeded"), fx)
      | S n' =>
          match attempt_body attempt total_wait fx with
          | (Done r, fx') => (r, fx')
          | (Next total_wait', fx') => attempt_loop n' (attempt + 1) total_wait' fx'
          end
      end.

End Retry.

(** [GHClient._retry_with_backoff]; [cmd] is what the world [w] runs. *)
Definition _retry_with_backoff (w : World) (timestamp : string)
      (cfg : GHClientConfig) (cmd : list string) (max_retries_arg : option Z)
      (label : string) (check_stdout_for_rate_limit return_stdout_on_error : bool)
      (rate_limit_exhausted_output : string) : pyresult (bool * string) * Effects :=
    let retries := SubprocessClient.get max_retries_arg (max_retries cfg) in
    attempt_loop w timestamp cfg retries label check_stdout_for_rate_limit
      return_stdout_on_error rate_limit_exhausted_output
      (Z.to_nat retries) 0 0%Q no_effects.

Definition run_command (w : World) (timestamp : string) (cfg : GHClientConfig)
      (args : list string) (max_retries_arg : option Z)
    : pyresult (bool * string) * Effects :=
    _retry_with_backoff w timestamp cfg ("gh" :: args) max_retries_arg "" false false "".

Definition run_graphql (w : World) (timestamp : string) (cfg : GHClientConfig)
      (query : string) (max_retries_arg : option Z)
    : pyresult (bool * string) * Effects :=
    _retry_with_backoff w timestamp cfg
      ["gh"; "api"; "graphql"; "-f"; "query=" ++ query] max_retries_arg
      "GraphQL" true true "".

End GHClient.

(* ================================================================== *)
(** ** pr_quality_check.py *)

Module PrQualityCheck.
Import Os.

Definition nl : ascii := ascii_of_nat 10.

(** What one iteration of the loop of [run_gh_command] decides. *)
Inductive step : Type :=
  | Done (r : pyresult (bool * string))
  | Next (total_wait : Z).

Section RunGh.
Variable w : World.
Variable max_retries : Z.

Definition max_wait_per_retry : Z := 300.

Definition exhausted_message (stderr : string) (total_wait : Z) : string :=
      let mins := total_wait / 60 in
      stderr ++ String nl (String nl "")
      ++ "⚠ Rate limit exceeded after " ++ PyStr.of_Z max_retries
      ++ " retries (waited total: " ++ PyStr.of_Z mins ++ "m)." ++ String nl ""
      ++ "   GitHub rate limits reset after 1 hour." ++ String nl ""
      ++ "   Check remaining quota: gh api rate_limit".

Definition attempt_body (attempt : Z) (total_wait : Z) (fx : Effects)
      : step * Effects :=
      let oc := spawn w (calls fx) in
      let fx := ran fx in
      match oc with
      | Completed returncode out err =>
          if returncode =? 0 then (Done (Returns (true, PyStr.strip out)), fx)
          else
            let stderr := PyStr.strip err in
            if PyStr.contains "rate limit" (PyStr.lower stderr) then
              if attempt <? max_retries - 1 then
                let wait_time := Z.min (2 ^ (attempt + 1)) max_wait_per_retry in
                let total_wait := total_wait + wait_time in
                match sleep w (inject_Z wait_time) fx with
                | Raises e => (Done (Raises e), fx)
                | Returns fx => (Next total_wait, fx)
                end
              else (Done (Returns (false, exhausted_message stderr total_wait)), fx)
            else (Done (Returns (false, stderr)), fx)
      | TimeoutExpired => (Done (Returns (false, "Command timed out")), fx)
      | FileNotFoundError =>
          (Done (Returns (false, "gh CLI not found. Install with: brew install gh")), fx)
      | OtherException e => (Done (Raises e), fx)
      end.

Fixpoint attempt_loop (n : nat) (attempt : Z) (total_wait : Z) (fx : Effects)
      : pyresult (bool * string) * Effects :=
      match n with
      | O => (Returns (false, "Max retries exceeded"), fx)
      | S n' =>
          match attempt_body attempt total_wait fx with
          | (Done r, fx') => (r, fx')
          | (Next total_wait', fx') => attempt_loop n' (attempt + 1) total_wait' fx'
          end
      end.

End RunGh.

(** [run_gh_command(args, max_retries)]; [w] is the behaviour of
    [gh args]. *)
Definition run_gh_command (w : World) (args : list string) (max_retries : Z)
    : pyresult (bool * string) * Effects :=
    attempt_loop w max_retries (Z.to_nat max_retries) 0 0 no_effects.

Record CICheckResult : Type := mkCICheckResult {
    status : string;
    failed_checks : list string;
    failed_check_urls : list (option string);
    check_names : list string;
    has_build_check : bool;
    has_test_check : bool;
    build_evidence : string;
    test_evidence : string
  }.

(** [CICheckResult(status=s)], every other field at its default.  An
    element of [failed_check_urls] is [None] where the reply had a null
    URL. *)
Definition ci_status_only (s : string) : CICheckResult :=
    mkCICheckResult s [] [] [] false false "" "".

Definition BUILD_CHECK_PATTERNS : list string :=
    [ "build"; "compile"; "make"; "gradle"; "maven"; "cargo"; "npm run build";
      "yarn build"; "webpack"; "tsc"; "javac"; "gcc"; "cmake"; "bazel" ].

Definition TEST_CHECK_PATTERNS : list string :=
    [ "test"; "spec"; "jest"; "pytest"; "junit"; "mocha"; "karma"; "cypress";
      "selenium"; "unittest"; "rspec"; "minitest"; "coverage"; "e2e" ].

(** [any(p in text for p in patterns)] *)
Definition any_in (patterns : list string) (text : string) : bool :=
    existsb (fun p => PyStr.contains p text) patterns.

(** One object of the check-runs reply.  [None] is a key that is absent
    or null, with two exceptions.  For [name], [None] is an absent key
    only: a null name is not among the objects described here (the code
    raises [AttributeError] on it).  For [html_url], whose value goes into
    the result as it is, [None] is an absent key and [Some None] is null. *)
Record Check : Type := mkCheck {
    id : option Z;
    name : option string;
    conclusion : option string;
    ck_status : option string;
    html_url : option (option string)
  }.

Record MergeCommit : Type := mkMergeCommit { oid : option string }.

(** The PR object; [mergeCommit] is [None] when the key is absent or its
    value is falsy. *)
Record PrData : Type := mkPrData { mergeCommit : option MergeCommit }.

Definition get {A} (o : option A) (default : A) : A :=
    match o with Some a => a | None => default end.

(** The accumulators of the check-run loop. *)
Record Scan : Type := mkScan {
    sc_failed_checks : list string;
    sc_failed_check_urls : list (option string);
    sc_check_names : list string;
    sc_job_ids : list Z;
    sc_has_pending : bool;
    sc_has_checks : bool;
    sc_has_build_check : bool;
    sc_has_test_check : bool;
    sc_build_evidence : string;
    sc_test_evidence : string
  }.

Definition scan_start : Scan := mkScan [] [] [] [] false false false false "" "".

(** Truthiness of a list. *)
Definition truthy {A} (l : list A) : bool :=
    match l with [] => false | _ :: _ => true end.

Definition FAILED_CONCLUSIONS : list string :=
    ["failure"; "cancelled"; "timed_out"; "action_required"].

Definition str_in (s : string) (l : list string) : bool :=
    existsb (String.eqb s) l.

Definition opt_str_eqb (o : option string) (s : string) : bool :=
    match o with Some x => String.eqb x s | None => false end.

(** The evidence flags a name sets: shared by job names and step names. *)
Definition note_evidence (kind name : string) (has_build has_test : bool)
      (build_ev test_ev : string) : bool * bool * string * string :=
    let lower := PyStr.lower name in
    let '(has_build, build_ev) :=
      if negb has_build && any_in BUILD_CHECK_PATTERNS lower
      then (true, kind ++ ": " ++ name) else (has_build, build_ev) in
    let '(has_test, test_ev) :=
      if negb has_test && any_in TEST_CHECK_PATTERNS lower
      then (true, kind ++ ": " ++ name) else (has_test, test_ev) in
    (has_build, has_test, build_ev, test_ev).

Section CI.
(** The value [run_gh_command(args)] returns. *)
Variable gh : list string -> bool * string.
(** [json.loads] on the PR reply and on one line of the check-runs reply;
    [None] is [JSONDecodeError]. *)
Variable json_loads_pr : string -> option PrData.
Variable json_loads_check : string -> option Check.

Definition get_job_steps (repo : string) (job_id : Z) : list string :=
      let (success, output) :=
        gh ["api"; "repos/" ++ repo ++ "/actions/jobs/" ++ PyStr.of_Z job_id;
            "--jq"; ".steps[].name"] in
      if negb success then []
      else
        map PyStr.strip
          (filter (fun line => PyStr.nonempty (PyStr.strip line))
                  (PyStr.split_on nl (PyStr.strip output))).

(** The loop over [steps], which stops once both are found. *)
Fixpoint steps_loop (steps : list string) (has_build has_test : bool)
        (build_ev test_ev : string) : bool * bool * string * string :=
      match steps with
      | [] => (has_build, has_test, build_ev, test_ev)
      | step_name :: rest =>
          let '(has_build, has_test, build_ev, test_ev) :=
            note_evidence "step" step_name has_build has_test build_ev test_ev in
          if has_build && has_test then (has_build, has_test, build_ev, test_ev)
          else steps_loop rest has_build has_test build_ev test_ev
      end.

Definition check_steps_for_build_test (repo : string) (job_id : Z)
      : bool * bool * string * string :=
      steps_loop (get_job_steps repo job_id) false false "" "".

(** The body of [for line in output.strip().split("\n")], once
    [json.loads(line)] has returned [check]. *)
Definition scan_check (s : Scan) (check : Check) : Scan :=
    let check_name := get (name check) "unknown check" in
    let check_names := (sc_check_names s ++ [check_name])%list in
    let job_ids :=
      match id check with
      | Some check_id =>
          if check_id =? 0 then sc_job_ids s else (sc_job_ids s ++ [check_id])%list
      | None => sc_job_ids s
      end in
    let '(has_build, has_test, build_ev, test_ev) :=
      note_evidence "job" check_name (sc_has_build_check s)
        (sc_has_test_check s) (sc_build_evidence s) (sc_test_evidence s) in
    if negb (opt_str_eqb (ck_status check) "completed") then
      mkScan (sc_failed_checks s) (sc_failed_check_urls s) check_names job_ids
             true true has_build has_test build_ev test_ev
    else if str_in (get (conclusion check) "") FAILED_CONCLUSIONS then
      mkScan (sc_failed_checks s ++ [check_name])
             (sc_failed_check_urls s ++ [get (html_url check) (Some "")])
             check_names job_ids
             (sc_has_pending s) true has_build has_test build_ev test_ev
    else
      mkScan (sc_failed_checks s) (sc_failed_check_urls s) check_names job_ids
             (sc_has_pending s) true has_build has_test build_ev test_ev.

(** The body of [for line in output.strip().split("\n")]: blank lines and
    lines that are not JSON are skipped. *)
Definition scan_line (s : Scan) (line : string) : Scan :=
    if negb (PyStr.nonempty line) then s
    else
      match json_loads_check line with
      | None => s
      | Some check => scan_check s check
      end.

(** The loop [for job_id in job_ids[:5]]; [fetched] lists the jobs whose
    steps were asked for. *)
Fixpoint jobs_loop (repo : string) (job_ids : list Z) (has_build has_test : bool)
        (build_ev test_ev : string) (fetched : list Z)
      : bool * bool * string * string * list Z :=
      match job_ids with
      | [] => (has_build, has_test, build_ev, test_ev, fetched)
      | job_id :: rest =>
          if has_build && has_test then (has_build, has_test, build_ev, test_ev, fetched)
          else
            let '(step_build, step_test, step_build_ev, step_test_ev) :=
              check_steps_for_build_test repo job_id in
            let '(has_build, build_ev) :=
              if negb has_build && step_build then (true, step_build_ev)
              else (has_build, build_ev) in
            let '(has_test, test_ev) :=
              if negb has_test && step_test then (true, step_test_ev)
              else (has_test, test_ev) in
            jobs_loop repo rest has_build has_test build_ev test_ev (fetched ++ [job_id])
      end.

(** Everything after the check-runs reply has arrived. *)
Definition resolve_check_runs (repo : string) (output : string)
      : CICheckResult * list Z :=
      let s := fold_left scan_line (PyStr.split_on nl (PyStr.strip output)) scan_start in
      if negb (sc_has_checks s) then (ci_status_only "no_ci", [])
      else
        let '(has_build, has_test, build_ev, test_ev, fetched) :=
          if (negb (sc_has_build_check s) || negb (sc_has_test_check s))
             && truthy (sc_job_ids s)
          then jobs_loop repo (firstn 5 (sc_job_ids s)) (sc_has_build_check s)
                 (sc_has_test_check s) (sc_build_evidence s) (sc_test_evidence s) []
          else (sc_has_build_check s, sc_has_test_check s,
                sc_build_evidence s, sc_test_evidence s, []) in
        if sc_has_pending s then
          (mkCICheckResult "pending" [] [] (sc_check_names s)
             has_build has_test build_ev test_ev, fetched)
        else if truthy (sc_failed_checks s) then
          (mkCICheckResult "failure" (sc_failed_checks s) (sc_failed_check_urls s)
             (sc_check_names s) has_build has_test build_ev test_ev, fetched)
        else
          (mkCICheckResult "success" [] [] (sc_check_names s)
             has_build has_test build_ev test_ev, fetched).

(** [check_post_merge_ci_status(repo, pr_number)], with the job ids whose
    steps it fetched. *)
Definition check_post_merge_ci_status_traced (repo : string) (pr_number : Z)
      : CICheckResult * list Z :=
      let (success, output) :=
        gh ["pr"; "view"; PyStr.of_Z pr_number; "--repo"; repo; "--json"; "mergeCommit"] in
      if negb success then (ci_status_only "unknown", [])
      else
        match json_loads_pr output with
        | None => (ci_status_only "unknown", [])
        | Some pr_data =>
            match mergeCommit pr_data with
            | None => (ci_status_only "unknown", [])
            | Some merge_commit =>
                match oid merge_commit with
                | None => (ci_status_only "unknown", [])
                | Some commit_sha =>
                    let (success, output) :=
                      gh ["api"; "repos/" ++ repo ++ "/commits/" ++ commit_sha ++ "/check-runs";
                          "--jq"; ".check_runs[] | {id, name, conclusion, status, html_url}"] in
                    if negb success then (ci_status_only "unknown", [])
                    else resolve_check_runs repo output
                end
            end
        end.

Definition check_post_merge_ci_status (repo : string) (pr_number : Z)
      : CICheckResult :=
      fst (check_post_merge_ci_status_traced repo pr_number).

(** *** Views of the reply used to state properties *)

(** The check-runs reply, when the resolver gets as far as reading it. *)
Definition check_runs_reply (repo : string) (pr_number : Z) : option string :=
    let (success, output) :=
      gh ["pr"; "view"; PyStr.of_Z pr_number; "--repo"; repo; "--json"; "mergeCommit"] in
    if negb success then None
    else
      match json_loads_pr output with
      | None => None
      | Some pr_data =>
          match mergeCommit pr_data with
          | None => None
          | Some merge_commit =>
              match oid merge_commit with
              | None => None
              | Some commit_sha =>
                  let (success, output) :=
                    gh ["api"; "repos/" ++ repo ++ "/commits/" ++ commit_sha ++ "/check-runs";
                        "--jq"; ".check_runs[] | {id, name, conclusion, status, html_url}"] in
                  if negb success then None else Some output
              end
          end
      end.

(** The check-runs a reply holds, in order. *)
Definition observed_checks (output : string) : list Check :=
    flat_map
      (fun line =>
         if PyStr.nonempty line then
           match json_loads_check line with Some check => [check] | None => [] end
         else [])
      (PyStr.split_on nl (PyStr.strip output)).

End CI.

(** A check-run whose status is not ["completed"]. *)
Definition is_pending (check : Check) : bool :=
    negb (opt_str_eqb (ck_status check) "completed").

(** A completed check-run whose conclusion counts as a failure. *)
Definition is_failed (check : Check) : bool :=
    opt_str_eqb (ck_status check) "completed"
    && str_in (get (conclusion check) "") FAILED_CONCLUSIONS.

End PrQualityCheck.

(* ================================================================== *)
(** ** Concrete scenarios *)

Module Scenarios.
Import ErrorHandling Os SubprocessClient.

(** A world whose every process has the same outcome. *)
Definition always (oc : SpawnOutcome) : World :=
    mkWorld (fun _ => oc) (fun _ => 0%Q) (fun _ => (1 # 2)%Q) (fun _ => None).

(** A world whose k-th process has the k-th outcome of [ocs], and [final]
    once they are used up. *)
Definition scripted (ocs : list SpawnOutcome) (final : SpawnOutcome) : World :=
    mkWorld (fun k => nth k ocs final) (fun _ => 0%Q) (fun _ => (1 # 2)%Q)
      (fun _ => None).

(** [CommandConfig(check_return_code=False)] *)
Definition unchecked_config : CommandConfig :=
    mkCommandConfig 30 0 1 true false false None None.

(** [CommandConfig(retries=2)] *)
Definition two_retries : CommandConfig :=
    mkCommandConfig 30 2 1 true true false None None.

(** [CommandConfig(retries=2, retry_delay=-1.0)] *)
Definition negative_retry_delay : CommandConfig :=
    mkCommandConfig 30 2 (-1) true true false None None.

(** A world like [scripted] in which [random.random()] returns the k-th
    value of [us] in the k-th delay computation, and 0 afterwards. *)
Definition scripted_draws (ocs : list SpawnOutcome) (final : SpawnOutcome)
      (us : list Q) : World :=
    mkWorld (fun k => nth k ocs final) (fun _ => 0%Q) (fun k => nth k us 0%Q)
      (fun _ => None).

(** [CommandConfig(retries=3)] *)
Definition three_retries : CommandConfig :=
    mkCommandConfig 30 3 1 true true false None None.



End Scenarios.

Module CiScenarios.
Import PrQualityCheck.

(** [json.loads] of the PR reply "PR": a merge commit with oid "abc123". *)
Definition json_pr (s : string) : option PrData :=
    if String.eqb s "PR"
    then Some (mkPrData (Some (mkMergeCommit (Some "abc123"))))
    else None.

(** [json.loads] of a check-run line: "F" is a completed, failed check
    named "ci", "P" a check named "lint" still in progress, "S" a completed,
    successful check "build-and-test", "N" a completed, cancelled check
    "deploy" whose URL is null; anything else is not JSON. *)
Definition json_check (s : string) : option Check :=
    if String.eqb s "F" then
      Some (mkCheck (Some 7) (Some "ci") (Some "failure") (Some "completed")
                    (Some (Some "https://example.com/failed")))
    else if String.eqb s "P" then
      Some (mkCheck (Some 8) (Some "lint") None (Some "in_progress")
                    (Some (Some "https://example.com/pending")))
    else if String.eqb s "S" then
      Some (mkCheck (Some 9) (Some "build-and-test") (Some "success") (Some "completed")
                    (Some (Some "https://example.com/ok")))
    else if String.eqb s "N" then
      Some (mkCheck (Some 10) (Some "deploy") (Some "cancelled") (Some "completed")
                    (Some None))
    else None.

(** Replies of [gh]: the PR, then [check_runs] for its merge commit; job 7
    has the steps "Run build" and "Run tests", other queries fail. *)
Definition gh_replies (check_runs : string) (args : list string) : bool * string :=
    match args with
    | "pr" :: _ => (true, "PR")
    | ["api"; "repos/test/repo/commits/abc123/check-runs"; _; _] => (true, check_runs)
    | ["api"; "repos/test/repo/actions/jobs/7"; _; _] =>
        (true, String nl ("Run build" ++ String nl ("Run tests" ++ String nl "")))
    | _ => (false, "not found")
    end.

(** A failed check followed by a pending one. *)
Definition failed_then_pending : string := "F" ++ String nl "P".

(** A reply without any check-run: a blank line and a line that is not JSON. *)
Definition no_check_runs : string := "x" ++ String nl (String nl "not json").

End CiScenarios.


(* ================================================================== *)
(** ** Further views *)

Module DetectorViews.
Import ErrorHandling SubprocessClient.

(** The pattern set [SubprocessClient.__init__] registers for one entry of
    [custom_error_patterns]. *)
Definition custom_set_of (entry : Re.regex * PatternConfig) : ErrorPatternSet :=
    mkErrorPatternSet ("custom-" ++ get (pc_error_type (snd entry)) "custom")
      [fst entry]
      (get (pc_error_type (snd entry)) "custom")
      (get (pc_message (snd entry)) "Custom error detected")
      (get (pc_suggestion (snd entry)) "")
      (get (pc_recoverable (snd entry)) true).

End DetectorViews.


(* ================================================================== *)
(** ** Views of the rate-limit wrappers *)

Module RetryViews.
Import Os.

(** The standard error, stripped, of a completed process. *)
Definition stderr_of (oc : SpawnOutcome) : string :=
    match oc with
    | Completed _ _ stderr => PyStr.strip stderr
    | _ => ""
    end.

(** [sum(delays)], added up from the left as [total_wait] is. *)
Definition total_wait_of (delays : list Q) : Q := fold_left Qplus delays 0%Q.

(** The delay [GHClient._retry_with_backoff] computes after its k-th
    rate-limited invocation. *)
Definition gh_client_delay (w : World) (cfg : GHClient.GHClientConfig) (k : nat)
    : pyresult Q :=
    GHClient._calculate_delay cfg (Z.of_nat k) (random_draw w k).

(** That delay is computed without an exception and [time.sleep] takes it. *)
Definition gh_client_delay_accepted (w : World) (cfg : GHClient.GHClientConfig)
      (k : nat) : bool :=
    match gh_client_delay w cfg k with
    | Returns delay => accepts w delay
    | Raises _ => false
    end.

(** The delay [run_gh_command] sleeps after its k-th rate-limited
    invocation: 2, 4, 8, ..., 256, 300, 300, ... seconds. *)
Definition run_gh_delay (k : nat) : Z := Z.min (2 ^ (Z.of_nat k + 1)) 300.

(** A process that exits with a non-zero code without any rate-limit
    indication: none on its standard error and, when the standard output is
    inspected too, none there. *)
Definition fails_otherwise (check_stdout_for_rate_limit : bool) (oc : SpawnOutcome) : bool :=
    match oc with
    | Completed returncode stdout stderr =>
        negb (returncode =? 0)
        && negb (PyStr.contains "rate limit" (PyStr.lower (PyStr.strip stderr)))
        && negb (check_stdout_for_rate_limit
                 && PyStr.contains "rate_limit" (PyStr.lower (PyStr.strip stdout)))
    | _ => false
    end.

(** The standard output, stripped, of a completed process. *)
Definition stdout_of (oc : SpawnOutcome) : string :=
    match oc with
    | Completed _ stdout _ => PyStr.strip stdout
    | _ => ""
    end.

End RetryViews.


(* ================================================================== *)
(** ** Views of the CI resolution *)

Module CiViews.
Import PrQualityCheck.

(** [check.get("name", "unknown check")] *)
Definition name_of (check : Check) : string := get (name check) "unknown check".

(** [check.get("html_url", "")]: [None] is Python's [None], the value of
    a null URL. *)
Definition url_of (check : Check) : option string := get (html_url check) (Some "").

(** The job ids the check-run loop collects: the truthy [id]s, in order. *)
Definition job_ids_of (checks : list Check) : list Z :=
    flat_map
      (fun check =>
         match id check with
         | Some check_id => if check_id =? 0 then [] else [check_id]
         | None => []
         end)
      checks.

(** A name that holds a build keyword, and one that holds a test keyword. *)
Definition names_build (text : string) : bool :=
    any_in BUILD_CHECK_PATTERNS (PyStr.lower text).

Definition names_test (text : string) : bool :=
    any_in TEST_CHECK_PATTERNS (PyStr.lower text).

(** A flag is set exactly when its evidence text is not empty. *)
Definition evidence_ok (has : bool) (evidence : string) : Prop :=
    has = PyStr.nonempty evidence.

(** The evidence text the job-name scan leaves for a keyword test [names]:
    that of the first check-run whose name passes it. *)
Definition job_evidence (names : string -> bool) (checks : list Check) : string :=
    match find (fun check => names (name_of check)) checks with
    | Some check => "job: " ++ name_of check
    | None => ""
    end.

End CiViews.


(* ================================================================== *)
(** ** More of Python's strings and lists *)

Module PyMore.

(** [s.endswith(suffix)] *)
Definition endswith (suffix s : string) : bool :=
    let n := String.length s in
    let m := String.length suffix in
    Nat.leb m n && String.eqb (String.substring (n - m) m s) suffix.

(** [l[:stop]]: a negative [stop] counts from the end. *)
Definition slice_to {A} (stop : Z) (l : list A) : list A :=
    if 0 <=? stop then firstn (Z.to_nat stop) l
    else firstn (List.length l - Z.to_nat (- stop)) l.

End PyMore.

(** The order [list.sort()] puts strings in: character by character, by
    code. *)
Module StringOrder <: Orders.TotalLeBool.
Definition t := string.
Definition leb := String.leb.
Definition leb_total : forall x y, leb x y = true \/ leb y x = true :=
    String.leb_total.
End StringOrder.

(** [list.sort()] on strings.  For a total order whose ties are equal
    strings the sorted arrangement is unique, so any sorting function
    computes what the built-in does. *)
Module StringSort := Sort StringOrder.

(* ================================================================== *)
(** ** gh_client.py: repository search *)

Module GHClientQueries.

Section Search.
(** Python's [re]: compiled patterns, [re.compile] ([None] is [re.error]),
    [pattern.match] and [pattern.search]. *)
Variable pattern_t : Type.
Variable re_compile : string -> option pattern_t.
Variable re_match : pattern_t -> string -> bool.
Variable re_search : pattern_t -> string -> bool.
(** What [self.run_command(args)] does: it returns a pair or, like
    [GHClient.run_command] above, lets an exception through. *)
Variable run_command : list string -> pyresult (bool * string).
(** [[r["name"] for r in json.loads(output)]], which raises on text that is
    not JSON or not of that shape. *)
Variable json_names : string -> pyresult (list string).

(** ["(" + "|".join(f"(?:{p})" for p in exclude_patterns) + ")"] *)
Definition combined_pattern (exclude_patterns : list string) : string :=
    "(" ++ PyStr.join "|" (map (fun p => "(?:" ++ p ++ ")") exclude_patterns) ++ ")".

(** The exclude pattern in force: none without patterns, and none when
    their combination does not compile. *)
Definition compile_exclude (exclude_patterns : option (list string)) : option pattern_t :=
    match exclude_patterns with
    | Some (p :: ps) => re_compile (combined_pattern (p :: ps))
    | _ => None
    end.

Definition fetch_limit (max_matches : Z) : Z :=
    if max_matches =? 0 then 100000 else Z.max (max_matches * 10) 1000.

Definition repo_list_args (owner : string) (max_matches : Z) : list string :=
    ["repo"; "list"; owner; "--limit"; PyStr.of_Z (fetch_limit max_matches);
     "--json"; "name"].

(** [GHClient.search_repos(owner, pattern, max_matches, exclude_patterns)] *)
Definition search_repos (owner pattern : string) (max_matches : Z)
      (exclude_patterns : option (list string)) : pyresult (list string) :=
    match re_compile pattern with
    | None => Returns []
    | Some include_regex =>
        let exclude_regex := compile_exclude exclude_patterns in
        match run_command (repo_list_args owner max_matches) with
        | Raises e => Raises e
        | Returns (success, output) =>
            if negb success then Returns []
            else
              match json_names output with
              | Raises e => Raises e
              | Returns repo_names =>
                  let matching := filter (re_match include_regex) repo_names in
                  let matching :=
                    match exclude_regex with
                    | Some ex => filter (fun name => negb (re_search ex name)) matching
                    | None => matching
                    end in
                  let matching := StringSort.sort matching in
                  if max_matches =? 0 then Returns matching
                  else Returns (PyMore.slice_to max_matches matching)
              end
        end
    end.

End Search.

End GHClientQueries.

(* ================================================================== *)
(** ** pr_quality_check.py: size, grade, issue and date helpers *)

Module PrQualityRules.

Definition categorize_pr_size (additions deletions changed_files : Z) : string :=
    let total := additions + deletions in
    if (total <=? 50) && (changed_files <=? 3) then "small"
    else if (total <=? 200) && (changed_files <=? 10) then "medium"
    else if (total <=? 500) && (changed_files <=? 20) then "large"
    else "xlarge".

Definition calculate_grade (score : Z) : string :=
    if 90 <=? score then "A"
    else if 80 <=? score then "B"
    else if 70 <=? score then "C"
    else if 60 <=? score then "D"
    else "F".

Definition _format_dimension_cell (score : Z) (has_issue : bool)
      (issue_text : option string) : string :=
    let grade := calculate_grade score in
    let icon := if 90 <=? score then "✓" else if 60 <=? score then "⚠" else "✗" in
    match issue_text with
    | Some text =>
        if has_issue && PyStr.nonempty text then icon ++ " " ++ grade ++ " " ++ text
        else icon ++ " " ++ grade
    | None => icon ++ " " ++ grade
    end.

Definition normalize_issue_for_frequency (issue : string) : string :=
    if PyStr.contains "Post-merge CI/CD failure" issue then
      "CRITICAL: Post-merge CI/CD failure"
    else if PyStr.contains "Large PR" issue
            && negb (PyStr.contains "consider splitting" issue) then
      "Large PR - consider splitting"
    else if PyStr.contains "Very large PR" issue then
      "Very large PR - consider splitting"
    else issue.

(** [get_msft_fiscal_year_dates()], for [datetime.now()] in month
    [current_month] of year [current_year]. *)
Definition get_msft_fiscal_year_dates (current_year current_month : Z)
    : string * string * string :=
    let '(fiscal_year, start_year, end_year) :=
      if 7 <=? current_month
      then (current_year + 1, current_year, current_year + 1)
      else (current_year, current_year - 1, current_year) in
    ("FY" ++ PyStr.of_Z (fiscal_year mod 100),
     PyStr.of_Z start_year ++ "-07-01",
     PyStr.of_Z end_year ++ "-06-30").

(** The dictionary [get_pr_diff_stats] returns. *)
Record DiffStats : Type := mkDiffStats {
    test_files : Z;
    code_files : Z;
    files : list string
  }.

Definition CODE_SUFFIXES : list string :=
    [".py"; ".java"; ".ts"; ".tsx"; ".js"; ".jsx"; ".rs"; ".go"].

Definition is_test_file (f : string) : bool :=
    PyStr.contains "test" (PyStr.lower f)
    || PyStr.contains "spec" (PyStr.lower f)
    || PyStr.contains "__tests__" (PyStr.lower f).

Section DiffStats.
(** The value [run_gh_command(args)] returns. *)
Variable gh : list string -> bool * string.

Definition get_pr_diff_stats (repo : string) (pr_number : Z) : DiffStats :=
    let (success, output) :=
      gh ["pr"; "diff"; PyStr.of_Z pr_number; "--repo"; repo; "--name-only"] in
    if negb success then mkDiffStats 0 0 []
    else
      let files :=
        if PyStr.nonempty (PyStr.strip output)
        then PyStr.split_on PrQualityCheck.nl (PyStr.strip output) else [] in
      let test_files := filter is_test_file files in
      let code_files :=
        filter
          (fun f => existsb (fun suffix => PyMore.endswith suffix f) CODE_SUFFIXES
                    && negb (existsb (String.eqb f) test_files))
          files in
      mkDiffStats (Z.of_nat (List.length test_files)) (Z.of_nat (List.length code_files))
        files.

End DiffStats.

(** The order of the size categories and of the grades. *)
Definition size_rank (category : string) : Z :=
    if String.eqb category "small" then 0
    else if String.eqb category "medium" then 1
    else if String.eqb category "large" then 2
    else 3.

Definition grade_rank (grade : string) : Z :=
    if String.eqb grade "A" then 4
    else if String.eqb grade "B" then 3
    else if String.eqb grade "C" then 2
    else if String.eqb grade "D" then 1
    else 0.

End PrQualityRules.


(* ================================================================== *)
(** ** Replies for the repository search *)

Module QueryScenarios.

(** A pattern library for literal patterns: a pattern with a bracket does
    not compile, [match] is a prefix test and [search] a substring test. *)
Definition literal_compile (p : string) : option string :=
    if PyStr.contains "[" p then None else Some p.

(** A listing of three repositories, separated by commas. *)
Definition listing (args : list string) : pyresult (bool * string) :=
    Returns (true, "svc-b,lib-a,svc-a").

Definition names_of (output : string) : pyresult (list string) :=
    Returns (PyStr.split_on "," output).

Definition search (pattern : string) (max_matches : Z) : pyresult (list string) :=
    GHClientQueries.search_repos string literal_compile PyStr.startswith
      PyStr.contains listing names_of "org" pattern max_matches None.

End QueryScenarios.

(* ================================================================== *)
(** * Properties of the retry loop of [execute_command] *)

Section SubprocessLoop.
Import ErrorHandling Os SubprocessClient.

Variable w : World.
Variable detector : ErrorPatternDetector.
Variable cfg : CommandConfig.
Variable cmd_list : list string.
Variable cmd_string : string.

Local Abbreviation body := (attempt_body w detector cfg cmd_list cmd_string).
Local Abbreviation loop := (attempt_loop w detector cfg cmd_list cmd_string).
Local Abbreviation try_of := (try_block w detector cfg cmd_list cmd_string).
Local Abbreviation result_of := (outcome_result detector cfg cmd_list cmd_string).
Local Abbreviation control_of := (outcome_control detector cfg cmd_string).
Local Abbreviation entry_at := (entry w detector cfg cmd_list cmd_string).
Local Abbreviation iters := (iterations w detector cfg cmd_string).
Local Abbreviation stops := (stopping detector cfg cmd_string).

(** [time.sleep] returns, and is logged, exactly for the delays it takes. *)
Lemma sleep_cases d fx :
  (accepts w d = true /\ sleep w d fx = Returns (slept d fx))
  \/ (accepts w d = false /\ exists e, sleep w d fx = Raises e).
Proof.
  unfold accepts, sleep.
  destruct (Qle_bool 0 d); cbn [andb]; [|right; eauto].
  destruct (Qle_bool d SLEEP_SAFE); cbn [orb]; [left; auto|].
  destruct (sleep_error w d); [right; eauto|left; auto].
Qed.

(** Computing a delay neither runs a process, nor sleeps, nor adds a result. *)
Lemma delay_for_effects attempt st :
  calls (effects (snd (delay_for w cfg attempt st))) = calls (effects st)
  /\ sleeps (effects (snd (delay_for w cfg attempt st))) = sleeps (effects st)
  /\ history (snd (delay_for w cfg attempt st)) = history st
  /\ fst (delay_for w cfg attempt st) = delay_value w cfg attempt (draws (effects st)).
Proof.
  unfold delay_for, delay_value. destruct (retry_strategy cfg); simpl; auto.
Qed.

(** What precedes the [try]: nothing in the first iteration; later the
    delay is computed and slept, or an exception leaves the call. *)
Lemma wait_before_cases attempt st :
  (exists e st',
      wait_before w cfg attempt st = (st', Some e)
      /\ 0 < attempt
      /\ calls (effects st') = calls (effects st)
      /\ sleeps (effects st') = sleeps (effects st)
      /\ history st' = history st
      /\ delay_accepted w cfg (attempt - 1) (draws (effects st)) = false)
  \/ (exists st',
         wait_before w cfg attempt st = (st', None)
         /\ calls (effects st') = calls (effects st)
         /\ history st' = history st
         /\ ((attempt <= 0 /\ st' = st)
             \/ (0 < attempt
                 /\ exists d,
                      delay_value w cfg (attempt - 1) (draws (effects st)) = Returns d
                      /\ accepts w d = true
                      /\ sleeps (effects st') = (sleeps (effects st) ++ [d])%list))).
Proof.
  unfold wait_before, delay_accepted.
  destruct (Z.ltb_spec 0 attempt) as [Hpos|Hle].
  - destruct (delay_for_effects (attempt - 1) st) as (Hc & Hs & Hh & Hd).
    destruct (delay_for w cfg (attempt - 1) st) as [d st1]. cbn [fst snd] in *.
    rewrite <- Hd. destruct d as [d|e].
    + destruct (sleep_cases d (effects st1)) as [[Ha Hsl]|[Ha [e Hsl]]]; rewrite Hsl.
      * right. eexists. split; [reflexivity|]. cbn. repeat split; auto.
        right. split; [exact Hpos|]. exists d. rewrite Hs. auto.
      * left. exists e, st1. repeat split; auto.
    + left. exists e, st1. repeat split; auto.
  - right. exists st. repeat split; auto.
Qed.

(** A decision to go on leaves nothing that would have stopped the loop. *)
Lemma continue_not_final attempt oc t :
  control_of attempt oc = Continue ->
  success (result_of oc t) = false
  /\ result_recoverable (result_of oc t) = true
  /\ (forall s returncode stdout stderr info,
        retry_strategy cfg = Some s ->
        oc = Completed returncode stdout stderr ->
        classification detector cfg cmd_string oc = Some info ->
        should_retry s (combined cfg stdout stderr) returncode = true).
Proof.
  unfold outcome_control, outcome_result, classification, result_recoverable.
  destruct oc as [rc out err| | |e]; simpl; try discriminate;
    try (intros _; repeat split; auto; intros; discriminate).
  destruct (detect_error_patterns detector _ rc cmd_string) as [info|e]; simpl;
    try (intros _; repeat split; auto; intros; discriminate).
  destruct ((rc =? 0) && (negb (check_return_code cfg) || negb (is_error info))) eqn:Hs;
    simpl; try discriminate.
  destruct (recoverable info) eqn:Hrec; simpl; try discriminate.
  intros Hc. repeat split; auto.
  intros s rc' out' err' info' Hsome Hoc _. rewrite Hsome in Hc.
  injection Hoc as <- <- <-.
  destruct (should_retry s _ rc); [reflexivity|discriminate].
Qed.

Lemma continue_not_stopping attempt oc t :
  control_of attempt oc = Continue -> ~ stops oc (result_of oc t).
Proof.
  intros Hc. destruct (continue_not_final attempt oc t Hc) as (Hs & Hr & Hv).
  intros [H|[H|(s & rc & out & err & info & Hsome & Hoc & Hcl & Hno)]]; try congruence.
  rewrite (Hv s rc out err info Hsome Hoc Hcl) in Hno. discriminate.
Qed.

(** The [try] statement runs no process and does not sleep.  Its result and
    decision are those of the outcome, unless the delay computed for the
    verbose message raises: then the result is that of the exception and
    the loop goes on. *)
Lemma try_block_cases attempt oc t st :
  exists st' r c,
    try_of attempt oc t st = (st', r, c)
    /\ calls (effects st') = calls (effects st)
    /\ sleeps (effects st') = sleeps (effects st)
    /\ history st' = history st
    /\ ((r = result_of oc t /\ c = control_of attempt oc)
        \/ (exists e,
               r = exception_result cmd_string e t
               /\ c = Continue
               /\ control_of attempt oc = Continue
               /\ attempt < retries cfg
               /\ delay_value w cfg attempt (draws (effects st)) = Raises e)).
Proof.
  unfold try_block, outcome_result, outcome_control, combined.
  destruct oc as [rc out err| | |e];
    try (do 3 eexists; split; [reflexivity|]; repeat split; auto; fail).
  destruct (detect_error_patterns detector _ rc cmd_string) as [info|e];
    [|do 3 eexists; split; [reflexivity|]; repeat split; auto].
  destruct ((rc =? 0) && (negb (check_return_code cfg) || negb (is_error info))
            || negb (recoverable info)) eqn:Hstop;
    [do 3 eexists; split; [reflexivity|]; repeat split; auto|].
  destruct (retry_strategy cfg) as [s|] eqn:Hs;
    [|do 3 eexists; split; [reflexivity|]; repeat split; auto].
  destruct (should_retry s _ rc) eqn:Hsr; cbn [negb];
    [|do 3 eexists; split; [reflexivity|]; repeat split; auto].
  destruct (verbose cfg && is_error info && (recoverable info && (attempt <? retries cfg)))
    eqn:Hv; [|do 3 eexists; split; [reflexivity|]; repeat split; auto].
  destruct (delay_for_effects attempt st) as (Hc & Hsl & Hh & Hd).
  destruct (delay_for w cfg attempt st) as [d st1]. cbn [fst snd] in *.
  destruct d as [d|e].
  - do 3 eexists. split; [reflexivity|]. repeat split; auto.
  - apply andb_true_iff in Hv. destruct Hv as [_ Hv].
    apply andb_true_iff in Hv. destruct Hv as [_ Hlt].
    do 3 eexists. split; [reflexivity|]. repeat split; auto.
    right. exists e. unfold retry_if_budget. rewrite Hlt.
    repeat split; auto. apply Z.ltb_lt. exact Hlt.
Qed.

(** One iteration either is left by an exception before it runs a process,
    or runs exactly one process and records its result. *)
Lemma attempt_body_cases attempt st :
  let k := calls (effects st) in
  (exists e st' j,
      body attempt st = (st', Raised e)
      /\ 0 < attempt
      /\ calls (effects st') = k
      /\ sleeps (effects st') = sleeps (effects st)
      /\ history st' = history st
      /\ delay_accepted w cfg (attempt - 1) j = false)
  \/ (exists st' r c,
         body attempt st = (st', Decided r c)
         /\ calls (effects st') = S k
         /\ history st' = (history st ++ [(spawn w k, r)])%list
         /\ ((attempt <= 0 /\ sleeps (effects st') = sleeps (effects st))
             \/ (0 < attempt
                 /\ exists d j,
                      delay_value w cfg (attempt - 1) j = Returns d
                      /\ accepts w d = true
                      /\ sleeps (effects st') = (sleeps (effects st) ++ [d])%list))
         /\ ((r = result_of (spawn w k) (elapsed w k)
              /\ c = control_of attempt (spawn w k))
             \/ (exists e j,
                    r = exception_result cmd_string e (elapsed w k)
                    /\ c = Continue
                    /\ control_of attempt (spawn w k) = Continue
                    /\ attempt < retries cfg
                    /\ delay_value w cfg attempt j = Raises e))).
Proof.
  cbn zeta. unfold attempt_body.
  destruct (wait_before_cases attempt st)
    as [(e & st1 & Hw & Hpos & Hc & Hs & Hh & Hd)|(st1 & Hw & Hc & Hh & Hsl)];
    rewrite Hw.
  - left. exists e, st1, (draws (effects st)). repeat split; auto.
  - right.
    destruct (try_block_cases attempt (spawn w (calls (effects st1)))
                (elapsed w (calls (effects st1))) (lift ran st1))
      as (st2 & r & c & Ht & Hc2 & Hs2 & Hh2 & Hrc).
    rewrite Ht. exists (recorded (spawn w (calls (effects st1))) r st2), r, c.
    cbn [recorded effects history lift ran calls sleeps] in *.
    rewrite Hc in *.
    split; [reflexivity|]. split; [exact Hc2|].
    split; [rewrite Hh2, Hh; reflexivity|]. split.
    + destruct Hsl as [[Hle ->]|(Hpos & d & Hd & Ha & Hs)].
      * left. split; [exact Hle|]. rewrite Hs2. reflexivity.
      * right. split; [exact Hpos|]. exists d, (draws (effects st)).
        rewrite Hs2, Hs. auto.
    + destruct Hrc as [[-> ->]|(e & -> & -> & Hco & Hlt & Hd)]; [left; auto|].
      right. exists e. eexists. repeat split; eauto.
Qed.

Lemma exception_result_not_stopping attempt oc e t :
  control_of attempt oc = Continue ->
  ~ stops oc (exception_result cmd_string e t).
Proof.
  intros Hc. destruct (continue_not_final attempt oc t Hc) as (_ & _ & Hv).
  intros [H|[H|(s & rc & out & err & info & Hsome & Hoc & Hcl & Hno)]];
    try discriminate.
  rewrite (Hv s rc out err info Hsome Hoc Hcl) in Hno. discriminate.
Qed.

(** What every run of the loop satisfies, whether it returns or is left by
    an exception: it runs at most one process per iteration and records
    each; it sleeps before every process but the first of the call, for a
    delay that [time.sleep] takes; an attempt that stops the loop is the
    last one and its result is returned; a returned result is that of the
    last process; and only a delay that is not taken, or not computed,
    raises. *)
Lemma attempt_loop_facts n :
  forall attempt st last_result,
    0 <= attempt ->
    (n = 0%nat \/ attempt + Z.of_nat n = retries cfg + 1) ->
    let k := calls (effects st) in
    let out := loop n attempt st last_result in
    exists new ds,
      calls (effects (fst out)) = (k + List.length new)%nat
      /\ (List.length new <= n)%nat
      /\ (attempt <= 0 -> (0 < n)%nat -> (0 < List.length new)%nat)
      /\ history (fst out) = (history st ++ new)%list
      /\ sleeps (effects (fst out)) = (sleeps (effects st) ++ ds)%list
      /\ List.length ds
         = (if 0 <? attempt then List.length new else pred (List.length new))
      /\ Forall (fun d => exists a j,
                     delay_value w cfg a j = Returns d /\ accepts w d = true) ds
      /\ (forall i oc r,
             nth_error new i = Some (oc, r) ->
             oc = spawn w (k + i)
             /\ (stops oc r -> S i = List.length new /\ snd out = Returns (Some r)))
      /\ (forall last',
             snd out = Returns last' ->
             match List.length new with
             | O => last' = last_result /\ n = 0%nat
             | S m' => last' = Some (snd (entry_at (k + m')))
                       /\ nth_error new m' = Some (entry_at (k + m'))
             end)
      /\ (forall e,
             snd out = Raises e ->
             (List.length new < n)%nat
             /\ exists a j, 0 <= a < retries cfg /\ delay_accepted w cfg a j = false).
Proof.
  induction n as [|n IH]; intros attempt st last_result Hpos Hrange; cbn zeta.
  - exists [], []. cbn [attempt_loop fst snd List.length app].
    rewrite Nat.add_0_r, !app_nil_r.
    split; [reflexivity|]. split; [lia|]. split; [lia|].
    split; [reflexivity|]. split; [reflexivity|].
    split; [destruct (0 <? attempt); reflexivity|].
    split; [constructor|].
    split; [intros i oc r Hnth; destruct i; discriminate|].
    split; [intros last' Hret; injection Hret as <-; auto|].
    intros e Hraise. discriminate.
  - destruct Hrange as [Hz|Hrange]; [discriminate|].
    cbn [attempt_loop].
    destruct (attempt_body_cases attempt st)
      as [(e & st' & j & Hb & Hlt & Hc & Hs & Hh & Hd)
         |(st' & r & c & Hb & Hc & Hh & Hsl & Hrc)]; rewrite Hb.
    + exists [], []. cbn [fst snd List.length app].
      rewrite Nat.add_0_r, !app_nil_r.
      assert (Hgt : (0 <? attempt) = true) by (apply Z.ltb_lt; exact Hlt).
      rewrite Hgt.
      split; [exact Hc|]. split; [lia|]. split; [lia|].
      split; [exact Hh|]. split; [exact Hs|]. split; [reflexivity|].
      split; [constructor|].
      split; [intros i oc r Hnth; destruct i; discriminate|].
      split; [intros last' Hret; discriminate|].
      intros e' _. split; [lia|].
      exists (attempt - 1), j. split; [lia|exact Hd].
    + assert (Hds : exists ds0,
                 sleeps (effects st') = (sleeps (effects st) ++ ds0)%list
                 /\ List.length ds0 = (if (0 <? attempt)%Z then 1 else 0)%nat
                 /\ Forall (fun d => exists a j,
                                delay_value w cfg a j = Returns d /\ accepts w d = true)
                           ds0).
      { destruct Hsl as [[Hle Hs]|(Hlt & d & j & Hd & Ha & Hs)].
        - exists []. rewrite app_nil_r.
          destruct (Z.ltb_spec 0 attempt); [lia|]. auto.
        - exists [d]. destruct (Z.ltb_spec 0 attempt); [|lia].
          repeat split; auto. constructor; [|constructor]. eauto. }
      destruct Hds as (ds0 & Hs & Hlen0 & Hall0).
      assert (Hnonstop : c = Continue -> ~ stops (spawn w (calls (effects st))) r).
      { intros ->.
        destruct Hrc as [[-> Hco]|(e & j & -> & _ & Hco & _ & _)].
        - apply (continue_not_stopping attempt). symmetry. exact Hco.
        - apply (exception_result_not_stopping attempt). exact Hco. }
      destruct c.
      * (* the loop stops after this attempt *)
        assert (Hr : r = snd (entry_at (calls (effects st)))).
        { destruct Hrc as [[-> _]|(e & j & _ & Hcont & _)]; [reflexivity|discriminate]. }
        exists [(spawn w (calls (effects st)), r)], ds0.
        cbn [fst snd List.length].
        split; [lia|]. split; [lia|]. split; [lia|].
        split; [exact Hh|]. split; [exact Hs|].
        split; [rewrite Hlen0; destruct (0 <? attempt); reflexivity|].
        split; [exact Hall0|].
        split; [|split].
        -- intros i oc r' Hnth. destruct i as [|i]; [|destruct i; discriminate].
           injection Hnth as <- <-. rewrite Nat.add_0_r.
           split; [reflexivity|]. intros _. split; reflexivity.
        -- intros last' Hret. injection Hret as <-. rewrite Nat.add_0_r.
           split; [exact (f_equal Some Hr)|]. cbn [nth_error]. rewrite Hr. reflexivity.
        -- intros e Hraise. discriminate.
      * (* the loop goes on *)
        destruct (IH (attempt + 1) st' (Some r) ltac:(lia) ltac:(right; lia))
          as (new & ds & Fc & Fle & _ & Fh & Fs & Flen & Fall & Fnth & Fret & Fraise).
        cbn zeta in *.
        assert (Hnext : (0 <? attempt + 1) = true) by (apply Z.ltb_lt; lia).
        rewrite Hnext in Flen. rewrite Hc in *.
        exists ((spawn w (calls (effects st)), r) :: new), (ds0 ++ ds)%list.
        cbn [List.length].
        split; [rewrite Fc; lia|]. split; [lia|]. split; [lia|].
        split; [rewrite Fh, Hh, <- app_assoc; reflexivity|].
        split; [rewrite Fs, Hs, app_assoc; reflexivity|].
        split; [rewrite length_app, Hlen0, Flen; destruct (0 <? attempt); simpl; lia|].
        split; [apply Forall_app; auto|].
        split; [|split].
        -- intros i oc r' Hnth. destruct i as [|i].
           ++ injection Hnth as <- <-. rewrite Nat.add_0_r. split; [reflexivity|].
              intros Hstop. exfalso. exact (Hnonstop eq_refl Hstop).
           ++ cbn [nth_error] in Hnth.
              destruct (Fnth i oc r' Hnth) as [Hoc Hst].
              split; [rewrite Hoc; f_equal; lia|].
              intros Hstop. destruct (Hst Hstop) as [Hi Hout]. split; [lia|exact Hout].
        -- intros last' Hret. specialize (Fret last' Hret).
           destruct (List.length new) as [|m'] eqn:Hm.
           ++ destruct Fret as [-> Hn]. rewrite Nat.add_0_r.
              assert (Hr : r = snd (entry_at (calls (effects st)))).
              { destruct Hrc as [[-> _]|(e & j & _ & _ & _ & Hlt & _)]; [reflexivity|lia]. }
              split; [exact (f_equal Some Hr)|]. cbn. rewrite Hr. reflexivity.
           ++ destruct Fret as [-> Hnth].
              replace (calls (effects st) + S m')%nat
                with (S (calls (effects st)) + m')%nat by lia.
              split; [reflexivity|exact Hnth].
        -- intros e Hraise. destruct (Fraise e Hraise) as [Hlt Hex]. split; [lia|exact Hex].
Qed.

(** When every delay is accepted, an iteration runs exactly one process, and
    its result and its decision are those of the outcome of that process. *)
Lemma attempt_body_quiet attempt st :
  delays_accepted w cfg ->
  0 <= attempt <= retries cfg ->
  exists st',
    body attempt st
    = (st', Decided (result_of (spawn w (calls (effects st))) (elapsed w (calls (effects st))))
              (control_of attempt (spawn w (calls (effects st)))))
    /\ calls (effects st') = S (calls (effects st))
    /\ history st' = (history st ++ [entry_at (calls (effects st))])%list.
Proof.
  intros Hq Hrange.
  destruct (attempt_body_cases attempt st)
    as [(e & st' & j & Hb & Hlt & Hc & Hs & Hh & Hd)
       |(st' & r & c & Hb & Hc & Hh & Hsl & Hrc)].
  - rewrite (Hq (attempt - 1) j ltac:(lia)) in Hd. discriminate.
  - destruct Hrc as [[-> ->]|(e & j & _ & _ & _ & Hlt & Hd)].
    + exists st'. auto.
    + pose proof (Hq attempt j ltac:(lia)) as Ha.
      unfold delay_accepted in Ha. rewrite Hd in Ha. discriminate.
Qed.

(** When every delay is accepted, the loop executes [iterations]
    iterations, one process each, and returns the result of the last one. *)
Lemma attempt_loop_quiet n :
  delays_accepted w cfg ->
  forall attempt st last_result,
    0 <= attempt ->
    (n = 0%nat \/ attempt + Z.of_nat n <= retries cfg + 1) ->
    let k := calls (effects st) in
    let m := iters n attempt k in
    let out := loop n attempt st last_result in
    calls (effects (fst out)) = (k + m)%nat
    /\ history (fst out) = (history st ++ map entry_at (seq k m))%list
    /\ snd out = Returns match m with
                         | O => last_result
                         | S m' => Some (snd (entry_at (k + m')))
                         end.
Proof.
  intros Hq.
  induction n as [|n IH]; intros attempt st last_result Hpos Hrange; cbn zeta.
  - simpl. rewrite Nat.add_0_r, app_nil_r. auto.
  - destruct Hrange as [Hz|Hrange]; [discriminate|].
    cbn [attempt_loop iterations].
    destruct (attempt_body_quiet attempt st Hq ltac:(lia)) as (st' & Hb & Hc & Hh).
    rewrite Hb.
    destruct (control_of attempt (spawn w (calls (effects st)))).
    + cbn [fst snd seq map]. rewrite Hc, Hh, Nat.add_0_r.
      repeat split; auto; lia.
    + specialize (IH (attempt + 1) st'
                     (Some (result_of (spawn w (calls (effects st)))
                                      (elapsed w (calls (effects st)))))
                     ltac:(lia) ltac:(right; lia)).
      cbn zeta in IH. rewrite Hc in IH. destruct IH as (IHc & IHh & IHr).
      repeat split.
      * rewrite IHc. lia.
      * rewrite IHh, Hh. cbn [seq map]. rewrite <- app_assoc. reflexivity.
      * rewrite IHr. destruct (iters n (attempt + 1) (S (calls (effects st)))) as [|m'].
        -- rewrite Nat.add_0_r. reflexivity.
        -- replace (calls (effects st) + S m')%nat
             with (S (calls (effects st)) + m')%nat by lia.
           reflexivity.
Qed.

Lemma iterations_le n : forall attempt k, (iters n attempt k <= n)%nat.
Proof.
  induction n as [|n IH]; intros attempt k; cbn [iterations]; [lia|].
  destruct (control_of attempt (spawn w k)); [lia|].
  specialize (IH (attempt + 1) (S k)). lia.
Qed.

Lemma iterations_pos n attempt k : (0 < n)%nat -> (0 < iters n attempt k)%nat.
Proof.
  destruct n; [lia|]. intros _. cbn [iterations].
  destruct (control_of attempt (spawn w k)); lia.
Qed.

(** If every iteration before the last possible one goes on, the loop uses
    all its iterations. *)
Lemma iterations_exhaust n :
  forall attempt k,
    (forall i, (S i < n)%nat ->
               control_of (attempt + Z.of_nat i) (spawn w (k + i)) = Continue) ->
    iters n attempt k = n.
Proof.
  induction n as [|n IH]; intros attempt k Hall; cbn [iterations]; [reflexivity|].
  destruct n as [|n].
  - destruct (control_of attempt (spawn w k)); reflexivity.
  - pose proof (Hall O ltac:(lia)) as H0.
    rewrite Z.add_0_r, Nat.add_0_r in H0. rewrite H0. f_equal.
    apply IH. intros i Hi.
    replace (attempt + 1 + Z.of_nat i) with (attempt + Z.of_nat (S i)) by lia.
    replace (S k + i)%nat with (k + S i)%nat by lia.
    apply Hall. lia.
Qed.

(** A retryable failure lets the loop go on while budget remains. *)
Lemma retryable_failure_continue attempt oc :
  retryable_failure detector cfg cmd_string oc = true ->
  attempt < retries cfg ->
  control_of attempt oc = Continue.
Proof.
  intros Hr Hlt. unfold retry_if_budget, outcome_control, retryable_failure in *.
  assert (Hb : (attempt <? retries cfg) = true) by (apply Z.ltb_lt; exact Hlt).
  destruct oc as [rc out err| | |e]; unfold retry_if_budget; rewrite ?Hb; auto; try discriminate.
  destruct (detect_error_patterns detector _ rc cmd_string) as [info|e]; rewrite ?Hb; auto.
  apply andb_true_iff in Hr. destruct Hr as [Hr Hs].
  apply andb_true_iff in Hr. destruct Hr as [Hf Hrec].
  apply negb_true_iff in Hf. rewrite Hf, Hrec. simpl.
  destruct (retry_strategy cfg); [rewrite Hs|]; reflexivity.
Qed.

(** A retryable failure is a failure. *)
Lemma retryable_failure_fails oc t :
  retryable_failure detector cfg cmd_string oc = true ->
  success (result_of oc t) = false /\ result_recoverable (result_of oc t) = true.
Proof.
  unfold retryable_failure, outcome_result, result_recoverable.
  destruct oc as [rc out err| | |e]; simpl; auto; try discriminate.
  destruct (detect_error_patterns detector _ rc cmd_string) as [info|e]; simpl; auto.
  intros Hr.
  apply andb_true_iff in Hr. destruct Hr as [Hr Hs].
  apply andb_true_iff in Hr. destruct Hr as [Hf Hrec].
  apply negb_true_iff in Hf. auto.
Qed.

(** The result of an outcome is a success only for exit code 0, and then,
    when return codes are checked, without a detected error. *)
Lemma outcome_result_success oc t :
  success (result_of oc t) = true ->
  return_code (result_of oc t) = 0
  /\ (exists info, error_info (result_of oc t) = Some info)
  /\ (check_return_code cfg = true -> result_is_error (result_of oc t) = false).
Proof.
  unfold outcome_result, result_is_error.
  destruct oc as [rc out err| | |e]; simpl; try discriminate.
  destruct (detect_error_patterns detector _ rc cmd_string) as [info|e]; simpl;
    try discriminate.
  intros H. apply andb_true_iff in H. destruct H as [H0 H1].
  apply Z.eqb_eq in H0. split; [exact H0|]. split; [eauto|].
  intros Hck. rewrite Hck in H1. simpl in H1. apply negb_true_iff in H1. exact H1.
Qed.

End SubprocessLoop.


(* ================================================================== *)
(** * [execute_command] *)

Section ExecuteCommand.
Import ErrorHandling Os SubprocessClient.

Variable w : World.
Variable self : Client.
Variable command : command_arg.
Variable override_config : option CommandConfig.

Local Abbreviation cfg := (get override_config (config self)).
Local Abbreviation run := (execute_command w self command override_config).
Local Abbreviation entry_at :=
  (entry w (error_detector self) cfg (cmd_list_of command) (cmd_string_of command)).
Local Abbreviation executed :=
  (iterations w (error_detector self) cfg (cmd_string_of command)
     (Z.to_nat (retries cfg + 1)) 0 0).

(** What every call of [execute_command] satisfies. *)
Lemma execute_command_facts :
  exists ds,
    calls (effects (snd run)) = List.length (history (snd run))
    /\ Z.of_nat (List.length (history (snd run))) <= Z.max 0 (retries cfg + 1)
    /\ (0 <= retries cfg -> (0 < List.length (history (snd run)))%nat)
    /\ sleeps (effects (snd run)) = ds
    /\ List.length ds = pred (List.length (history (snd run)))
    /\ Forall (fun d => exists a j,
                   delay_value w cfg a j = Returns d /\ accepts w d = true) ds
    /\ (forall i oc r,
           nth_error (history (snd run)) i = Some (oc, r) ->
           oc = spawn w i
           /\ (stopping (error_detector self) cfg (cmd_string_of command) oc r ->
               S i = List.length (history (snd run)) /\ fst run = Returns r))
    /\ (forall r,
           fst run = Returns r ->
           match List.length (history (snd run)) with
           | O => r = no_execution_result (cmd_string_of command) /\ retries cfg < 0
           | S m' => r = snd (entry_at m')
                     /\ nth_error (history (snd run)) m' = Some (entry_at m')
           end)
    /\ (forall e,
           fst run = Raises e ->
           exists a j, 0 <= a < retries cfg /\ delay_accepted w cfg a j = false).
Proof.
  unfold execute_command, cmd_string_of.
  assert (Hrange : Z.to_nat (retries cfg + 1) = 0%nat
                   \/ 0 + Z.of_nat (Z.to_nat (retries cfg + 1)) = retries cfg + 1) by lia.
  pose proof (attempt_loop_facts w (error_detector self) cfg (cmd_list_of command)
                (PyStr.join " " (cmd_list_of command))
                (Z.to_nat (retries cfg + 1)) 0 start None ltac:(lia) Hrange) as H.
  cbn zeta in H.
  destruct (attempt_loop _ _ _ _ _ _ _ _ _) as [st last_result].
  cbn [fst snd] in *.
  destruct H as (new & ds & Fc & Fle & Fpos & Fh & Fs & Flen & Fall & Fnth & Fret & Fraise).
  cbn [start effects history no_effects calls sleeps app Nat.add] in *.
  rewrite Fh. exists ds.
  split; [exact Fc|]. split; [lia|]. split; [intros Hr; apply Fpos; lia|].
  split; [exact Fs|]. split; [exact Flen|]. split; [exact Fall|].
  split; [|split].
  - intros i oc r Hnth. destruct (Fnth i oc r Hnth) as [Hoc Hstop].
    split; [exact Hoc|]. intros Hs. destruct (Hstop Hs) as [Hi ->]. auto.
  - intros r Hret. destruct last_result as [last'|e]; [|discriminate].
    injection Hret as <-. specialize (Fret last' eq_refl).
    destruct (List.length new) as [|m'].
    + destruct Fret as [-> Hn]. split; [reflexivity|lia].
    + destruct Fret as [-> Hnth]. auto.
  - intros e Hraise. destruct last_result as [last'|e']; [discriminate|].
    destruct (Fraise e' eq_refl) as [_ Hex]. exact Hex.
Qed.

(** When every delay is accepted, [execute_command] runs [executed]
    processes, logs one result for each, and returns the last one, or the
    no-execution result if there is none. *)
Lemma execute_command_quiet :
  delays_accepted w cfg ->
  calls (effects (snd run)) = executed
  /\ history (snd run) = map entry_at (seq 0 executed)
  /\ fst run = Returns match executed with
                       | O => no_execution_result (cmd_string_of command)
                       | S m' => snd (entry_at m')
                       end.
Proof.
  intros Hq. unfold execute_command, cmd_string_of.
  assert (Hrange : Z.to_nat (retries cfg + 1) = 0%nat
                   \/ 0 + Z.of_nat (Z.to_nat (retries cfg + 1)) <= retries cfg + 1) by lia.
  pose proof (attempt_loop_quiet w (error_detector self) cfg (cmd_list_of command)
                (PyStr.join " " (cmd_list_of command))
                (Z.to_nat (retries cfg + 1)) Hq 0 start None ltac:(lia) Hrange) as H.
  cbn zeta in H. simpl (calls (effects start)) in H. simpl (history start) in H.
  destruct (attempt_loop _ _ _ _ _ _ _ _ _) as [st last_result].
  cbn [fst snd] in *. destruct H as (Hc & Hh & Hr).
  repeat split; auto.
  rewrite Hr. destruct (iterations _ _ _ _ _ _ _); reflexivity.
Qed.

Lemma executed_pos : 0 <= retries cfg -> (0 < executed)%nat.
Proof. intros H. apply iterations_pos. lia. Qed.

End ExecuteCommand.

(* ================================================================== *)
(** * Claims about [execute_command] *)

Section ExecuteCommandClaims.
Import ErrorHandling Os SubprocessClient.

(** C1 (amended).  A result returned by [execute_command] with [success]
    set has return code 0 and carries an [error_info]; when the
    configuration in force checks return codes, that [error_info] is not an
    error. *)
Theorem execute_command_success_invariant :
  forall (w : World) (self : Client) (command : command_arg)
         (override_config : option CommandConfig) (r : CommandResult),
    let cfg := get override_config (config self) in
    fst (execute_command w self command override_config) = Returns r ->
    success r = true ->
    return_code r = 0
    /\ (exists info, error_info r = Some info)
    /\ (check_return_code cfg = true -> result_is_error r = false).
Proof.
  intros w self command override_config r cfg Hret Hs.
  destruct (execute_command_facts w self command override_config)
    as (ds & _ & _ & _ & _ & _ & _ & _ & Fret & _).
  specialize (Fret r Hret).
  destruct (List.length _) as [|m'].
  - destruct Fret as [-> _]. discriminate.
  - destruct Fret as [-> _]. unfold entry in *. cbn [snd] in *.
    apply (outcome_result_success _ _ _ _ _ _ Hs).
Qed.

(** C1, as stated, fails when return codes are not checked: a process that
    exits with 0 and prints "request timeout" gives a result with [success]
    set whose [error_info] is the network error. *)
Lemma success_with_error_when_unchecked :
  exists r,
    fst (execute_command
           (Scenarios.always (Completed 0 "request timeout" ""))
           (new_client None) (CmdList ["curl"; "example.org"])
           (Some Scenarios.unchecked_config)) = Returns r
    /\ success r = true
    /\ return_code r = 0
    /\ result_is_error r = true
    /\ result_error_type r = "network-error".
Proof. eexists. split; [vm_compute; reflexivity|]. vm_compute. repeat split. Qed.

Lemma execute_command_success_invariant_witness :
  exists r,
    fst (execute_command (Scenarios.always (Completed 0 "hello world" ""))
           (new_client None) (CmdStr "echo hello world") None) = Returns r
    /\ return_code r = 0
    /\ (exists info, error_info r = Some info)
    /\ (check_return_code default_config = true -> result_is_error r = false).
Proof.
  eexists. split; [vm_compute; reflexivity|].
  apply (execute_command_success_invariant
           (Scenarios.always (Completed 0 "hello world" ""))
           (new_client None) (CmdStr "echo hello world") None).
  - vm_compute. reflexivity.
  - reflexivity.
Defined.

(** C3 (amended).  [execute_command] never returns [None]: what it returns
    is the no-execution result when the loop has no iteration, and
    otherwise the result of the last process it ran.  It returns, rather
    than raise, whenever every delay it can come to compute is computed
    without an exception and taken by [time.sleep]; then, with
    [retries = N >= 0] and a process that fails retryably on each of the
    attempts 0..N, exactly N+1 processes are run and the result returned is
    a failure. *)
Theorem execute_command_returns_and_exhausts_retries :
  forall (w : World) (self : Client) (command : command_arg)
         (override_config : option CommandConfig),
    let cfg := get override_config (config self) in
    let detector := error_detector self in
    let out := execute_command w self command override_config in
    (retries cfg < 0 ->
       fst out = Returns (no_execution_result (cmd_string_of command))
       /\ calls (effects (snd out)) = 0%nat)
    /\ (forall r,
           fst out = Returns r -> 0 <= retries cfg ->
           exists oc earlier, history (snd out) = (earlier ++ [(oc, r)])%list)
    /\ (delays_accepted w cfg -> exists r, fst out = Returns r)
    /\ (delays_accepted w cfg ->
        0 <= retries cfg ->
        (forall k, Z.of_nat k <= retries cfg ->
                   retryable_failure detector cfg (cmd_string_of command) (spawn w k) = true) ->
        exists r,
          fst out = Returns r
          /\ Z.of_nat (calls (effects (snd out))) = retries cfg + 1
          /\ success r = false).
Proof.
  intros w self command override_config cfg detector out.
  split; [|split; [|split]].
  - intros Hneg. unfold out, execute_command. fold cfg.
    replace (Z.to_nat (retries cfg + 1)) with 0%nat by lia.
    split; reflexivity.
  - intros r Hret Hpos.
    destruct (execute_command_facts w self command override_config)
      as (ds & _ & _ & Fpos & _ & _ & _ & _ & Fret & _).
    fold out cfg in Fpos, Fret. specialize (Fret r Hret). specialize (Fpos Hpos).
    destruct (List.length (history (snd out))) as [|m'] eqn:Hlen; [lia|].
    destruct Fret as [Hr Hnth].
    destruct (nth_error_split _ _ Hnth) as (earlier & later & Hh & Hm).
    assert (Hl : later = []).
    { apply length_zero_iff_nil.
      rewrite Hh, length_app in Hlen. cbn [List.length] in Hlen. lia. }
    subst later. exists (spawn w m'), earlier. rewrite Hh, Hr. reflexivity.
  - intros Hq.
    destruct (execute_command_quiet w self command override_config Hq) as (_ & _ & Hr).
    eexists. exact Hr.
  - intros Hq Hpos Hall.
    destruct (execute_command_quiet w self command override_config Hq) as (Hc & _ & Hr).
    fold out cfg detector in Hc, Hr.
    assert (Hn : iterations w detector cfg (cmd_string_of command)
                   (Z.to_nat (retries cfg + 1)) 0 0 = Z.to_nat (retries cfg + 1)).
    { apply iterations_exhaust. intros i Hi. simpl.
      apply retryable_failure_continue; [apply Hall|]; lia. }
    rewrite Hn in *.
    replace (Z.to_nat (retries cfg + 1)) with (S (Z.to_nat (retries cfg))) in Hr by lia.
    eexists. split; [exact Hr|]. split; [lia|].
    unfold entry. cbn [snd].
    apply retryable_failure_fails. apply Hall. lia.
Qed.

Lemma execute_command_returns_and_exhausts_retries_witness :
  let out := execute_command (Scenarios.always (Completed 1 "" "persistent error"))
               (new_client (Some Scenarios.two_retries)) (CmdList ["cmd"]) None in
  exists r,
    fst out = Returns r
    /\ Z.of_nat (calls (effects (snd out))) = 2 + 1
    /\ success r = false.
Proof.
  apply (execute_command_returns_and_exhausts_retries
           (Scenarios.always (Completed 1 "" "persistent error"))
           (new_client (Some Scenarios.two_retries)) (CmdList ["cmd"]) None).
  - intros a j _. reflexivity.
  - simpl. lia.
  - intros k _. vm_compute. reflexivity.
Defined.

(** C3, as stated, fails for a negative [retry_delay]: the process fails
    retryably on every attempt and two retries are configured, yet
    [time.sleep(-1.0)], which stands before the [try], raises [ValueError]
    after the first process, so that nothing is returned and one process
    is run instead of three. *)
Lemma negative_retry_delay_raises :
  let w := Scenarios.always (Completed 1 "" "persistent error") in
  let self := new_client (Some Scenarios.negative_retry_delay) in
  let out := execute_command w self (CmdList ["cmd"]) None in
  retries (config self) = 2
  /\ (forall k, retryable_failure (error_detector self) (config self) "cmd" (spawn w k) = true)
  /\ fst out = Raises "sleep length must be non-negative"
  /\ calls (effects (snd out)) = 1%nat.
Proof. repeat split. Qed.

(** C5.  When the first [subprocess.run] raises [FileNotFoundError], the
    result has return code 127, error type "command-not-found" and is not
    recoverable, and one process was run, whatever [retries] allows. *)
Theorem command_not_found_is_not_retried :
  forall (w : World) (self : Client) (command : command_arg)
         (override_config : option CommandConfig),
    let cfg := get override_config (config self) in
    let out := execute_command w self command override_config in
    let r := not_found_result (cmd_list_of command) (cmd_string_of command) (elapsed w 0) in
    spawn w 0 = FileNotFoundError ->
    0 <= retries cfg ->
    fst out = Returns r
    /\ success r = false
    /\ return_code r = 127
    /\ result_error_type r = "command-not-found"
    /\ result_recoverable r = false
    /\ calls (effects (snd out)) = 1%nat.
Proof.
  intros w self command override_config cfg out r Hnf Hpos.
  unfold out, execute_command. fold cfg.
  replace (Z.to_nat (retries cfg + 1)) with (S (Z.to_nat (retries cfg))) by lia.
  cbn [attempt_loop]. unfold attempt_body, wait_before.
  cbn [Z.ltb Z.compare start effects no_effects calls lift ran].
  rewrite Hnf. cbn. repeat split.
Qed.

Lemma command_not_found_is_not_retried_witness :
  let out := execute_command (Scenarios.always FileNotFoundError)
               (new_client (Some Scenarios.three_retries)) (CmdList ["nonexistent"]) None in
  let r := not_found_result ["nonexistent"] "nonexistent" 0 in
  fst out = Returns r
  /\ success r = false
  /\ return_code r = 127
  /\ result_error_type r = "command-not-found"
  /\ result_recoverable r = false
  /\ calls (effects (snd out)) = 1%nat.
Proof.
  apply (command_not_found_is_not_retried (Scenarios.always FileNotFoundError)
           (new_client (Some Scenarios.three_retries)) (CmdList ["nonexistent"]) None).
  - reflexivity.
  - simpl. lia.
Defined.

End ExecuteCommandClaims.

Section RetryLoopClaims.
Import ErrorHandling Os SubprocessClient.




End RetryLoopClaims.


(* ================================================================== *)
(** * Error classification *)

Section Classification.
Import ErrorHandling Os SubprocessClient.

Lemma find_app_first {A} (f : A -> bool) (l1 l2 : list A) :
  find f (l1 ++ l2) = match find f l1 with Some x => Some x | None => find f l2 end.
Proof.
  induction l1 as [|a l1 IH]; simpl; [reflexivity|].
  destruct (f a); [reflexivity|exact IH].
Qed.

(** The first pattern set that matches, custom ones first, decides. *)
Lemma detect_error_patterns_first_match d output return_code command ps :
  find (_matches_pattern_set output) (_custom_patterns d ++ _pattern_sets d) = Some ps ->
  detect_error_patterns d output return_code command = Returns (info_of_set ps).
Proof.
  rewrite find_app_first. unfold detect_error_patterns.
  destruct (find _ (_custom_patterns d)) as [ps'|].
  - intros H. injection H as ->. reflexivity.
  - intros H. rewrite H. reflexivity.
Qed.

Lemma some_match_first_match d output ps :
  In ps (_custom_patterns d ++ _pattern_sets d) ->
  _matches_pattern_set output ps = true ->
  exists first,
    find (_matches_pattern_set output) (_custom_patterns d ++ _pattern_sets d) = Some first.
Proof.
  intros Hin Hm.
  destruct (find _ (_custom_patterns d ++ _pattern_sets d)) as [first|] eqn:Hf.
  - eauto.
  - pose proof (find_none _ _ Hf ps Hin) as H. congruence.
Qed.

(** C10.  A return code of 0 does not keep [detect_error_patterns] from
    reporting an error: "request timeout" and "connection refused" with
    return code 0 are network errors; in general, whenever some custom or
    built-in pattern set matches the output, the classification is an error,
    that of the first matching set, for every return code; and a process
    that exits with 0 on every attempt with such an output makes every
    result [execute_command] returns a failure with return code 0 when
    return codes are checked; it does return one whenever every delay is
    accepted. *)
Theorem zero_exit_with_error_pattern_is_failure :
  (forall timeout,
      detect_error_patterns (new_detector timeout) "request timeout" 0 "curl"
      = Returns (mkErrorInfo "network-error" true "Network connectivity issue"
                   "Check network connectivity and endpoint configuration" true)
      /\ detect_error_patterns (new_detector timeout) "connection refused" 0 "curl"
         = Returns (mkErrorInfo "network-error" true "Network connectivity issue"
                      "Check network connectivity and endpoint configuration" true))
  /\ (forall d output return_code command ps,
         In ps (_custom_patterns d ++ _pattern_sets d) ->
         _matches_pattern_set output ps = true ->
         exists first,
           find (_matches_pattern_set output) (_custom_patterns d ++ _pattern_sets d)
           = Some first
           /\ detect_error_patterns d output return_code command
              = Returns (mkErrorInfo (ps_error_type first) true (ps_message first)
                           (ps_suggestion first) (ps_recoverable first)))
  /\ (forall (w : World) (self : Client) (command : command_arg)
             (override_config : option CommandConfig),
         let cfg := get override_config (config self) in
         let d := error_detector self in
         let out := execute_command w self command override_config in
         check_return_code cfg = true ->
         0 <= retries cfg ->
         (forall k, exists stdout stderr ps,
               spawn w k = Completed 0 stdout stderr
               /\ In ps (_custom_patterns d ++ _pattern_sets d)
               /\ _matches_pattern_set (combined cfg stdout stderr) ps = true) ->
         (forall r, fst out = Returns r ->
                    success r = false /\ return_code r = 0 /\ result_is_error r = true)
         /\ (delays_accepted w cfg -> exists r, fst out = Returns r)).
Proof.
  split; [|split].
  - intros timeout. split; reflexivity.
  - intros d output return_code command ps Hin Hm.
    destruct (some_match_first_match d output ps Hin Hm) as [first Hf].
    exists first. split; [exact Hf|].
    apply (detect_error_patterns_first_match d output return_code command first Hf).
  - intros w self command override_config cfg d out Hck Hpos Hall.
    split.
    + intros r Hret.
      destruct (execute_command_facts w self command override_config)
        as (ds & _ & _ & _ & _ & _ & _ & _ & Fret & _).
      fold out cfg d in Fret. specialize (Fret r Hret).
      destruct (List.length (history (snd out))) as [|m']; [lia|].
      destruct Fret as [-> _]. unfold entry. cbn [snd].
      destruct (Hall m') as (stdout & stderr & ps & Hoc & Hin & Hmatch).
      rewrite Hoc. unfold outcome_result.
      destruct (some_match_first_match d _ ps Hin Hmatch) as [first Hf].
      rewrite (detect_error_patterns_first_match d _ 0 (cmd_string_of command) first Hf).
      unfold result_is_error. simpl. rewrite Hck. auto.
    + intros Hq.
      destruct (execute_command_quiet w self command override_config Hq) as (_ & _ & Hr).
      eexists. exact Hr.
Qed.

Lemma zero_exit_with_error_pattern_is_failure_witness :
  exists r,
    fst (execute_command (Scenarios.always (Completed 0 "request timeout" ""))
           (new_client None) (CmdList ["curl"; "example.org"]) None) = Returns r
    /\ success r = false /\ return_code r = 0 /\ result_is_error r = true.
Proof.
  destruct (proj2 (proj2 zero_exit_with_error_pattern_is_failure)
              (Scenarios.always (Completed 0 "request timeout" ""))
              (new_client None) (CmdList ["curl"; "example.org"]) None) as [Hall _].
  - reflexivity.
  - simpl. lia.
  - intros k. exists "request timeout", "".
    exists (nth 2 _get_default_patterns (mkErrorPatternSet "" [] "" "" "" true)).
    split; [reflexivity|]. split; [|vm_compute; reflexivity].
    simpl. auto.
  - eexists. split; [vm_compute; reflexivity|].
    apply Hall. vm_compute. reflexivity.
Defined.

End Classification.


(* ================================================================== *)
(** * Backoff delays and the rate-limit retry wrappers *)

Section Backoff.
Import Os.





Lemma Qpositive_true (j : Q) : SubprocessClient.Qpositive j = true -> (0 < j)%Q.
Proof.
  unfold SubprocessClient.Qpositive. intros H. apply negb_true_iff in H.
  apply Qnot_le_lt. intros Hle. apply Qle_bool_iff in Hle. congruence.
Qed.

(** A jittered delay stays within [c * (1 - j), c * (1 + j)] of its base. *)
Lemma jittered_bounds (b c j u : Q) :
  (b == c -> 0 <= c -> 0 <= j -> 0 <= u -> u <= 1 ->
   c * (1 - j) <= b + SubprocessClient.uniform (- (b * j)) (b * j) u
   /\ b + SubprocessClient.uniform (- (b * j)) (b * j) u <= c * (1 + j))%Q.
Proof.
  intros Hbc Hc Hj Hu0 Hu1. unfold SubprocessClient.uniform.
  assert (Hcj : (0 <= c * j)%Q) by (apply Qmult_le_0_compat; assumption).
  assert (H1 : (0 <= (c * j) * u)%Q) by (apply Qmult_le_0_compat; assumption).
  assert (H2 : (0 <= (c * j) * (1 - u))%Q) by (apply Qmult_le_0_compat; [assumption|lra]).
  assert (E1 : (b * j == c * j)%Q) by (rewrite Hbc; reflexivity).
  assert (E2 : ((b * j - - (b * j)) * u == 2 * ((c * j) * u))%Q).
  { rewrite Hbc. ring. }
  split; lra.
Qed.

(** While the cap is not reached and the jitter is at most a third, the
    delay before the second retry is at least the delay before the first. *)
Lemma calculate_delay_growth (cfg : GHClient.GHClientConfig) (u1 u2 d1 d2 : Q) :
  (0 <= GHClient.initial_delay cfg)%Q ->
  (2 * GHClient.initial_delay cfg <= GHClient.max_delay cfg)%Q ->
  (GHClient.jitter cfg <= 1 # 3)%Q ->
  (0 <= u1)%Q -> (u1 <= 1)%Q -> (0 <= u2)%Q -> (u2 <= 1)%Q ->
  GHClient._calculate_delay cfg 0 u1 = Returns d1 ->
  GHClient._calculate_delay cfg 1 u2 = Returns d2 ->
  (d1 <= d2)%Q.
Proof.
  destruct cfg as [mr i M j v]. simpl.
  intros Hi HM Hj Hu1 Hu1' Hu2 Hu2'.
  unfold GHClient._calculate_delay, SubprocessClient.scaled. simpl.
  assert (Hb0 : (Qmin (i * 1) M == i)%Q).
  { rewrite Q.min_l; lra. }
  assert (Hb1 : (Qmin (i * 2) M == 2 * i)%Q).
  { rewrite Q.min_l; lra. }
  change (2 ^ 0)%Q with 1%Q. change (2 ^ 1)%Q with 2%Q.
  destruct (SubprocessClient.Qpositive j) eqn:Hp; intros H1 H2;
    injection H1 as <-; injection H2 as <-.
  - apply Qpositive_true in Hp.
    set (b0 := Qmin (i * 1) M) in *. set (b1 := Qmin (i * 2) M) in *.
    destruct (jittered_bounds b0 i j u1 Hb0) as [_ Hup]; try lra.
    destruct (jittered_bounds b1 (2 * i)%Q j u2 Hb1) as [Hlo _]; try lra.
    apply Q.max_le_compat_l.
    assert (H3 : (0 <= i * (1 - 3 * j))%Q) by (apply Qmult_le_0_compat; lra).
    lra.
  - rewrite Hb0, Hb1. lra.
Qed.

(** Rate-limit text on the standard error is rate-limit text, whether or
    not the standard output is inspected too. *)
Lemma fails_rate_limited_rate_limited check_stdout oc :
  fails_rate_limited oc = true -> rate_limited check_stdout oc = true.
Proof.
  unfold fails_rate_limited, rate_limited. destruct oc; try discriminate.
  intros H. apply andb_true_iff in H. destruct H as [-> ->]. reflexivity.
Qed.

Section GHClientBody.
Variable w : World.
Variable timestamp : string.
Variable cfg : GHClient.GHClientConfig.
Variable retries : Z.
Variable label : string.
Variable check_stdout_for_rate_limit : bool.
Variable return_stdout_on_error : bool.
Variable rate_limit_exhausted_output : string.

Local Abbreviation body :=
  (GHClient.attempt_body w timestamp cfg retries label check_stdout_for_rate_limit
     return_stdout_on_error rate_limit_exhausted_output).

(** What the body tests to tell a rate limit is [rate_limited]. *)
Lemma rate_limited_test rc out err :
  (rc =? 0) = false ->
  (if check_stdout_for_rate_limit
   then PyStr.contains "rate limit" (PyStr.lower (PyStr.strip err))
        || PyStr.contains "rate_limit" (PyStr.lower (PyStr.strip out))
   else PyStr.contains "rate limit" (PyStr.lower (PyStr.strip err)))
  = rate_limited check_stdout_for_rate_limit (Completed rc out err).
Proof.
  intros Hrc. unfold rate_limited. rewrite Hrc. cbn [negb andb].
  destruct check_stdout_for_rate_limit; cbn [andb]; [reflexivity|].
  rewrite orb_false_r. reflexivity.
Qed.

Lemma gh_client_body_rate_limited attempt total_wait fx d :
  rate_limited check_stdout_for_rate_limit (spawn w (calls fx)) = true ->
  attempt < retries - 1 ->
  GHClient._calculate_delay cfg attempt (random_draw w (draws fx)) = Returns d ->
  accepts w d = true ->
  body attempt total_wait fx
  = (GHClient.Next (total_wait + d)%Q, slept d (drew (ran fx))).
Proof.
  intros Hrl Hlt Hd Ha. unfold GHClient.attempt_body.
  destruct (spawn w (calls fx)) as [rc out err| | |e]; try discriminate.
  assert (Hrc : (rc =? 0) = false).
  { unfold rate_limited in Hrl. apply andb_true_iff in Hrl.
    destruct Hrl as [Hrc _]. apply negb_true_iff in Hrc. exact Hrc. }
  rewrite Hrc, (rate_limited_test rc out err Hrc), Hrl.
  apply Z.ltb_lt in Hlt. rewrite Hlt.
  change (draws (ran fx)) with (draws fx). rewrite Hd.
  destruct (sleep_cases w d (drew (ran fx))) as [[_ Hs]|[Hn _]]; [|congruence].
  rewrite Hs. reflexivity.
Qed.

Lemma gh_client_body_success attempt total_wait fx out :
  succeeds_with (spawn w (calls fx)) = Some out ->
  body attempt total_wait fx = (GHClient.Done (Returns (true, out)), ran fx).
Proof.
  unfold GHClient.attempt_body, succeeds_with.
  destruct (spawn w (calls fx)) as [rc o e| | |e]; try discriminate.
  destruct (rc =? 0); [|discriminate].
  intros H. injection H as <-. reflexivity.
Qed.

End GHClientBody.

(** [time.sleep] takes every delay [run_gh_command] computes. *)
Lemma run_gh_delay_accepted (w : World) (attempt : Z) :
  accepts w (inject_Z (Z.min (2 ^ (attempt + 1)) 300)) = true.
Proof.
  unfold accepts.
  assert (H0 : 0 <= Z.min (2 ^ (attempt + 1)) 300).
  { apply Z.min_glb; [|lia]. apply Z.pow_nonneg. lia. }
  assert (H1 : Z.min (2 ^ (attempt + 1)) 300 <= 1000000) by lia.
  apply andb_true_iff. split.
  - apply Qle_bool_iff. change 0%Q with (inject_Z 0). rewrite <- Zle_Qle. exact H0.
  - apply orb_true_iff. left. apply Qle_bool_iff.
    change SLEEP_SAFE with (inject_Z 1000000). rewrite <- Zle_Qle. exact H1.
Qed.

Section RunGhBody.
Variable w : World.
Variable max_retries : Z.

Lemma run_gh_body_rate_limited attempt total_wait fx :
  fails_rate_limited (spawn w (calls fx)) = true ->
  attempt < max_retries - 1 ->
  PrQualityCheck.attempt_body w max_retries attempt total_wait fx
  = (PrQualityCheck.Next (total_wait + Z.min (2 ^ (attempt + 1)) 300),
     slept (inject_Z (Z.min (2 ^ (attempt + 1)) 300)) (ran fx)).
Proof.
  intros Hrl Hlt. unfold PrQualityCheck.attempt_body, fails_rate_limited in *.
  destruct (spawn w (calls fx)) as [rc out err| | |e]; try discriminate.
  apply andb_true_iff in Hrl. destruct Hrl as [Hrc Hc].
  apply negb_true_iff in Hrc. rewrite Hrc, Hc.
  apply Z.ltb_lt in Hlt. rewrite Hlt.
  unfold PrQualityCheck.max_wait_per_retry.
  destruct (sleep_cases w (inject_Z (Z.min (2 ^ (attempt + 1)) 300)) (ran fx))
    as [[_ Hs]|[Hn _]]; [|rewrite run_gh_delay_accepted in Hn; discriminate].
  rewrite Hs. reflexivity.
Qed.

Lemma run_gh_body_success attempt total_wait fx out :
  succeeds_with (spawn w (calls fx)) = Some out ->
  PrQualityCheck.attempt_body w max_retries attempt total_wait fx
  = (PrQualityCheck.Done (Returns (true, out)), ran fx).
Proof.
  unfold PrQualityCheck.attempt_body, succeeds_with.
  destruct (spawn w (calls fx)) as [rc o e| | |e]; try discriminate.
  destruct (rc =? 0); [|discriminate].
  intros H. injection H as <-. reflexivity.
Qed.

End RunGhBody.

(** C7 (amended).  When the command fails with rate-limit text on its first
    two invocations and succeeds on the third, and the retry ceiling admits
    a third invocation, both wrappers run exactly three processes and sleep
    exactly twice; for [GHClient._retry_with_backoff] this needs
    [time.sleep] to take the two delays, which are the jittered delays of
    attempts 0 and 1.  The second of them is at least the first for every
    pair of random draws in [0, 1], provided the initial delay is not
    negative, its double is within the cap and the jitter is at most a
    third (the default 2 s, 300 s, 10 % among them); for [run_gh_command]
    the delays are 2 and 4 seconds. *)
Theorem rate_limited_twice_then_success :
  (forall (w : World) (timestamp : string) (cfg : GHClient.GHClientConfig)
          (cmd : list string) (max_retries_arg : option Z) (label : string)
          (check_stdout_for_rate_limit return_stdout_on_error : bool)
          (rate_limit_exhausted_output : string) (out : string) (d1 d2 : Q),
      let retries := SubprocessClient.get max_retries_arg (GHClient.max_retries cfg) in
      3 <= retries ->
      fails_rate_limited (spawn w 0) = true ->
      fails_rate_limited (spawn w 1) = true ->
      succeeds_with (spawn w 2) = Some out ->
      GHClient._calculate_delay cfg 0 (random_draw w 0) = Returns d1 ->
      GHClient._calculate_delay cfg 1 (random_draw w 1) = Returns d2 ->
      accepts w d1 = true ->
      accepts w d2 = true ->
      GHClient._retry_with_backoff w timestamp cfg cmd max_retries_arg label
        check_stdout_for_rate_limit return_stdout_on_error rate_limit_exhausted_output
      = (Returns (true, out), mkEffects 3 [d1; d2] 2)
      /\ ((0 <= GHClient.initial_delay cfg)%Q ->
          (2 * GHClient.initial_delay cfg <= GHClient.max_delay cfg)%Q ->
          (GHClient.jitter cfg <= 1 # 3)%Q ->
          (0 <= random_draw w 0 <= 1)%Q ->
          (0 <= random_draw w 1 <= 1)%Q ->
          (d1 <= d2)%Q))
  /\ (forall (w : World) (args : list string) (max_retries : Z) (out : string),
         3 <= max_retries ->
         fails_rate_limited (spawn w 0) = true ->
         fails_rate_limited (spawn w 1) = true ->
         succeeds_with (spawn w 2) = Some out ->
         PrQualityCheck.run_gh_command w args max_retries
         = (Returns (true, out), mkEffects 3 [2%Q; 4%Q] 0)
         /\ (2 <= 4)%Q).
Proof.
  split.
  - intros w timestamp cfg cmd max_retries_arg label cs rs rx out d1 d2 retries
           Hceil H0 H1 H2 Hd1 Hd2 Ha1 Ha2.
    split.
    + unfold GHClient._retry_with_backoff. fold retries.
      destruct (Z.to_nat retries) as [|[|[|n]]] eqn:Hn; try lia.
      cbn [GHClient.attempt_loop].
      rewrite (gh_client_body_rate_limited w timestamp cfg retries label cs rs rx
                 0 0%Q no_effects d1)
        by (auto using fails_rate_limited_rate_limited; lia).
      rewrite (gh_client_body_rate_limited w timestamp cfg retries label cs rs rx
                 (0 + 1) _ _ d2)
        by (auto using fails_rate_limited_rate_limited; lia).
      rewrite gh_client_body_success with (out := out) by (simpl; auto).
      reflexivity.
    + intros Hi HM Hj [Hu1 Hu1'] [Hu2 Hu2'].
      apply (calculate_delay_growth cfg (random_draw w 0) (random_draw w 1)); assumption.
  - intros w args max_retries out Hceil H0 H1 H2.
    split; [|discriminate].
    unfold PrQualityCheck.run_gh_command.
    destruct (Z.to_nat max_retries) as [|[|[|n]]] eqn:Hn; try lia.
    cbn [PrQualityCheck.attempt_loop].
    rewrite run_gh_body_rate_limited by (simpl; auto; lia).
    rewrite run_gh_body_rate_limited by (simpl; auto; lia).
    rewrite run_gh_body_success with (out := out) by (simpl; auto).
    reflexivity.
Qed.

Lemma rate_limited_twice_then_success_witness :
  let w := Scenarios.scripted
             [Completed 1 "" "API rate limit exceeded"; Completed 1 "" "API rate limit exceeded"]
             (Completed 0 "success" "") in
  exists d1 d2,
    GHClient.run_command w "2026-01-01 00:00:00" GHClient.default_config ["repo"; "list"] None
    = (Returns (true, "success"), mkEffects 3 [d1; d2] 2)
    /\ (d1 <= d2)%Q.
Proof.
  intros w.
  assert (Hd1 : exists d, GHClient._calculate_delay GHClient.default_config 0
                            (random_draw w 0) = Returns d)
    by (eexists; vm_compute; reflexivity).
  assert (Hd2 : exists d, GHClient._calculate_delay GHClient.default_config 1
                            (random_draw w 1) = Returns d)
    by (eexists; vm_compute; reflexivity).
  destruct Hd1 as [d1 Hd1]. destruct Hd2 as [d2 Hd2].
  exists d1, d2.
  injection Hd1 as <-. injection Hd2 as <-.
  destruct (proj1 rate_limited_twice_then_success w
              "2026-01-01 00:00:00" GHClient.default_config ("gh" :: ["repo"; "list"])
              None "" false false "" "success" _ _
              ltac:(vm_compute; discriminate) eq_refl eq_refl eq_refl eq_refl eq_refl
              eq_refl eq_refl) as [Hrun Horder].
  split; [exact Hrun|].
  apply Horder; vm_compute; intuition discriminate.
Defined.

(** C7, as stated, fails for a large jitter: with a jitter of one half, an
    initial delay of 2 seconds and the draws 0.75 and 0, the first sleep
    lasts 2.5 seconds and the second 2 seconds. *)
Lemma jitter_can_reverse_the_delays :
  let w := Scenarios.scripted_draws
             [Completed 1 "" "API rate limit exceeded"; Completed 1 "" "API rate limit exceeded"]
             (Completed 0 "success" "") [(3 # 4)%Q; 0%Q] in
  let cfg := GHClient.mkGHClientConfig 25 2 300 (1 # 2) false in
  exists d1 d2,
    GHClient.run_command w "2026-01-01 00:00:00" cfg ["repo"; "list"] None
    = (Returns (true, "success"), mkEffects 3 [d1; d2] 2)
    /\ (d1 == 5 # 2)%Q /\ (d2 == 2)%Q /\ (d2 < d1)%Q.
Proof.
  do 2 eexists. split; [vm_compute; reflexivity|].
  vm_compute. repeat split; congruence.
Qed.

End Backoff.

(* ================================================================== *)
(** * CI status resolution *)

Section CIStatus.
Import PrQualityCheck.

Variable gh : list string -> bool * string.
Variable json_loads_pr : string -> option PrData.
Variable json_loads_check : string -> option Check.

Local Abbreviation resolve := (resolve_check_runs gh json_loads_check).
Local Abbreviation observed := (observed_checks json_loads_check).

(** The resolver answers "unknown" unless it gets to read the check-runs
    reply, and otherwise resolves that reply. *)
Lemma check_post_merge_ci_status_traced_reply repo pr_number :
  check_post_merge_ci_status_traced gh json_loads_pr json_loads_check repo pr_number
  = match check_runs_reply gh json_loads_pr repo pr_number with
    | Some output => resolve repo output
    | None => (ci_status_only "unknown", [])
    end.
Proof.
  unfold check_post_merge_ci_status_traced, check_runs_reply.
  destruct (gh _) as [success output]. destruct success; simpl; [|reflexivity].
  destruct (json_loads_pr output) as [pr_data|]; [|reflexivity].
  destruct (mergeCommit pr_data) as [merge_commit|]; [|reflexivity].
  destruct (oid merge_commit) as [commit_sha|]; [|reflexivity].
  destruct (gh _) as [success' output']. destruct success'; reflexivity.
Qed.

(** Scanning the lines is scanning the check-runs they hold. *)
Lemma scan_lines_checks lines :
  forall s,
    fold_left (scan_line json_loads_check) lines s
    = fold_left scan_check
        (flat_map
           (fun line =>
              if PyStr.nonempty line then
                match json_loads_check line with Some check => [check] | None => [] end
              else [])
           lines) s.
Proof.
  induction lines as [|line lines IH]; intros s; [reflexivity|].
  cbn [fold_left flat_map]. rewrite fold_left_app, IH. f_equal.
  unfold scan_line. destruct (PyStr.nonempty line); simpl; [|reflexivity].
  destruct (json_loads_check line); reflexivity.
Qed.

(** What one check-run does to the flags the status depends on. *)
Lemma scan_check_flags s check :
  sc_has_checks (scan_check s check) = true
  /\ sc_has_pending (scan_check s check) = sc_has_pending s || is_pending check
  /\ truthy (sc_failed_checks (scan_check s check))
     = truthy (sc_failed_checks s) || is_failed check.
Proof.
  unfold scan_check, is_pending, is_failed.
  destruct (note_evidence _ _ _ _ _ _) as [[[hb ht] be] te].
  destruct (opt_str_eqb (ck_status check) "completed");
    destruct (str_in (get (conclusion check) "") FAILED_CONCLUSIONS);
    cbn [negb andb sc_has_checks sc_has_pending sc_failed_checks];
    rewrite ?orb_false_r, ?orb_true_r; repeat split.
  destruct (sc_failed_checks s); reflexivity.
Qed.

Lemma scan_checks_flags checks :
  forall s,
    let s' := fold_left scan_check checks s in
    sc_has_checks s' = sc_has_checks s || truthy checks
    /\ sc_has_pending s' = sc_has_pending s || existsb is_pending checks
    /\ truthy (sc_failed_checks s')
       = truthy (sc_failed_checks s) || existsb is_failed checks.
Proof.
  induction checks as [|check checks IH]; intros s; cbn zeta.
  - simpl. now rewrite !orb_false_r.
  - cbn [fold_left existsb truthy].
    destruct (IH (scan_check s check)) as (H1 & H2 & H3).
    destruct (scan_check_flags s check) as (F1 & F2 & F3).
    rewrite H1, H2, H3, F1, F2, F3.
    repeat split.
    + now rewrite orb_true_r.
    + now rewrite orb_assoc.
    + now rewrite orb_assoc.
Qed.

(** The status of a resolved reply: no check-run, else a pending one, else
    a failed one, else success. *)
Lemma resolve_check_runs_status repo output :
  status (fst (resolve repo output))
  = if negb (truthy (observed output)) then "no_ci"
    else if existsb is_pending (observed output) then "pending"
    else if existsb is_failed (observed output) then "failure"
    else "success".
Proof.
  unfold resolve_check_runs, observed_checks.
  rewrite scan_lines_checks.
  set (checks := flat_map _ _).
  destruct (scan_checks_flags checks scan_start) as (H1 & H2 & H3).
  cbn zeta in *. simpl (sc_has_checks scan_start) in H1.
  simpl (sc_has_pending scan_start) in H2.
  simpl (truthy (sc_failed_checks scan_start)) in H3.
  rewrite orb_false_l in H1, H2, H3.
  set (s := fold_left scan_check checks scan_start) in *.
  rewrite H1. destruct (truthy checks); simpl; [|reflexivity].
  destruct (if (negb (sc_has_build_check s) || negb (sc_has_test_check s))
               && truthy (sc_job_ids s) then _ else _)
    as [[[[hb ht] be] te] fetched].
  rewrite H2. destruct (existsb is_pending checks); simpl; [reflexivity|].
  rewrite H3. destruct (existsb is_failed checks); reflexivity.
Qed.

(** A "pending" verdict lists no failed check, whatever was collected. *)
Lemma resolve_check_runs_pending repo output :
  status (fst (resolve repo output)) = "pending" ->
  failed_checks (fst (resolve repo output)) = []
  /\ failed_check_urls (fst (resolve repo output)) = [].
Proof.
  unfold resolve_check_runs.
  set (s := fold_left _ _ scan_start).
  destruct (sc_has_checks s); simpl; [|discriminate].
  destruct (if (negb (sc_has_build_check s) || negb (sc_has_test_check s))
               && truthy (sc_job_ids s) then _ else _)
    as [[[[hb ht] be] te] fetched].
  destruct (sc_has_pending s); simpl; [auto|].
  destruct (truthy (sc_failed_checks s)); simpl; [discriminate|auto].
Qed.

End CIStatus.

Section CIClaims.
Import PrQualityCheck.

(** C2.  When the check-runs reply holds a check-run whose status is not
    "completed", the status is "pending", also next to a completed check-run
    with a failing conclusion; for a reply with at least one check-run the
    status is "pending" if some check-run is pending, else "failure" if some
    check-run failed, else "success". *)
Theorem ci_status_priority :
  forall (gh : list string -> bool * string)
         (json_loads_pr : string -> option PrData)
         (json_loads_check : string -> option Check)
         (repo : string) (pr_number : Z) (output : string),
    let checks := observed_checks json_loads_check output in
    let r := check_post_merge_ci_status gh json_loads_pr json_loads_check repo pr_number in
    check_runs_reply gh json_loads_pr repo pr_number = Some output ->
    (forall check, In check checks -> is_pending check = true -> status r = "pending")
    /\ (checks <> [] ->
        status r = if existsb is_pending checks then "pending"
                   else if existsb is_failed checks then "failure"
                   else "success").
Proof.
  intros gh jpr jck repo pr_number output checks r Hreply.
  assert (Hs : status r
               = if negb (truthy checks) then "no_ci"
                 else if existsb is_pending checks then "pending"
                 else if existsb is_failed checks then "failure"
                 else "success").
  { unfold r, check_post_merge_ci_status.
    rewrite check_post_merge_ci_status_traced_reply, Hreply.
    apply resolve_check_runs_status. }
  split.
  - intros check Hin Hp. rewrite Hs.
    assert (He : existsb is_pending checks = true)
      by (apply existsb_exists; exists check; auto).
    rewrite He. destruct checks; [contradiction|reflexivity].
  - intros Hne. rewrite Hs. destruct checks; [congruence|reflexivity].
Qed.

Lemma ci_status_priority_witness :
  let gh := CiScenarios.gh_replies CiScenarios.failed_then_pending in
  let checks := observed_checks CiScenarios.json_check CiScenarios.failed_then_pending in
  let r := check_post_merge_ci_status gh CiScenarios.json_pr CiScenarios.json_check
             "test/repo" 123 in
  (forall check, In check checks -> is_pending check = true -> status r = "pending")
  /\ (checks <> [] ->
      status r = if existsb is_pending checks then "pending"
                 else if existsb is_failed checks then "failure"
                 else "success").
Proof.
  apply (ci_status_priority (CiScenarios.gh_replies CiScenarios.failed_then_pending)
           CiScenarios.json_pr CiScenarios.json_check "test/repo" 123
           CiScenarios.failed_then_pending).
  reflexivity.
Defined.

(** C4.  When the check-runs reply holds no check-run, the result is the
    bare "no_ci" result: its [failed_checks] and [check_names] are empty. *)
Theorem no_check_runs_is_no_ci :
  forall (gh : list string -> bool * string)
         (json_loads_pr : string -> option PrData)
         (json_loads_check : string -> option Check)
         (repo : string) (pr_number : Z) (output : string),
    let r := check_post_merge_ci_status gh json_loads_pr json_loads_check repo pr_number in
    check_runs_reply gh json_loads_pr repo pr_number = Some output ->
    observed_checks json_loads_check output = [] ->
    r = ci_status_only "no_ci"
    /\ status r = "no_ci" /\ failed_checks r = [] /\ check_names r = [].
Proof.
  intros gh jpr jck repo pr_number output r Hreply Hnone.
  assert (Hr : r = ci_status_only "no_ci").
  { unfold r, check_post_merge_ci_status.
    rewrite check_post_merge_ci_status_traced_reply, Hreply.
    unfold resolve_check_runs. rewrite scan_lines_checks.
    unfold observed_checks in Hnone. rewrite Hnone. reflexivity. }
  rewrite Hr. repeat split.
Qed.

Lemma no_check_runs_is_no_ci_witness :
  let r := check_post_merge_ci_status
             (CiScenarios.gh_replies CiScenarios.no_check_runs)
             CiScenarios.json_pr CiScenarios.json_check "test/repo" 123 in
  r = ci_status_only "no_ci"
  /\ status r = "no_ci" /\ failed_checks r = [] /\ check_names r = [].
Proof.
  apply (no_check_runs_is_no_ci (CiScenarios.gh_replies CiScenarios.no_check_runs)
           CiScenarios.json_pr CiScenarios.json_check "test/repo" 123
           CiScenarios.no_check_runs); reflexivity.
Defined.

(** C9.  A result with status "pending" has empty [failed_checks] and
    [failed_check_urls], also when failed check-runs were collected. *)
Theorem pending_result_lists_no_failures :
  forall (gh : list string -> bool * string)
         (json_loads_pr : string -> option PrData)
         (json_loads_check : string -> option Check)
         (repo : string) (pr_number : Z),
    let r := check_post_merge_ci_status gh json_loads_pr json_loads_check repo pr_number in
    status r = "pending" ->
    failed_checks r = [] /\ failed_check_urls r = [].
Proof.
  intros gh jpr jck repo pr_number r. unfold r, check_post_merge_ci_status.
  rewrite check_post_merge_ci_status_traced_reply.
  destruct (check_runs_reply gh jpr repo pr_number) as [output|].
  - apply resolve_check_runs_pending.
  - simpl. discriminate.
Qed.

Lemma pending_result_lists_no_failures_witness :
  let r := check_post_merge_ci_status
             (CiScenarios.gh_replies CiScenarios.failed_then_pending)
             CiScenarios.json_pr CiScenarios.json_check "test/repo" 123 in
  existsb is_failed (observed_checks CiScenarios.json_check CiScenarios.failed_then_pending)
  = true
  /\ failed_checks r = [] /\ failed_check_urls r = [].
Proof.
  split; [reflexivity|].
  apply (pending_result_lists_no_failures
           (CiScenarios.gh_replies CiScenarios.failed_then_pending)
           CiScenarios.json_pr CiScenarios.json_check "test/repo" 123).
  reflexivity.
Defined.

End CIClaims.

(* ================================================================== *)
(** * Agreement with the repository's tests *)

Section RepositoryTests.
Import ErrorHandling Os SubprocessClient.

(** [test_exponential_growth], [test_max_delay_cap] *)
Example exponential_growth :
  map (fun a => get_delay (ExponentialBackoffStrategy 2 1000 0 []) a 0) [0; 1; 2; 3]
  = map Returns [2 * 2 ^ 0; 2 * 2 ^ 1; 2 * 2 ^ 2; 2 * 2 ^ 3]%Q
  /\ (exists d, get_delay (ExponentialBackoffStrategy 10 50 0 []) 5 0 = Returns d
                /\ (d == 50)%Q)
  /\ (exists d, get_delay (ExponentialBackoffStrategy 10 50 0 []) 10 0 = Returns d
                /\ (d == 50)%Q).
Proof.
  split; [reflexivity|].
  split; eexists; (split; [reflexivity|vm_compute; reflexivity]).
Qed.

(** [test_should_retry_with_patterns], [test_should_retry_case_insensitive] *)
Example should_retry_with_patterns :
  let s := ExponentialBackoffStrategy 2 300 (1 # 10) ["rate limit"; "429"; "try again"] in
  should_retry s "Error: rate limit exceeded" 429 = true
  /\ should_retry s "HTTP 429 Too Many Requests" 429 = true
  /\ should_retry s "Please try again later" 500 = true
  /\ should_retry s "Connection refused" 1 = false
  /\ should_retry s "" 1 = false
  /\ should_retry s "RATE LIMIT exceeded" 429 = true.
Proof. vm_compute. repeat split. Qed.

(** [test_detect_sso_required], [test_detect_timeout],
    [test_detect_permission_error], [test_command_not_found_return_code],
    [test_timeout_return_code], [test_generic_error], [test_success] *)
Example default_detection :
  let d := new_detector 60 in
  let kind output return_code command :=
    match detect_error_patterns d output return_code command with
    | Returns info => (error_type info, is_error info, recoverable info)
    | Raises e => (e, false, false)
    end in
  kind "To sign in, use a web browser" 1 "" = ("sso-required", true, true)
  /\ kind "Connection timed out after 30 seconds" 1 "" = ("network-error", true, true)
  /\ kind "Error: forbidden - user does not have access" 1 ""
     = ("permission-error", true, false)
  /\ detect_error_patterns d "" 127 "nonexistent"
     = Returns (mkErrorInfo "command-not-found" true "Command not found: nonexistent"
                  "Ensure the required command is installed and in PATH" false)
  /\ detect_error_patterns d "" 124 ""
     = Returns (mkErrorInfo "timeout" true "Command timed out after 60 seconds"
                  "Try increasing timeout or check for hanging processes" true)
  /\ detect_error_patterns d "Some unknown error" 42 ""
     = Returns (mkErrorInfo "generic-error" true "Command failed with return code 42"
                  "Check command output for details" true)
  /\ kind "All good!" 0 "" = ("success", false, true).
Proof. vm_compute. repeat split. Qed.

(** [test_custom_patterns_take_precedence] *)
Example custom_patterns_take_precedence :
  let d := add_simple_pattern (new_detector 30) (Re.compile "connection refused")
             "my-network-error" "Custom network error" "" true in
  detect_error_patterns d "connection refused" 1 ""
  = Returns (mkErrorInfo "my-network-error" true "Custom network error" "" true).
Proof. reflexivity. Qed.

(** [test_retry_with_strategy]: three processes, sleeps of 2 and 4 seconds. *)
Example retry_with_strategy :
  let cfg := mkCommandConfig 30 3 1 true true false None
               (Some (ExponentialBackoffStrategy 2 100 0 [])) in
  let out := execute_command
               (Scenarios.scripted [Completed 1 "" "error"; Completed 1 "" "error"]
                                   (Completed 0 "success" ""))
               (new_client (Some cfg)) (CmdList ["cmd"]) None in
  (exists r, fst out = Returns r /\ success r = true)
  /\ calls (effects (snd out)) = 3%nat
  /\ sleeps (effects (snd out)) = [2 * 2 ^ 0; 2 * 2 ^ 1]%Q.
Proof.
  split; [eexists; split; [vm_compute; reflexivity|reflexivity]|].
  vm_compute. repeat split.
Qed.

(** [test_retry_on_failure]: one retry after the fixed delay. *)
Example retry_on_failure :
  let out := execute_command
               (Scenarios.scripted [Completed 1 "" "temporary error"]
                                   (Completed 0 "success" ""))
               (new_client (Some Scenarios.two_retries)) (CmdList ["cmd"]) None in
  (exists r, fst out = Returns r /\ success r = true)
  /\ calls (effects (snd out)) = 2%nat
  /\ sleeps (effects (snd out)) = [1%Q].
Proof.
  split; [eexists; split; [vm_compute; reflexivity|reflexivity]|].
  vm_compute. repeat split.
Qed.

(** [test_command_timeout] *)
Example command_timeout :
  let out := execute_command (Scenarios.always TimeoutExpired)
               (new_client (Some (mkCommandConfig 5 0 1 true true false None None)))
               (CmdList ["sleep"; "100"]) None in
  exists r,
    fst out = Returns r
    /\ success r = false
    /\ return_code r = 124
    /\ result_error_type r = "timeout"
    /\ output r = "Command timed out after 5 seconds".
Proof. eexists. split; [vm_compute; reflexivity|]. vm_compute. repeat split. Qed.

(** [test_rate_limit_retry], [test_rate_limit_max_retries] of the gh client *)
Example gh_client_rate_limit :
  let limited := Completed 1 "" "rate limit exceeded" in
  let once := GHClient.run_command
                (Scenarios.scripted [limited] (Completed 0 "success" ""))
                "" (GHClient.mkGHClientConfig 5 2 300 0 false) ["repo"; "list"] None in
  let never := GHClient.run_command (Scenarios.always limited)
                 "" (GHClient.mkGHClientConfig 3 2 300 0 false) ["repo"; "list"] None in
  fst once = Returns (true, "success")
  /\ calls (snd once) = 2%nat
  /\ List.length (sleeps (snd once)) = 1%nat
  /\ calls (snd never) = 3%nat
  /\ match fst never with
     | Returns (ok, text) =>
         ok = false /\ PyStr.contains "Rate limit exceeded after 3 retries" text = true
     | Raises _ => False
     end.
Proof. vm_compute. repeat split. Qed.

(** [test_check_post_merge_ci_pending] and a failed check next to a
    successful one, as in [test_check_post_merge_ci_failure] *)
Example ci_pending_and_failure :
  let resolve reply :=
    PrQualityCheck.check_post_merge_ci_status (CiScenarios.gh_replies reply)
      CiScenarios.json_pr CiScenarios.json_check "test/repo" 123 in
  PrQualityCheck.status (resolve "P") = "pending"
  /\ PrQualityCheck.failed_checks (resolve "P") = []
  /\ resolve ("F" ++ String PrQualityCheck.nl "S")
     = PrQualityCheck.mkCICheckResult "failure" ["ci"] [Some "https://example.com/failed"]
         ["ci"; "build-and-test"] true true
         "job: build-and-test" "job: build-and-test".
Proof. vm_compute. repeat split. Qed.

End RepositoryTests.


(* ================================================================== *)
(** * Further properties of [execute_command] *)

Section ExecuteCommandRuns.
Import ErrorHandling Os SubprocessClient.

Lemma Forall_eq_repeat {A} (a : A) (l : list A) :
  Forall (fun x => x = a) l -> l = repeat a (List.length l).
Proof.
  induction 1 as [|x l Hx _ IH]; [reflexivity|].
  cbn [List.length repeat]. rewrite Hx. f_equal. exact IH.
Qed.

(** X1.  [execute_command] never runs more than [retries + 1] processes; it
    runs at least one when [retries >= 0] and none when [retries < 0]; and
    it logs one result per process. *)
Theorem execute_command_invocation_bounds :
  forall (w : World) (self : Client) (command : command_arg)
         (override_config : option CommandConfig),
    let cfg := get override_config (config self) in
    let st := snd (execute_command w self command override_config) in
    Z.min 1 (Z.max 0 (retries cfg + 1)) <= Z.of_nat (calls (effects st))
    /\ Z.of_nat (calls (effects st)) <= Z.max 0 (retries cfg + 1)
    /\ List.length (history st) = calls (effects st).
Proof.
  intros w self command override_config cfg st.
  destruct (execute_command_facts w self command override_config)
    as (ds & Fc & Fle & Fpos & _).
  fold st cfg in Fc, Fle, Fpos. rewrite Fc.
  split; [|split; [exact Fle|reflexivity]].
  destruct (Z.le_gt_cases 0 (retries cfg)) as [Hpos|Hneg]; [|lia].
  specialize (Fpos Hpos). lia.
Qed.

(** X2.  [execute_command] sleeps exactly once between two consecutive
    processes and never before the first or after the last, and only for
    delays that [time.sleep] takes.  Without a retry strategy every sleep
    lasts [retry_delay]; with a [ConstantDelayStrategy] every sleep lasts
    its [delay]. *)
Theorem execute_command_sleeps_between_attempts :
  forall (w : World) (self : Client) (command : command_arg)
         (override_config : option CommandConfig),
    let cfg := get override_config (config self) in
    let st := snd (execute_command w self command override_config) in
    List.length (sleeps (effects st)) = pred (calls (effects st))
    /\ Forall (fun d => accepts w d = true) (sleeps (effects st))
    /\ (retry_strategy cfg = None ->
        sleeps (effects st) = repeat (retry_delay cfg) (pred (calls (effects st))))
    /\ (forall d, retry_strategy cfg = Some (ConstantDelayStrategy d) ->
                  sleeps (effects st) = repeat d (pred (calls (effects st)))).
Proof.
  intros w self command override_config cfg st.
  destruct (execute_command_facts w self command override_config)
    as (ds & Fc & _ & _ & Fs & Flen & Fall & _).
  fold st cfg in Fc, Fs, Flen, Fall. rewrite Fc, Fs, <- Flen.
  split; [reflexivity|]. split; [|split].
  - eapply Forall_impl; [|exact Fall]. intros d (a & j & _ & Ha). exact Ha.
  - intros Hnone. apply Forall_eq_repeat.
    eapply Forall_impl; [|exact Fall]. intros d (a & j & Hd & _).
    unfold delay_value in Hd. rewrite Hnone in Hd. injection Hd as <-. reflexivity.
  - intros d Hsome. apply Forall_eq_repeat.
    eapply Forall_impl; [|exact Fall]. intros d' (a & j & Hd & _).
    unfold delay_value in Hd. rewrite Hsome in Hd. injection Hd as <-. reflexivity.
Qed.

Lemma execute_command_sleeps_between_attempts_witness :
  let st := snd (execute_command (Scenarios.always (Completed 1 "" "persistent error"))
                   (new_client (Some Scenarios.two_retries)) (CmdList ["cmd"]) None) in
  sleeps (effects st) = repeat 1%Q (pred (calls (effects st))).
Proof.
  apply (proj1 (proj2 (proj2 (execute_command_sleeps_between_attempts
           (Scenarios.always (Completed 1 "" "persistent error"))
           (new_client (Some Scenarios.two_retries)) (CmdList ["cmd"]) None)))).
  reflexivity.
Defined.

(** X3.  When every [subprocess.run] of the attempts 0..[retries] times
    out, and every delay is computed without an exception and taken by
    [time.sleep], [execute_command] runs [retries + 1] processes and
    returns the synthesized timeout result: a failure with return code 124
    and error type "timeout". *)
Theorem timeouts_exhaust_the_retry_budget :
  forall (w : World) (self : Client) (command : command_arg)
         (override_config : option CommandConfig),
    let cfg := get override_config (config self) in
    let out := execute_command w self command override_config in
    let r := timeout_result cfg (cmd_string_of command)
               (elapsed w (Z.to_nat (retries cfg))) in
    0 <= retries cfg ->
    delays_accepted w cfg ->
    (forall k, Z.of_nat k <= retries cfg -> spawn w k = TimeoutExpired) ->
    Z.of_nat (calls (effects (snd out))) = retries cfg + 1
    /\ fst out = Returns r
    /\ success r = false
    /\ return_code r = 124
    /\ result_error_type r = "timeout".
Proof.
  intros w self command override_config cfg out r Hpos Hq Hall.
  destruct (execute_command_quiet w self command override_config Hq) as (Hc & _ & Hr).
  fold out cfg in Hc, Hr.
  assert (Hn : iterations w (error_detector self) cfg (cmd_string_of command)
                 (Z.to_nat (retries cfg + 1)) 0 0 = Z.to_nat (retries cfg + 1)).
  { apply iterations_exhaust. intros i Hi. simpl.
    rewrite Hall by lia. cbn [outcome_control]. unfold retry_if_budget.
    assert (Hb : (Z.of_nat i <? retries cfg) = true) by (apply Z.ltb_lt; lia).
    rewrite Hb. reflexivity. }
  rewrite Hn in *. split; [lia|].
  replace (Z.to_nat (retries cfg + 1)) with (S (Z.to_nat (retries cfg))) in Hr by lia.
  unfold entry in Hr. cbn [snd] in Hr. rewrite Hall in Hr by lia.
  cbn [outcome_result] in Hr. rewrite Hr. repeat split.
Qed.

Lemma timeouts_exhaust_the_retry_budget_witness :
  let out := execute_command (Scenarios.always TimeoutExpired)
               (new_client (Some Scenarios.two_retries)) (CmdList ["sleep"; "100"]) None in
  let r := timeout_result Scenarios.two_retries "sleep 100" 0 in
  Z.of_nat (calls (effects (snd out))) = 2 + 1
  /\ fst out = Returns r
  /\ success r = false
  /\ return_code r = 124
  /\ result_error_type r = "timeout".
Proof.
  apply (timeouts_exhaust_the_retry_budget (Scenarios.always TimeoutExpired)
           (new_client (Some Scenarios.two_retries)) (CmdList ["sleep"; "100"]) None).
  - simpl. lia.
  - intros a j _. reflexivity.
  - intros k _. reflexivity.
Defined.

(** [execute_simple] runs exactly one process and never sleeps, whatever
    retry settings the client was built with; its result is the one the
    first outcome leads to under the default settings with the given
    timeout. *)
Theorem execute_simple_runs_once :
  forall (w : World) (self : Client) (command : command_arg)
         (timeout : Z) (verbose : bool),
    let simple_config := mkCommandConfig timeout 0 1 true true verbose None None in
    let out := execute_simple w self command timeout verbose in
    calls (effects (snd out)) = 1%nat
    /\ sleeps (effects (snd out)) = []
    /\ fst out = Returns (outcome_result (error_detector self) simple_config
                            (cmd_list_of command) (cmd_string_of command)
                            (spawn w 0) (elapsed w 0)).
Proof.
  intros w self command timeout verbose simple_config out.
  unfold out, execute_simple. fold simple_config.
  assert (Hq : delays_accepted w simple_config).
  { intros a j Ha. simpl in Ha. lia. }
  destruct (execute_command_quiet w self command (Some simple_config) Hq) as (Hc & _ & Hr).
  destruct (execute_command_facts w self command (Some simple_config))
    as (ds & Fc & _ & _ & Fs & Flen & _).
  cbn [get] in *.
  assert (Hone : iterations w (error_detector self) simple_config (cmd_string_of command)
                   (Z.to_nat (retries simple_config + 1)) 0 0 = 1%nat).
  { simpl. destruct (outcome_control _ _ _ _ _); reflexivity. }
  rewrite Hone in *. rewrite <- Fc, Hc in Flen. cbn [pred] in Flen.
  split; [exact Hc|]. split; [|exact Hr].
  rewrite Fs. destruct ds; [reflexivity|discriminate].
Qed.

End ExecuteCommandRuns.


Section DetectorFacts.
Import ErrorHandling Os SubprocessClient DetectorViews.

(** The loop does not read [custom_error_patterns] of the configuration it
    is given. *)
Lemma attempt_loop_ignores_custom_patterns w detector cmd_list cmd_string
    t r d co ck v p1 p2 s n :
  forall attempt st last_result,
    attempt_loop w detector (mkCommandConfig t r d co ck v p1 s) cmd_list cmd_string
      n attempt st last_result
    = attempt_loop w detector (mkCommandConfig t r d co ck v p2 s) cmd_list cmd_string
        n attempt st last_result.
Proof.
  induction n as [|n IH]; intros attempt st last_result; [reflexivity|].
  cbn [attempt_loop].
  change (attempt_body w detector (mkCommandConfig t r d co ck v p2 s) cmd_list cmd_string
            attempt st)
    with (attempt_body w detector (mkCommandConfig t r d co ck v p1 s) cmd_list cmd_string
            attempt st).
  destruct (attempt_body _ _ _ _ _ attempt st) as [st' [e|res c]]; [reflexivity|].
  destruct c; [reflexivity|apply IH].
Qed.

(** X4.  The error patterns of an [override_config] have no effect:
    [execute_command] classifies with the detector the client was built
    with, so replacing [custom_error_patterns] in the override changes
    neither the result nor the effects. *)
Theorem override_custom_patterns_are_ignored :
  forall (w : World) (self : Client) (command : command_arg)
         (cfg : CommandConfig)
         (patterns : option (list (Re.regex * PatternConfig))),
    execute_command w self command
      (Some (mkCommandConfig (timeout cfg) (retries cfg) (retry_delay cfg)
               (combine_output cfg) (check_return_code cfg) (verbose cfg)
               patterns (retry_strategy cfg)))
    = execute_command w self command (Some cfg).
Proof.
  intros w self command [t r d co ck v p s] patterns.
  unfold execute_command. cbn [get SubprocessClient.timeout retries retry_delay
    combine_output check_return_code verbose retry_strategy].
  rewrite (attempt_loop_ignores_custom_patterns w (error_detector self)
             (cmd_list_of command) (PyStr.join " " (cmd_list_of command))
             t r d co ck v patterns p s).
  reflexivity.
Qed.

Lemma find_none_forallb {A} (f : A -> bool) (l : list A) :
  find f l = None <-> forallb (fun x => negb (f x)) l = true.
Proof.
  induction l as [|a l IH]; simpl; [tauto|].
  destruct (f a); simpl; [split; discriminate|exact IH].
Qed.

(** X5.  [detect_error_patterns] reports "no error" in exactly one
    situation: no custom and no built-in pattern set matches the output, the
    return code is 0, and the output has neither "command not found" nor
    timeout text.  Every other input is classified as an error (or, for a
    blank command string in the command-not-found case, raises). *)
Theorem detect_error_patterns_success_iff :
  forall (d : ErrorPatternDetector) (output : string) (return_code : Z)
         (command : string),
    (exists info,
        detect_error_patterns d output return_code command = Returns info
        /\ is_error info = false)
    <->
    (forallb (fun ps => negb (_matches_pattern_set output ps))
             (_custom_patterns d ++ _pattern_sets d) = true
     /\ return_code = 0
     /\ PyStr.contains "command not found" (PyStr.lower output) = false
     /\ Re.search timeout_regex output = false).
Proof.
  intros d output return_code command.
  rewrite forallb_app, andb_true_iff, <- !find_none_forallb.
  unfold detect_error_patterns.
  destruct (find _ (_custom_patterns d)) as [ps|].
  { split; [intros (info & H & He); injection H as <-; discriminate
           |intros [[H _] _]; discriminate]. }
  destruct (find _ (_pattern_sets d)) as [ps|].
  { split; [intros (info & H & He); injection H as <-; discriminate
           |intros [[_ H] _]; discriminate]. }
  destruct (PyStr.contains "command not found" (PyStr.lower output)) eqn:Hcnf.
  { rewrite orb_true_r. split; [|intros (_ & _ & H & _); discriminate].
    intros (info & H & He). destruct (cmd_name_of command); [|discriminate].
    injection H as <-. discriminate. }
  rewrite orb_false_r.
  destruct (return_code =? 127) eqn:H127.
  { apply Z.eqb_eq in H127. split; [|intros (_ & H & _); lia].
    intros (info & H & He). destruct (cmd_name_of command); [|discriminate].
    injection H as <-. discriminate. }
  destruct (Re.search timeout_regex output) eqn:Hto.
  { rewrite orb_true_r. split; [|intros (_ & _ & _ & H); discriminate].
    intros (info & H & He). injection H as <-. discriminate. }
  rewrite orb_false_r.
  destruct (return_code =? 124) eqn:H124.
  { apply Z.eqb_eq in H124. split; [|intros (_ & H & _); lia].
    intros (info & H & He). injection H as <-. discriminate. }
  destruct (return_code =? 0) eqn:H0; simpl.
  - apply Z.eqb_eq in H0. split; [intros _; auto|].
    intros _. eexists. split; reflexivity.
  - apply Z.eqb_neq in H0. split; [|intros (_ & H & _); contradiction].
    intros (info & H & He). injection H as <-. discriminate.
Qed.

(** X6.  On a detector whose patterns are all valid regular expressions,
    [detect_error_patterns] raises only for a command string that is not
    empty and holds no word: for an empty command string, or one with a
    word, it returns a classification for every output and return code. *)
Theorem detect_error_patterns_returns :
  forall (d : ErrorPatternDetector) (output : string) (return_code : Z)
         (command : string),
    command = "" \/ PyStr.split_ws command <> [] ->
    exists info, detect_error_patterns d output return_code command = Returns info.
Proof.
  intros d output return_code command Hcmd.
  unfold detect_error_patterns.
  destruct (find _ (_custom_patterns d)); [eauto|].
  destruct (find _ (_pattern_sets d)); [eauto|].
  assert (Hname : exists n, cmd_name_of command = Returns n).
  { unfold cmd_name_of. destruct Hcmd as [->|Hne]; [simpl; eauto|].
    destruct (PyStr.nonempty command); [|eauto].
    destruct (PyStr.split_ws command); [congruence|eauto]. }
  destruct Hname as [n Hn]. rewrite Hn.
  destruct (_ || _); [eauto|].
  destruct (_ || _); [eauto|].
  destruct (negb _); eauto.
Qed.

Lemma detect_error_patterns_returns_witness :
  exists info,
    detect_error_patterns (new_detector 30) "bash: foo: command not found" 127 "foo --bar"
    = Returns info.
Proof.
  apply (detect_error_patterns_returns (new_detector 30)
           "bash: foo: command not found" 127 "foo --bar").
  right. vm_compute. discriminate.
Defined.

Lemma fold_add_simple_pattern entries :
  forall d,
    fold_left
      (fun d (entry : Re.regex * PatternConfig) =>
         let (pattern, pattern_config) := entry in
         add_simple_pattern d pattern
           (get (pc_error_type pattern_config) "custom")
           (get (pc_message pattern_config) "Custom error detected")
           (get (pc_suggestion pattern_config) "")
           (get (pc_recoverable pattern_config) true))
      entries d
    = mkDetector (det_timeout d) (_pattern_sets d)
        (_custom_patterns d ++ map custom_set_of entries).
Proof.
  induction entries as [|[p pc] entries IH]; intros d.
  - simpl. rewrite app_nil_r. destruct d; reflexivity.
  - cbn [fold_left map]. rewrite IH. unfold add_simple_pattern, add_pattern_set.
    cbn [det_timeout _pattern_sets _custom_patterns].
    rewrite <- app_assoc. reflexivity.
Qed.

(** The detector of a new client: the built-in sets, and one set per
    configured pattern, in order. *)
Lemma new_client_detector cfg :
  error_detector (new_client (Some cfg))
  = mkDetector (SubprocessClient.timeout cfg) _get_default_patterns
      (map custom_set_of (get (custom_error_patterns cfg) [])).
Proof.
  unfold new_client. cbn [get error_detector].
  rewrite fold_add_simple_pattern. reflexivity.
Qed.

Lemma find_custom_sets output entries :
  find (_matches_pattern_set output) (map custom_set_of entries)
  = option_map custom_set_of (find (fun entry => Re.search (fst entry) output) entries).
Proof.
  induction entries as [|e entries IH]; [reflexivity|].
  cbn [map find]. unfold _matches_pattern_set at 1. cbn [custom_set_of ps_patterns existsb].
  rewrite orb_false_r. destruct (Re.search (fst e) output); [reflexivity|exact IH].
Qed.

(** X7.  The patterns a client is configured with take precedence over the
    built-in ones and over the return code: the first configured pattern
    found in the output decides the classification, with "custom",
    "Custom error detected", no suggestion and recoverable as defaults for
    the keys its entry leaves out. *)
Theorem configured_pattern_decides_classification :
  forall (cfg : CommandConfig) (patterns : list (Re.regex * PatternConfig))
         (output : string) (return_code : Z) (command : string)
         (pattern : Re.regex) (pattern_config : PatternConfig),
    custom_error_patterns cfg = Some patterns ->
    find (fun entry => Re.search (fst entry) output) patterns
    = Some (pattern, pattern_config) ->
    detect_error_patterns (error_detector (new_client (Some cfg)))
      output return_code command
    = Returns (mkErrorInfo (get (pc_error_type pattern_config) "custom") true
                 (get (pc_message pattern_config) "Custom error detected")
                 (get (pc_suggestion pattern_config) "")
                 (get (pc_recoverable pattern_config) true)).
Proof.
  intros cfg patterns output return_code command pattern pattern_config Hcfg Hfind.
  rewrite new_client_detector, Hcfg. cbn [get].
  unfold detect_error_patterns. cbn [_custom_patterns].
  rewrite find_custom_sets, Hfind. reflexivity.
Qed.

Lemma configured_pattern_decides_classification_witness :
  detect_error_patterns
    (error_detector
       (new_client
          (Some (mkCommandConfig 30 0 1 true true false
                   (Some [(Re.compile "connection refused",
                           mkPatternConfig (Some "my-network-error") None None (Some false))])
                   None))))
    "dial tcp: connection refused" 0 "curl"
  = Returns (mkErrorInfo "my-network-error" true "Custom error detected" "" false).
Proof.
  apply (configured_pattern_decides_classification
           (mkCommandConfig 30 0 1 true true false
              (Some [(Re.compile "connection refused",
                      mkPatternConfig (Some "my-network-error") None None (Some false))])
              None)
           [(Re.compile "connection refused",
             mkPatternConfig (Some "my-network-error") None None (Some false))]
           "dial tcp: connection refused" 0 "curl"
           (Re.compile "connection refused")
           (mkPatternConfig (Some "my-network-error") None None (Some false)));
    reflexivity.
Defined.

End DetectorFacts.


(* ================================================================== *)
(** * Further properties of the retry strategies *)

Section StrategyFacts.
Import SubprocessClient.

Lemma calculate_delay_is_exponential (cfg : GHClient.GHClientConfig) a u :
  GHClient._calculate_delay cfg a u
  = exponential_get_delay (GHClient.initial_delay cfg) (GHClient.max_delay cfg)
      (GHClient.jitter cfg) a u.
Proof. reflexivity. Qed.

Lemma scaled_cases (initial_delay : Q) (a : Z) :
  (a < 1024 /\ scaled initial_delay a = Returns (initial_delay * 2 ^ a)%Q)
  \/ (1024 <= a /\ scaled initial_delay a = Raises "int too large to convert to float").
Proof.
  unfold scaled. destruct (Z.leb_spec 1024 a); [right|left]; auto.
Qed.




(** X9.  Without jitter the backoff is monotone and capped: for an
    [initial_delay] that is not negative and attempt numbers from 0 to
    1023, a later attempt never waits less than an earlier one, and no
    attempt waits longer than [max_delay]. *)
Theorem delay_without_jitter_is_monotone :
  forall (initial_delay max_delay jitter : Q) (retry_patterns : list string)
         (a b : Z) (u u' : Q),
    let s := ExponentialBackoffStrategy initial_delay max_delay jitter retry_patterns in
    (jitter <= 0)%Q -> (0 <= initial_delay)%Q -> 0 <= a -> a <= b -> b < 1024 ->
    exists da db,
      get_delay s a u = Returns da
      /\ get_delay s b u' = Returns db
      /\ (da <= db)%Q
      /\ (db <= max_delay)%Q.
Proof.
  intros initial_delay max_delay jitter retry_patterns a b u u' s Hj Hi Ha Hab Hb.
  unfold s. cbn [get_delay ExponentialBackoffStrategy]. unfold exponential_get_delay.
  destruct (scaled_cases initial_delay a) as [[_ ->]|[Hbig _]]; [|lia].
  destruct (scaled_cases initial_delay b) as [[_ ->]|[Hbig _]]; [|lia].
  assert (Hp : Qpositive jitter = false).
  { unfold Qpositive. apply negb_false_iff. apply Qle_bool_iff. exact Hj. }
  rewrite Hp. do 2 eexists. split; [reflexivity|]. split; [reflexivity|].
  split; [|apply Q.le_min_r].
  apply Q.min_le_compat_r.
  assert (Hpow : (2 ^ a <= 2 ^ b)%Q) by (apply Qpower_le_compat_l; [exact Hab|lra]).
  assert (H0 : (0 <= initial_delay * (2 ^ b - 2 ^ a))%Q)
    by (apply Qmult_le_0_compat; lra).
  lra.
Qed.

Lemma delay_without_jitter_is_monotone_witness :
  exists da db,
    get_delay (ExponentialBackoffStrategy 2 100 0 []) 3 0 = Returns da
    /\ get_delay (ExponentialBackoffStrategy 2 100 0 []) 8 1 = Returns db
    /\ (da <= db)%Q
    /\ (db <= 100)%Q.
Proof.
  apply (delay_without_jitter_is_monotone 2 100 0 [] 3 8 0 1);
    try lia; vm_compute; discriminate.
Defined.

Lemma lower_ascii_idempotent c :
  PyStr.lower_ascii (PyStr.lower_ascii c) = PyStr.lower_ascii c.
Proof.
  destruct c as [[] [] [] [] [] [] [] []]; reflexivity.
Qed.

Lemma lower_idempotent s : PyStr.lower (PyStr.lower s) = PyStr.lower s.
Proof.
  induction s as [|c s IH]; [reflexivity|].
  cbn [PyStr.lower]. now rewrite lower_ascii_idempotent, IH.
Qed.

(** X10.  [ExponentialBackoffStrategy.should_retry] looks at the text only:
    it does not depend on the return code, nor on the letter case of the
    output or of the patterns; without patterns it always says yes. *)
Theorem should_retry_is_case_insensitive :
  forall (initial_delay max_delay jitter : Q) (retry_patterns : list string)
         (error_output : string) (return_code return_code' : Z),
    let s := ExponentialBackoffStrategy initial_delay max_delay jitter retry_patterns in
    let s_lower := ExponentialBackoffStrategy initial_delay max_delay jitter
                     (map PyStr.lower retry_patterns) in
    should_retry s error_output return_code
    = should_retry s_lower (PyStr.lower error_output) return_code'
    /\ should_retry (ExponentialBackoffStrategy initial_delay max_delay jitter [])
         error_output return_code = true.
Proof.
  intros initial_delay max_delay jitter retry_patterns error_output rc rc' s s_lower.
  split; [|reflexivity].
  unfold s, s_lower. cbn [should_retry ExponentialBackoffStrategy].
  unfold exponential_should_retry.
  destruct retry_patterns as [|p ps]; [reflexivity|].
  cbn [map]. rewrite lower_idempotent.
  change (PyStr.lower p :: map PyStr.lower ps) with (map PyStr.lower (p :: ps)).
  generalize (p :: ps). intros l.
  induction l as [|q l IH]; [reflexivity|].
  cbn [map existsb]. now rewrite lower_idempotent, IH.
Qed.

End StrategyFacts.


(* ================================================================== *)
(** * Further properties of [GHClient._retry_with_backoff] *)

Section GHClientLoop.
Import Os RetryViews.

Variable w : World.
Variable timestamp : string.
Variable cfg : GHClient.GHClientConfig.
Variable retries : Z.
Variable label : string.
Variable check_stdout_for_rate_limit : bool.
Variable return_stdout_on_error : bool.
Variable rate_limit_exhausted_output : string.

Local Abbreviation body :=
  (GHClient.attempt_body w timestamp cfg retries label check_stdout_for_rate_limit
     return_stdout_on_error rate_limit_exhausted_output).
Local Abbreviation loop :=
  (GHClient.attempt_loop w timestamp cfg retries label check_stdout_for_rate_limit
     return_stdout_on_error rate_limit_exhausted_output).
Local Abbreviation delay_at attempt fx :=
  (GHClient._calculate_delay cfg attempt (random_draw w (draws fx))).

(** An iteration runs one process.  It returns without computing a delay;
    or, after a rate limit before the last attempt, it computes the delay
    of its attempt and either sleeps it and goes on, or is left by the
    exception of the computation or of [time.sleep]. *)
Lemma gh_client_body_cases attempt total_wait fx :
  (exists r, body attempt total_wait fx = (GHClient.Done r, ran fx))
  \/ (attempt < retries - 1
      /\ ((exists e,
              body attempt total_wait fx = (GHClient.Done (Raises e), drew (ran fx)))
          \/ (exists d,
                 delay_at attempt fx = Returns d
                 /\ accepts w d = true
                 /\ body attempt total_wait fx
                    = (GHClient.Next (total_wait + d)%Q, slept d (drew (ran fx)))))).
Proof.
  unfold GHClient.attempt_body.
  destruct (spawn w (calls fx)) as [rc out err| | |e].
  - destruct (rc =? 0); [left; eauto|].
    match goal with
    | |- context [if ?c then (if attempt <? retries - 1 then _ else _) else _] =>
        destruct c
    end.
    + destruct (attempt <? retries - 1) eqn:Hlt.
      * right. apply Z.ltb_lt in Hlt. split; [exact Hlt|].
        change (draws (ran fx)) with (draws fx).
        destruct (GHClient._calculate_delay cfg attempt (random_draw w (draws fx)))
          as [d|e]; [|left; eauto].
        destruct (sleep_cases w d (drew (ran fx))) as [[Ha Hs]|[Ha [e Hs]]]; rewrite Hs.
        -- right. exists d. auto.
        -- left. eauto.
      * left. destruct (PyStr.nonempty rate_limit_exhausted_output); eauto.
    + left. destruct return_stdout_on_error; eauto.
  - left. eauto.
  - left. destruct return_stdout_on_error; eauto.
  - left. eauto.
Qed.

Lemma map_seq_succ {A} (f : nat -> A) (p : nat) :
  map f (seq 0 (S p)) = f 0%nat :: map (fun i => f (S i)) (seq 0 p).
Proof.
  cbn [seq map]. f_equal. rewrite <- seq_shift, map_map. reflexivity.
Qed.

(** The loop runs at most [n] processes, at least one if it has an
    iteration.  It sleeps between consecutive processes only: the sleeps
    are the delays of the attempts made, in order, each one taken by
    [time.sleep]; when the loop returns, there is one for every process
    but the last. *)
Lemma gh_client_loop_effects n :
  forall attempt total_wait fx,
    attempt + Z.of_nat n = retries ->
    let out := loop n attempt total_wait fx in
    exists m ds,
      (m <= n)%nat /\ (0 < n -> 0 < m)%nat
      /\ calls (snd out) = (calls fx + m)%nat
      /\ sleeps (snd out) = (sleeps fx ++ ds)%list
      /\ (List.length ds <= pred m)%nat
      /\ map Returns ds
         = map (fun i => GHClient._calculate_delay cfg (attempt + Z.of_nat i)
                           (random_draw w (draws fx + i)))
               (seq 0 (List.length ds))
      /\ Forall (fun d => accepts w d = true) ds
      /\ (forall r, fst out = Returns r ->
                    List.length ds = pred m /\ draws (snd out) = (draws fx + pred m)%nat).
Proof.
  induction n as [|n IH]; intros attempt total_wait fx Hn; cbn zeta.
  - exists 0%nat, []. simpl. rewrite app_nil_r.
    repeat split; auto; lia.
  - cbn [GHClient.attempt_loop].
    destruct (gh_client_body_cases attempt total_wait fx)
      as [[r Hb]|[Hlt [[e Hb]|(d & Hd & Ha & Hb)]]]; rewrite Hb.
    + exists 1%nat, []. simpl. rewrite app_nil_r.
      repeat split; auto; lia.
    + exists 1%nat, []. simpl. rewrite app_nil_r.
      repeat split; auto; try lia; discriminate.
    + destruct (IH (attempt + 1) (total_wait + d)%Q (slept d (drew (ran fx))) ltac:(lia))
        as (m & ds & Hm & Hpos & Hc & Hs & Hlen & Hmap & Hall & Hret).
      cbn zeta in *.
      assert (Hm1 : (0 < m)%nat) by (apply Hpos; lia).
      cbn [slept drew ran calls sleeps draws] in Hc, Hs, Hret, Hmap.
      exists (S m), (d :: ds).
      split; [lia|]. split; [lia|]. split; [lia|].
      split; [rewrite Hs, <- app_assoc; reflexivity|].
      split; [cbn [List.length pred]; lia|].
      split; [|split].
      * cbn [List.length]. rewrite map_seq_succ. cbn [map].
        rewrite Z.add_0_r, Nat.add_0_r, Hd. f_equal.
        rewrite Hmap. apply map_ext. intros i. f_equal; [lia|f_equal; lia].
      * constructor; assumption.
      * intros r Hr. destruct (Hret r Hr) as [Hl Hdr].
        cbn [List.length pred]. split; [lia|]. rewrite Hdr. lia.
Qed.

(** When every invocation is rate limited and every delay is accepted, the
    loop uses all its attempts and ends with the exhaustion reply. *)
Lemma gh_client_loop_exhausted n :
  forall attempt total_wait fx,
    attempt + Z.of_nat n = retries ->
    (0 < n)%nat ->
    (forall i, (i < n)%nat ->
               rate_limited check_stdout_for_rate_limit (spawn w (calls fx + i)) = true) ->
    (forall i, (S i < n)%nat ->
               exists d,
                 GHClient._calculate_delay cfg (attempt + Z.of_nat i)
                   (random_draw w (draws fx + i)) = Returns d
                 /\ accepts w d = true) ->
    calls (snd (loop n attempt total_wait fx)) = (calls fx + n)%nat
    /\ exists total,
         fst (loop n attempt total_wait fx)
         = Returns
             (false,
              if PyStr.nonempty rate_limit_exhausted_output
              then rate_limit_exhausted_output
              else GHClient.exhausted_message timestamp retries label
                     (stderr_of (spawn w (calls fx + pred n))) total).
Proof.
  induction n as [|n IH]; intros attempt total_wait fx Hn Hpos Hall Hacc; [lia|].
  cbn [GHClient.attempt_loop].
  destruct n as [|n].
  - (* the last attempt *)
    pose proof (Hall 0%nat ltac:(lia)) as H0. rewrite Nat.add_0_r in H0.
    cbn [pred]. rewrite Nat.add_0_r.
    unfold GHClient.attempt_body, stderr_of.
    destruct (spawn w (calls fx)) as [rc out err| | |e]; try discriminate.
    assert (Hrc : (rc =? 0) = false).
    { unfold rate_limited in H0. apply andb_true_iff in H0.
      destruct H0 as [Hrc _]. apply negb_true_iff in Hrc. exact Hrc. }
    rewrite Hrc, (rate_limited_test check_stdout_for_rate_limit rc out err Hrc), H0.
    assert (Hlast : (attempt <? retries - 1) = false) by (apply Z.ltb_ge; lia).
    rewrite Hlast.
    destruct (PyStr.nonempty rate_limit_exhausted_output); cbn [fst snd ran calls];
      (split; [lia|exists total_wait; reflexivity]).
  - pose proof (Hall 0%nat ltac:(lia)) as H0. rewrite Nat.add_0_r in H0.
    destruct (Hacc 0%nat ltac:(lia)) as (d & Hd & Ha).
    rewrite Z.add_0_r, Nat.add_0_r in Hd.
    rewrite (gh_client_body_rate_limited w timestamp cfg retries label
               check_stdout_for_rate_limit return_stdout_on_error
               rate_limit_exhausted_output attempt total_wait fx d H0 ltac:(lia) Hd Ha).
    specialize (IH (attempt + 1) (total_wait + d)%Q (slept d (drew (ran fx)))
                  ltac:(lia) ltac:(lia)).
    cbn [slept drew ran calls sleeps draws] in IH.
    assert (Hall' : forall i, (i < S n)%nat ->
                      rate_limited check_stdout_for_rate_limit
                        (spawn w (S (calls fx) + i)) = true).
    { intros i Hi. replace (S (calls fx) + i)%nat with (calls fx + S i)%nat by lia.
      apply Hall. lia. }
    assert (Hacc' : forall i, (S i < S n)%nat ->
                      exists d',
                        GHClient._calculate_delay cfg (attempt + 1 + Z.of_nat i)
                          (random_draw w (S (draws fx) + i)) = Returns d'
                        /\ accepts w d' = true).
    { intros i Hi. destruct (Hacc (S i) ltac:(lia)) as (d' & Hd' & Ha').
      exists d'. split; [|exact Ha'].
      replace (attempt + 1 + Z.of_nat i) with (attempt + Z.of_nat (S i)) by lia.
      replace (S (draws fx) + i)%nat with (draws fx + S i)%nat by lia.
      exact Hd'. }
    destruct (IH Hall' Hacc') as [Hc [total Hr]].
    split; [rewrite Hc; lia|]. exists total. rewrite Hr.
    replace (S (calls fx) + pred (S n))%nat with (calls fx + pred (S (S n)))%nat
      by (simpl; lia).
    reflexivity.
Qed.

End GHClientLoop.


Section GHClientRuns.
Import Os RetryViews.

(** X11.  [GHClient._retry_with_backoff] never runs more processes than
    the retry ceiling, and runs at least one when the ceiling is positive.
    It sleeps between consecutive processes only: the k-th sleep is the
    backoff delay of attempt k, and [time.sleep] takes it.  When the call
    returns, it has slept once for every process but the last. *)
Theorem gh_client_retry_effects :
  forall (w : World) (timestamp : string) (cfg : GHClient.GHClientConfig)
         (cmd : list string) (max_retries_arg : option Z) (label : string)
         (check_stdout_for_rate_limit return_stdout_on_error : bool)
         (rate_limit_exhausted_output : string),
    let retries := SubprocessClient.get max_retries_arg (GHClient.max_retries cfg) in
    let out := GHClient._retry_with_backoff w timestamp cfg cmd max_retries_arg label
                 check_stdout_for_rate_limit return_stdout_on_error
                 rate_limit_exhausted_output in
    Z.min 1 (Z.max 0 retries) <= Z.of_nat (calls (snd out))
    /\ Z.of_nat (calls (snd out)) <= Z.max 0 retries
    /\ (List.length (sleeps (snd out)) <= pred (calls (snd out)))%nat
    /\ map Returns (sleeps (snd out))
       = map (gh_client_delay w cfg) (seq 0 (List.length (sleeps (snd out))))
    /\ Forall (fun d => accepts w d = true) (sleeps (snd out))
    /\ (forall r, fst out = Returns r ->
                  List.length (sleeps (snd out)) = pred (calls (snd out))
                  /\ draws (snd out) = pred (calls (snd out))).
Proof.
  intros w timestamp cfg cmd max_retries_arg label cs rs rx retries out.
  unfold out, GHClient._retry_with_backoff. fold retries.
  destruct (Z.le_gt_cases retries 0) as [Hle|Hgt].
  - replace (Z.to_nat retries) with 0%nat by lia. simpl.
    repeat split; auto; lia.
  - destruct (gh_client_loop_effects w timestamp cfg retries label cs rs rx
                (Z.to_nat retries) 0 0%Q no_effects ltac:(lia))
      as (m & ds & Hm & Hpos & Hc & Hs & Hlen & Hmap & Hall & Hret).
    cbn zeta in *. simpl in Hc, Hs, Hmap, Hret. rewrite Hc, Hs.
    assert (0 < m)%nat by (apply Hpos; lia).
    split; [lia|]. split; [lia|]. split; [exact Hlen|].
    split; [|split; [exact Hall|exact Hret]].
    rewrite Hmap. apply map_ext. intros i. reflexivity.
Qed.

Lemma gh_client_retry_effects_witness :
  let out := GHClient.run_command
               (Scenarios.scripted
                  [Completed 1 "" "API rate limit exceeded";
                   Completed 1 "" "API rate limit exceeded"]
                  (Completed 0 "success" ""))
               "2026-01-01 00:00:00" GHClient.default_config ["repo"; "list"] None in
  List.length (sleeps (snd out)) = pred (calls (snd out))
  /\ draws (snd out) = pred (calls (snd out)).
Proof.
  apply (proj2 (proj2 (proj2 (proj2 (proj2
           (gh_client_retry_effects
              (Scenarios.scripted
                 [Completed 1 "" "API rate limit exceeded";
                  Completed 1 "" "API rate limit exceeded"]
                 (Completed 0 "success" ""))
              "2026-01-01 00:00:00" GHClient.default_config ("gh" :: ["repo"; "list"])
              None "" false false ""))))) (true, "success")).
  vm_compute. reflexivity.
Defined.

(** X12.  When every invocation fails with rate-limit text, the ceiling is
    N >= 1, and every delay is computed without an exception and taken by
    [time.sleep], [GHClient._retry_with_backoff] runs exactly N processes
    and fails with the exhaustion reply: the caller's
    [rate_limit_exhausted_output] when that is not empty, and otherwise the
    last standard error followed by the notice that states N and a total
    wait. *)
Theorem gh_client_rate_limit_exhaustion :
  forall (w : World) (timestamp : string) (cfg : GHClient.GHClientConfig)
         (cmd : list string) (max_retries_arg : option Z) (label : string)
         (check_stdout_for_rate_limit return_stdout_on_error : bool)
         (rate_limit_exhausted_output : string),
    let retries := SubprocessClient.get max_retries_arg (GHClient.max_retries cfg) in
    let out := GHClient._retry_with_backoff w timestamp cfg cmd max_retries_arg label
                 check_stdout_for_rate_limit return_stdout_on_error
                 rate_limit_exhausted_output in
    1 <= retries ->
    (forall k, Z.of_nat k < retries ->
               rate_limited check_stdout_for_rate_limit (spawn w k) = true) ->
    (forall k, Z.of_nat k < retries - 1 -> gh_client_delay_accepted w cfg k = true) ->
    Z.of_nat (calls (snd out)) = retries
    /\ List.length (sleeps (snd out)) = pred (Z.to_nat retries)
    /\ exists total_wait,
         fst out
         = Returns
             (false,
              if PyStr.nonempty rate_limit_exhausted_output
              then rate_limit_exhausted_output
              else GHClient.exhausted_message timestamp retries label
                     (stderr_of (spawn w (pred (Z.to_nat retries)))) total_wait).
Proof.
  intros w timestamp cfg cmd max_retries_arg label cs rs rx retries out Hpos Hall Hacc.
  unfold out, GHClient._retry_with_backoff. fold retries.
  destruct (gh_client_loop_exhausted w timestamp cfg retries label cs rs rx
              (Z.to_nat retries) 0 0%Q no_effects ltac:(lia) ltac:(lia))
    as [Hc [total Hr]].
  { intros i Hi. simpl. apply Hall. lia. }
  { intros i Hi. simpl. specialize (Hacc i ltac:(lia)).
    unfold gh_client_delay_accepted, gh_client_delay in Hacc.
    destruct (GHClient._calculate_delay cfg (Z.of_nat i) (random_draw w i)) as [d|e];
      [|discriminate].
    exists d. auto. }
  destruct (gh_client_loop_effects w timestamp cfg retries label cs rs rx
              (Z.to_nat retries) 0 0%Q no_effects ltac:(lia))
    as (m & ds & _ & _ & Hc' & Hs & _ & _ & _ & Hret).
  cbn zeta in Hret. destruct (Hret _ Hr) as [Hlen _].
  assert (m = Z.to_nat retries) by (rewrite Hc in Hc'; simpl in Hc'; lia). subst m.
  simpl in Hs, Hc.
  split; [rewrite Hc; lia|]. split; [rewrite Hs; exact Hlen|].
  exists total. exact Hr.
Qed.

Lemma gh_client_rate_limit_exhaustion_witness :
  let out := GHClient.run_command
               (Scenarios.always (Completed 1 "" "API rate limit exceeded"))
               "2026-01-01 00:00:00" GHClient.default_config ["repo"; "list"] (Some 3) in
  Z.of_nat (calls (snd out)) = 3
  /\ List.length (sleeps (snd out)) = 2%nat
  /\ exists total_wait,
       fst out
       = Returns
           (false,
            GHClient.exhausted_message "2026-01-01 00:00:00" 3 ""
              "API rate limit exceeded" total_wait).
Proof.
  apply (gh_client_rate_limit_exhaustion
           (Scenarios.always (Completed 1 "" "API rate limit exceeded"))
           "2026-01-01 00:00:00" GHClient.default_config ("gh" :: ["repo"; "list"])
           (Some 3) "" false false "").
  - simpl. lia.
  - intros k _. reflexivity.
  - intros k Hk. simpl in Hk.
    destruct k as [|[|k]]; [vm_compute; reflexivity|vm_compute; reflexivity|lia].
Defined.

Lemma nonempty_append_r (s t : string) :
  PyStr.nonempty t = true -> PyStr.nonempty (s ++ t) = true.
Proof. destruct s; simpl; auto. Qed.

(** X13.  On rate-limit exhaustion [GHClient.run_graphql] does not return
    an empty output: the empty [rate_limit_exhausted_output] it passes is
    falsy, so the reply is the standard error followed by the "GraphQL"
    rate-limit notice, as for [run_command].  Exhaustion is: every
    invocation fails with rate-limit text on its standard error or its
    standard output, and every delay is computed without an exception and
    taken by [time.sleep]. *)
Theorem run_graphql_exhaustion_reply :
  forall (w : World) (timestamp : string) (cfg : GHClient.GHClientConfig)
         (query : string) (max_retries_arg : option Z),
    let retries := SubprocessClient.get max_retries_arg (GHClient.max_retries cfg) in
    let out := GHClient.run_graphql w timestamp cfg query max_retries_arg in
    1 <= retries ->
    (forall k, Z.of_nat k < retries -> rate_limited true (spawn w k) = true) ->
    (forall k, Z.of_nat k < retries - 1 -> gh_client_delay_accepted w cfg k = true) ->
    exists text total_wait,
      fst out = Returns (false, text)
      /\ text = GHClient.exhausted_message timestamp retries "GraphQL"
                  (stderr_of (spawn w (pred (Z.to_nat retries)))) total_wait
      /\ text <> "".
Proof.
  intros w timestamp cfg query max_retries_arg retries out Hpos Hall Hacc.
  unfold out, GHClient.run_graphql, GHClient._retry_with_backoff. fold retries.
  destruct (gh_client_loop_exhausted w timestamp cfg retries "GraphQL" true true ""
              (Z.to_nat retries) 0 0%Q no_effects ltac:(lia) ltac:(lia))
    as [Hc [total Hr]].
  { intros i Hi. simpl. apply Hall. lia. }
  { intros i Hi. simpl. specialize (Hacc i ltac:(lia)).
    unfold gh_client_delay_accepted, gh_client_delay in Hacc.
    destruct (GHClient._calculate_delay cfg (Z.of_nat i) (random_draw w i)) as [d|e];
      [|discriminate].
    exists d. auto. }
  rewrite Hr. cbn [PyStr.nonempty].
  do 2 eexists. split; [reflexivity|]. split; [reflexivity|].
  intros Hempty. apply (f_equal PyStr.nonempty) in Hempty.
  unfold GHClient.exhausted_message in Hempty.
  rewrite nonempty_append_r in Hempty; [discriminate|reflexivity].
Qed.

Lemma run_graphql_exhaustion_reply_witness :
  exists text total_wait,
    fst (GHClient.run_graphql
           (Scenarios.always (Completed 1 "errors: type RATE_LIMITED" ""))
           "2026-01-01 00:00:00" GHClient.default_config "{ viewer { login } }" (Some 2))
    = Returns (false, text)
    /\ text = GHClient.exhausted_message "2026-01-01 00:00:00" 2 "GraphQL" "" total_wait
    /\ text <> "".
Proof.
  apply (run_graphql_exhaustion_reply
           (Scenarios.always (Completed 1 "errors: type RATE_LIMITED" ""))
           "2026-01-01 00:00:00" GHClient.default_config "{ viewer { login } }" (Some 2)).
  - simpl. lia.
  - intros k _. vm_compute. reflexivity.
  - intros k Hk. simpl in Hk. destruct k as [|k]; [vm_compute; reflexivity|lia].
Defined.

(** X14.  A failure without rate-limit indication is never retried by
    [GHClient._retry_with_backoff]: one process is run, nothing is slept,
    and the reply is the stripped standard error, or the stripped standard
    output in the mode that returns it. *)
Theorem gh_client_other_failure_is_final :
  forall (w : World) (timestamp : string) (cfg : GHClient.GHClientConfig)
         (cmd : list string) (max_retries_arg : option Z) (label : string)
         (check_stdout_for_rate_limit return_stdout_on_error : bool)
         (rate_limit_exhausted_output : string),
    let retries := SubprocessClient.get max_retries_arg (GHClient.max_retries cfg) in
    1 <= retries ->
    fails_otherwise check_stdout_for_rate_limit (spawn w 0) = true ->
    GHClient._retry_with_backoff w timestamp cfg cmd max_retries_arg label
      check_stdout_for_rate_limit return_stdout_on_error rate_limit_exhausted_output
    = (Returns (false, if return_stdout_on_error
                       then stdout_of (spawn w 0) else stderr_of (spawn w 0)),
       mkEffects 1 [] 0).
Proof.
  intros w timestamp cfg cmd max_retries_arg label cs rs rx retries Hpos Hfail.
  unfold GHClient._retry_with_backoff. fold retries.
  destruct (Z.to_nat retries) as [|n] eqn:Hn; [lia|].
  cbn [GHClient.attempt_loop]. unfold GHClient.attempt_body. simpl (calls no_effects).
  unfold fails_otherwise, stdout_of, stderr_of in *.
  destruct (spawn w 0) as [rc out err| | |e]; try discriminate.
  apply andb_true_iff in Hfail. destruct Hfail as [Hfail Hout].
  apply andb_true_iff in Hfail. destruct Hfail as [Hrc Herr].
  apply negb_true_iff in Hrc, Herr, Hout. rewrite Hrc, Herr.
  destruct cs; simpl in Hout |- *; rewrite ?Hout; destruct rs; reflexivity.
Qed.

Lemma gh_client_other_failure_is_final_witness :
  GHClient.run_command (Scenarios.always (Completed 1 "" "HTTP 404: Not Found "))
    "" GHClient.default_config ["api"; "repos/o/r"] None
  = (Returns (false, "HTTP 404: Not Found"), mkEffects 1 [] 0).
Proof.
  apply (gh_client_other_failure_is_final
           (Scenarios.always (Completed 1 "" "HTTP 404: Not Found "))
           "" GHClient.default_config ("gh" :: ["api"; "repos/o/r"]) None "" false false "").
  - simpl. lia.
  - reflexivity.
Defined.

End GHClientRuns.


Section FormatDuration.
Import RetryViews.

Lemma Qfloor_unique (x : Q) (z : Z) :
  (inject_Z z <= x)%Q -> (x < inject_Z (z + 1))%Q -> Qfloor x = z.
Proof.
  intros Hle Hlt.
  assert (H1 : z <= Qfloor x).
  { rewrite <- (Qfloor_Z z). apply Qfloor_resp_le. exact Hle. }
  assert (H2 : Qfloor x < z + 1).
  { rewrite Zlt_Qlt. eapply Qle_lt_trans; [apply Qfloor_le|exact Hlt]. }
  lia.
Qed.

Lemma Qfloor_minus_Z (x : Q) (k : Z) : Qfloor (x - inject_Z k) = Qfloor x - k.
Proof.
  apply Qfloor_unique.
  - pose proof (Qfloor_le x) as H. unfold Z.sub.
    rewrite inject_Z_plus, inject_Z_opp. lra.
  - pose proof (Qlt_floor x) as H.
    replace (Qfloor x - k + 1) with (Qfloor x + 1 + - k) by lia.
    rewrite (inject_Z_plus (Qfloor x + 1)), inject_Z_opp. lra.
Qed.

Lemma Qfloor_div_Z (x : Q) (d : Z) :
  0 < d -> Qfloor (x / inject_Z d) = Qfloor x / d.
Proof.
  intros Hd.
  assert (Hdq : (0 < inject_Z d)%Q).
  { change 0%Q with (inject_Z 0). rewrite <- Zlt_Qlt. exact Hd. }
  pose proof (Qfloor_le x) as Hlo. pose proof (Qlt_floor x) as Hhi.
  pose proof (Z.mul_div_le (Qfloor x) d Hd) as H1.
  pose proof (Z.mul_succ_div_gt (Qfloor x) d Hd) as H2.
  apply Qfloor_unique.
  - apply Qle_shift_div_l; [exact Hdq|].
    rewrite <- inject_Z_mult. eapply Qle_trans; [|exact Hlo].
    rewrite <- Zle_Qle. lia.
  - apply Qlt_shift_div_r; [exact Hdq|].
    rewrite <- inject_Z_mult. eapply Qlt_le_trans; [exact Hhi|].
    rewrite <- Zle_Qle. lia.
Qed.

(** X15.  For a duration of at least 0 and below [2^53] seconds, where
    the float operations [//] and [%] are exact,
    [GHClient._format_duration] prints hours (only when positive), minutes
    and seconds that add up to the whole seconds of its argument, with
    minutes and seconds below 60. *)
Theorem format_duration_parts :
  forall (seconds : Q),
    (0 <= seconds)%Q ->
    (seconds < 9007199254740992)%Q ->
    exists hours mins secs,
      0 <= hours
      /\ 0 <= mins < 60
      /\ 0 <= secs < 60
      /\ 3600 * hours + 60 * mins + secs = Qfloor seconds
      /\ GHClient._format_duration seconds
         = (if 0 <? hours
            then PyStr.of_Z hours ++ "h" ++ GHClient.pad2 mins ++ "m"
                 ++ GHClient.pad2 secs ++ "s"
            else GHClient.pad2 mins ++ "m" ++ GHClient.pad2 secs ++ "s").
Proof.
  intros seconds Hpos _.
  exists (GHClient.floordiv seconds 3600),
         (GHClient.floordiv (GHClient.fmod seconds 3600) 60),
         (Qfloor (GHClient.fmod seconds 60)).
  assert (HF : 0 <= Qfloor seconds).
  { rewrite <- (Qfloor_Z 0). apply Qfloor_resp_le. exact Hpos. }
  cut ((0 <= GHClient.floordiv seconds 3600
        /\ 0 <= GHClient.floordiv (GHClient.fmod seconds 3600) 60 < 60
        /\ 0 <= Qfloor (GHClient.fmod seconds 60) < 60
        /\ 3600 * GHClient.floordiv seconds 3600
           + 60 * GHClient.floordiv (GHClient.fmod seconds 3600) 60
           + Qfloor (GHClient.fmod seconds 60) = Qfloor seconds)).
  { intros (H1 & H2 & H3 & H4). repeat split; try tauto. }
  unfold GHClient.fmod, GHClient.floordiv.
  rewrite !Qfloor_div_Z by lia. rewrite !Qfloor_minus_Z. rewrite ?Qfloor_div_Z by lia.
  set (F := Qfloor seconds) in *.
  pose proof (Z.div_mod F 3600 ltac:(lia)) as E1.
  pose proof (Z.mod_pos_bound F 3600 ltac:(lia)) as B1.
  pose proof (Z.div_mod F 60 ltac:(lia)) as E2.
  pose proof (Z.mod_pos_bound F 60 ltac:(lia)) as B2.
  pose proof (Z.div_pos F 3600 HF ltac:(lia)) as P1.
  set (R := F - 3600 * (F / 3600)) in *.
  assert (HR : 0 <= R < 3600) by (unfold R; lia).
  pose proof (Z.div_mod R 60 ltac:(lia)) as E3.
  pose proof (Z.mod_pos_bound R 60 ltac:(lia)) as B3.
  assert (HRm : R mod 60 = F mod 60).
  { unfold R. replace (F - 3600 * (F / 3600)) with (F + (- (60 * (F / 3600))) * 60) by lia.
    apply Z.mod_add. lia. }
  repeat split; lia.
Qed.

Lemma format_duration_parts_witness :
  exists hours mins secs,
    0 <= hours
    /\ 0 <= mins < 60
    /\ 0 <= secs < 60
    /\ 3600 * hours + 60 * mins + secs = Qfloor (7325 + (1 # 2))
    /\ GHClient._format_duration (7325 + (1 # 2))
       = (if 0 <? hours
          then PyStr.of_Z hours ++ "h" ++ GHClient.pad2 mins ++ "m"
               ++ GHClient.pad2 secs ++ "s"
          else GHClient.pad2 mins ++ "m" ++ GHClient.pad2 secs ++ "s").
Proof.
  apply (format_duration_parts (7325 + (1 # 2))).
  - vm_compute. discriminate.
  - vm_compute. reflexivity.
Defined.

End FormatDuration.


(* ================================================================== *)
(** * Further properties of [run_gh_command] *)

Section RunGhLoop.
Import Os RetryViews.

Variable w : World.
Variable max_retries : Z.

Local Abbreviation body := (PrQualityCheck.attempt_body w max_retries).
Local Abbreviation loop := (PrQualityCheck.attempt_loop w max_retries).

Lemma run_gh_body_cases attempt total_wait fx :
  (exists r, body attempt total_wait fx = (PrQualityCheck.Done r, ran fx))
  \/ (attempt < max_retries - 1
      /\ fails_rate_limited (spawn w (calls fx)) = true
      /\ body attempt total_wait fx
         = (PrQualityCheck.Next (total_wait + Z.min (2 ^ (attempt + 1)) 300),
            slept (inject_Z (Z.min (2 ^ (attempt + 1)) 300)) (ran fx))).
Proof.
  unfold PrQualityCheck.attempt_body, fails_rate_limited.
  destruct (spawn w (calls fx)) as [rc out err| | |e]; try (left; eauto; fail).
  destruct (rc =? 0); [left; eauto|].
  destruct (PyStr.contains "rate limit" (PyStr.lower (PyStr.strip err))); [|left; eauto].
  destruct (attempt <? max_retries - 1) eqn:Hlt; [|left; eauto].
  right. apply Z.ltb_lt in Hlt. split; [exact Hlt|]. split; [reflexivity|].
  unfold PrQualityCheck.max_wait_per_retry.
  destruct (sleep_cases w (inject_Z (Z.min (2 ^ (attempt + 1)) 300)) (ran fx))
    as [[_ Hs]|[Hn _]]; [|rewrite run_gh_delay_accepted in Hn; discriminate].
  rewrite Hs. reflexivity.
Qed.

Lemma run_gh_loop_effects n :
  forall attempt total_wait fx,
    attempt + Z.of_nat n = max_retries ->
    exists m,
      (m <= n)%nat /\ (0 < n -> 0 < m)%nat
      /\ (fails_rate_limited (spawn w (calls fx)) = false -> (m <= 1)%nat)
      /\ calls (snd (loop n attempt total_wait fx)) = (calls fx + m)%nat
      /\ sleeps (snd (loop n attempt total_wait fx))
         = (sleeps fx
            ++ map (fun i => inject_Z (Z.min (2 ^ (attempt + Z.of_nat i + 1)) 300))
                   (seq 0 (pred m)))%list
      /\ draws (snd (loop n attempt total_wait fx)) = draws fx.
Proof.
  induction n as [|n IH]; intros attempt total_wait fx Hn.
  - exists 0%nat. simpl. rewrite app_nil_r. repeat split; lia.
  - cbn [PrQualityCheck.attempt_loop].
    destruct (run_gh_body_cases attempt total_wait fx) as [[r Hb]|(Hlt & Hrl & Hb)];
      rewrite Hb.
    + exists 1%nat. simpl. rewrite app_nil_r. repeat split; lia.
    + destruct (IH (attempt + 1) (total_wait + Z.min (2 ^ (attempt + 1)) 300)
                  (slept (inject_Z (Z.min (2 ^ (attempt + 1)) 300)) (ran fx))
                  ltac:(lia)) as (m & Hm & Hpos & _ & Hc & Hs & Hd).
      assert (Hm1 : (0 < m)%nat) by (apply Hpos; lia).
      exists (S m). cbn [slept ran calls sleeps draws] in Hc, Hs, Hd.
      split; [lia|]. split; [lia|]. split; [congruence|]. split; [lia|].
      split; [|exact Hd].
      rewrite Hs. cbn [pred]. destruct m as [|p]; [lia|]. cbn [pred].
      rewrite map_seq_succ, <- app_assoc. cbn [app].
      rewrite Z.add_0_r. do 2 f_equal.
      apply map_ext. intros i. do 3 f_equal. lia.
Qed.

Lemma run_gh_loop_exhausted n :
  forall attempt total_wait fx,
    attempt + Z.of_nat n = max_retries ->
    (0 < n)%nat ->
    (forall i, (i < n)%nat -> fails_rate_limited (spawn w (calls fx + i)) = true) ->
    calls (snd (loop n attempt total_wait fx)) = (calls fx + n)%nat
    /\ fst (loop n attempt total_wait fx)
       = Returns
           (false,
            PrQualityCheck.exhausted_message max_retries
              (stderr_of (spawn w (calls fx + pred n)))
              (fold_left Z.add
                 (map (fun i => Z.min (2 ^ (attempt + Z.of_nat i + 1)) 300)
                      (seq 0 (pred n)))
                 total_wait)).
Proof.
  induction n as [|n IH]; intros attempt total_wait fx Hn Hpos Hall; [lia|].
  cbn [PrQualityCheck.attempt_loop].
  destruct n as [|n].
  - pose proof (Hall 0%nat ltac:(lia)) as H0. rewrite Nat.add_0_r in H0.
    cbn [pred seq map fold_left]. rewrite Nat.add_0_r.
    unfold PrQualityCheck.attempt_body, fails_rate_limited, stderr_of in *.
    destruct (spawn w (calls fx)) as [rc out err| | |e]; try discriminate.
    apply andb_true_iff in H0. destruct H0 as [Hrc Hrl].
    apply negb_true_iff in Hrc. rewrite Hrc, Hrl.
    assert (Hlast : (attempt <? max_retries - 1) = false) by (apply Z.ltb_ge; lia).
    rewrite Hlast. simpl. split; [lia|reflexivity].
  - pose proof (Hall 0%nat ltac:(lia)) as H0. rewrite Nat.add_0_r in H0.
    rewrite (run_gh_body_rate_limited w max_retries attempt total_wait fx H0 ltac:(lia)).
    specialize (IH (attempt + 1) (total_wait + Z.min (2 ^ (attempt + 1)) 300)
                  (slept (inject_Z (Z.min (2 ^ (attempt + 1)) 300)) (ran fx))
                  ltac:(lia) ltac:(lia)).
    cbn [slept ran calls sleeps draws] in IH.
    assert (Hall' : forall i, (i < S n)%nat ->
                              fails_rate_limited (spawn w (S (calls fx) + i)) = true).
    { intros i Hi. replace (S (calls fx) + i)%nat with (calls fx + S i)%nat by lia.
      apply Hall. lia. }
    specialize (IH Hall'). destruct IH as [Hc Hr].
    split; [rewrite Hc; lia|]. rewrite Hr.
    replace (S (calls fx) + pred (S n))%nat with (calls fx + pred (S (S n)))%nat
      by (simpl; lia).
    cbn [pred]. rewrite (map_seq_succ _ n). cbn [fold_left].
    rewrite Z.add_0_r.
    assert (Hmap : map (fun i => Z.min (2 ^ (attempt + 1 + Z.of_nat i + 1)) 300) (seq 0 n)
                   = map (fun i => Z.min (2 ^ (attempt + Z.of_nat (S i) + 1)) 300) (seq 0 n)).
    { apply map_ext. intros i. do 2 f_equal. lia. }
    rewrite Hmap. reflexivity.
Qed.

End RunGhLoop.

Section RunGhRuns.
Import Os RetryViews.

Lemma run_gh_delay_bounds (k : nat) :
  2 <= run_gh_delay k <= 300 /\ run_gh_delay k <= run_gh_delay (S k).
Proof.
  unfold run_gh_delay.
  assert (H1 : 2 ^ 1 <= 2 ^ (Z.of_nat k + 1)) by (apply Z.pow_le_mono_r; lia).
  assert (H2 : 2 ^ (Z.of_nat k + 1) <= 2 ^ (Z.of_nat (S k) + 1))
    by (apply Z.pow_le_mono_r; lia).
  change (2 ^ 1) with 2 in H1. lia.
Qed.

(** X16.  [run_gh_command] never runs more processes than [max_retries],
    runs at least one when [max_retries >= 1], and sleeps exactly once
    between consecutive processes, always on the same schedule: 2, 4, 8,
    ... seconds, doubling up to the cap of 300.  The delays never decrease
    and stay between 2 and 300 seconds. *)
Theorem run_gh_command_effects :
  forall (w : World) (args : list string) (max_retries : Z),
    let out := PrQualityCheck.run_gh_command w args max_retries in
    Z.min 1 (Z.max 0 max_retries) <= Z.of_nat (calls (snd out))
    /\ Z.of_nat (calls (snd out)) <= Z.max 0 max_retries
    /\ sleeps (snd out)
       = map (fun k => inject_Z (run_gh_delay k)) (seq 0 (pred (calls (snd out))))
    /\ (forall k, 2 <= run_gh_delay k <= 300 /\ run_gh_delay k <= run_gh_delay (S k)).
Proof.
  intros w args max_retries out.
  unfold out, PrQualityCheck.run_gh_command.
  destruct (Z.le_gt_cases max_retries 0) as [Hle|Hgt].
  - replace (Z.to_nat max_retries) with 0%nat by lia. simpl.
    split; [lia|]. split; [lia|]. split; [reflexivity|exact run_gh_delay_bounds].
  - destruct (run_gh_loop_effects w max_retries (Z.to_nat max_retries) 0 0 no_effects
                ltac:(lia)) as (m & Hm & Hpos & _ & Hc & Hs & _).
    simpl in Hc, Hs. rewrite Hc, Hs.
    assert (0 < m)%nat by (apply Hpos; lia).
    split; [lia|]. split; [lia|]. split; [|exact run_gh_delay_bounds].
    apply map_ext. intros k. unfold run_gh_delay. reflexivity.
Qed.

(** X17.  [run_gh_command] retries rate limits only: when the first
    process does anything but fail with rate-limit text on its standard
    error (success, another failure, a timeout, a missing [gh]), exactly
    one process is run and nothing is slept. *)
Theorem run_gh_command_retries_rate_limits_only :
  forall (w : World) (args : list string) (max_retries : Z),
    let out := PrQualityCheck.run_gh_command w args max_retries in
    1 <= max_retries ->
    fails_rate_limited (spawn w 0) = false ->
    calls (snd out) = 1%nat /\ sleeps (snd out) = [].
Proof.
  intros w args max_retries out Hpos Hnot.
  unfold out, PrQualityCheck.run_gh_command.
  destruct (run_gh_loop_effects w max_retries (Z.to_nat max_retries) 0 0 no_effects
              ltac:(lia)) as (m & Hm & Hm0 & Hm1 & Hc & Hs & _).
  simpl in Hc, Hs, Hm1. specialize (Hm1 Hnot).
  assert (0 < m)%nat by (apply Hm0; lia).
  assert (Hone : m = 1%nat) by lia. rewrite Hone in Hc, Hs.
  split; [exact Hc|exact Hs].
Qed.

Lemma run_gh_command_retries_rate_limits_only_witness :
  let out := PrQualityCheck.run_gh_command (Scenarios.always TimeoutExpired)
               ["pr"; "view"; "1"] 20 in
  calls (snd out) = 1%nat /\ sleeps (snd out) = [].
Proof.
  apply (run_gh_command_retries_rate_limits_only (Scenarios.always TimeoutExpired)
           ["pr"; "view"; "1"] 20).
  - lia.
  - reflexivity.
Defined.

(** X18.  When every invocation fails with rate-limit text and
    [max_retries] is N >= 1, [run_gh_command] runs exactly N processes and
    fails with the last standard error followed by the notice that states N
    and the whole minutes of the total time slept. *)
Theorem run_gh_command_rate_limit_exhaustion :
  forall (w : World) (args : list string) (max_retries : Z),
    let out := PrQualityCheck.run_gh_command w args max_retries in
    1 <= max_retries ->
    (forall k, Z.of_nat k < max_retries -> fails_rate_limited (spawn w k) = true) ->
    Z.of_nat (calls (snd out)) = max_retries
    /\ fst out
       = Returns
           (false,
            PrQualityCheck.exhausted_message max_retries
              (stderr_of (spawn w (pred (Z.to_nat max_retries))))
              (fold_left Z.add
                 (map run_gh_delay (seq 0 (pred (Z.to_nat max_retries)))) 0)).
Proof.
  intros w args max_retries out Hpos Hall.
  unfold out, PrQualityCheck.run_gh_command.
  destruct (run_gh_loop_exhausted w max_retries (Z.to_nat max_retries) 0 0 no_effects
              ltac:(lia) ltac:(lia)) as [Hc Hr].
  { intros i Hi. simpl. apply Hall. lia. }
  split; [rewrite Hc; simpl; lia|].
  rewrite Hr. reflexivity.
Qed.

Lemma run_gh_command_rate_limit_exhaustion_witness :
  let out := PrQualityCheck.run_gh_command
               (Scenarios.always (Completed 1 "" "API rate limit exceeded"))
               ["pr"; "view"; "1"] 3 in
  Z.of_nat (calls (snd out)) = 3
  /\ fst out
     = Returns
         (false,
          PrQualityCheck.exhausted_message 3 "API rate limit exceeded"
            (fold_left Z.add (map run_gh_delay (seq 0 2)) 0)).
Proof.
  apply (run_gh_command_rate_limit_exhaustion
           (Scenarios.always (Completed 1 "" "API rate limit exceeded"))
           ["pr"; "view"; "1"] 3).
  - lia.
  - intros k _. reflexivity.
Defined.

End RunGhRuns.


(* ================================================================== *)
(** * Further properties of the CI resolution *)

Section CIScanFacts.
Import PrQualityCheck CiViews.

(** What [note_evidence] does to the flags and the evidence texts. *)
Lemma note_evidence_spec kind text hb ht be te :
  note_evidence kind text hb ht be te
  = (hb || names_build text, ht || names_test text,
     if negb hb && names_build text then kind ++ ": " ++ text else be,
     if negb ht && names_test text then kind ++ ": " ++ text else te).
Proof.
  unfold note_evidence, names_build, names_test.
  generalize (any_in BUILD_CHECK_PATTERNS (PyStr.lower text)).
  generalize (any_in TEST_CHECK_PATTERNS (PyStr.lower text)).
  intros t b. destruct hb, ht, b, t; reflexivity.
Qed.

Lemma nonempty_append_l (s t : string) :
  PyStr.nonempty s = true -> PyStr.nonempty (s ++ t) = true.
Proof. destruct s; simpl; [discriminate|reflexivity]. Qed.

Lemma note_evidence_ok kind text hb ht be te :
  PyStr.nonempty kind = true ->
  evidence_ok hb be -> evidence_ok ht te ->
  let '(hb', ht', be', te') := note_evidence kind text hb ht be te in
  evidence_ok hb' be' /\ evidence_ok ht' te'.
Proof.
  intros Hk Hb Ht. rewrite note_evidence_spec. unfold evidence_ok in *.
  split.
  - destruct hb; simpl; [exact Hb|].
    destruct (names_build text); [|exact Hb].
    symmetry. apply nonempty_append_l. exact Hk.
  - destruct ht; simpl; [exact Ht|].
    destruct (names_test text); [|exact Ht].
    symmetry. apply nonempty_append_l. exact Hk.
Qed.


(** One check-run, field by field. *)
Lemma scan_check_spec s check :
  scan_check s check
  = mkScan
      (sc_failed_checks s ++ if is_failed check then [name_of check] else [])
      (sc_failed_check_urls s ++ if is_failed check then [url_of check] else [])
      (sc_check_names s ++ [name_of check])
      (sc_job_ids s ++ job_ids_of [check])
      (sc_has_pending s || is_pending check)
      true
      (sc_has_build_check s || names_build (name_of check))
      (sc_has_test_check s || names_test (name_of check))
      (if negb (sc_has_build_check s) && names_build (name_of check)
       then "job: " ++ name_of check else sc_build_evidence s)
      (if negb (sc_has_test_check s) && names_test (name_of check)
       then "job: " ++ name_of check else sc_test_evidence s).
Proof.
  unfold scan_check. fold (name_of check). rewrite note_evidence_spec.
  unfold is_failed, is_pending, job_ids_of. cbn [flat_map].
  assert (Hids : match id check with
                 | Some check_id =>
                     if check_id =? 0 then sc_job_ids s
                     else (sc_job_ids s ++ [check_id])%list
                 | None => sc_job_ids s
                 end
                 = (sc_job_ids s
                    ++ (match id check with
                        | Some check_id => if check_id =? 0 then [] else [check_id]
                        | None => []
                        end ++ []))%list).
  { destruct (id check) as [i|]; [destruct (i =? 0)|]; simpl; now rewrite ?app_nil_r. }
  rewrite Hids. fold (url_of check).
  destruct (opt_str_eqb (ck_status check) "completed");
    destruct (str_in (get (conclusion check) "") FAILED_CONCLUSIONS);
    cbn [negb andb]; rewrite ?app_nil_r, ?orb_false_r, ?orb_true_r; reflexivity.
Qed.

Lemma find_app_none {A} (f : A -> bool) (l1 l2 : list A) :
  find f (l1 ++ l2) = match find f l1 with Some x => Some x | None => find f l2 end.
Proof.
  induction l1 as [|a l1 IH]; simpl; [reflexivity|].
  destruct (f a); [reflexivity|exact IH].
Qed.

(** The whole check-run loop, started from the empty accumulators. *)
Lemma scan_checks_spec checks :
  forall seen,
    fold_left scan_check checks (fold_left scan_check seen scan_start)
    = fold_left scan_check (seen ++ checks) scan_start.
Proof. intros seen. now rewrite fold_left_app. Qed.

Lemma existsb_find {A} (f : A -> bool) (l : list A) :
  existsb f l = match find f l with Some _ => true | None => false end.
Proof.
  induction l as [|a l IH]; simpl; [reflexivity|].
  destruct (f a); [reflexivity|exact IH].
Qed.

Lemma scan_from_start checks :
  fold_left scan_check checks scan_start
  = mkScan
      (map name_of (filter is_failed checks))
      (map url_of (filter is_failed checks))
      (map name_of checks)
      (job_ids_of checks)
      (existsb is_pending checks)
      (truthy checks)
      (existsb (fun check => names_build (name_of check)) checks)
      (existsb (fun check => names_test (name_of check)) checks)
      (job_evidence names_build checks)
      (job_evidence names_test checks).
Proof.
  induction checks as [|check checks IH] using rev_ind; [reflexivity|].
  rewrite fold_left_app. cbn [fold_left]. rewrite IH, scan_check_spec.
  cbn [sc_failed_checks sc_failed_check_urls sc_check_names sc_job_ids sc_has_pending
       sc_has_build_check sc_has_test_check sc_build_evidence sc_test_evidence].
  unfold job_ids_of, job_evidence.
  rewrite filter_app, !map_app, flat_map_app, !existsb_app, !find_app_none.
  cbn [filter existsb find flat_map map]. rewrite !orb_false_r, ?app_nil_r.
  rewrite !existsb_find.
  assert (Ht : truthy (checks ++ [check]) = true) by (destruct checks; reflexivity).
  rewrite Ht.
  f_equal.
  - destruct (is_failed check); reflexivity.
  - destruct (is_failed check); reflexivity.
  - destruct (find _ checks); [reflexivity|]. cbn [negb andb].
    destruct (names_build (name_of check)); reflexivity.
  - destruct (find (fun c => names_test (name_of c)) checks); [reflexivity|].
    cbn [negb andb]. destruct (names_test (name_of check)); reflexivity.
Qed.

End CIScanFacts.


Section CIDescentFacts.
Import PrQualityCheck CiViews.

Variable gh : list string -> bool * string.
Variable json_loads_pr : string -> option PrData.
Variable json_loads_check : string -> option Check.

(** The step loop keeps "flag set iff evidence present". *)
Lemma steps_loop_ok steps :
  forall hb ht be te hb' ht' be' te',
    steps_loop steps hb ht be te = (hb', ht', be', te') ->
    evidence_ok hb be -> evidence_ok ht te ->
    evidence_ok hb' be' /\ evidence_ok ht' te'.
Proof.
  induction steps as [|step steps IH]; intros hb ht be te hb' ht' be' te' Hl Hb Ht.
  - simpl in Hl. injection Hl as <- <- <- <-. auto.
  - cbn [steps_loop] in Hl.
    pose proof (note_evidence_ok "step" step hb ht be te eq_refl Hb Ht) as Hok.
    destruct (note_evidence "step" step hb ht be te) as [[[hb1 ht1] be1] te1].
    destruct Hok as [Hb1 Ht1].
    destruct (hb1 && ht1).
    + injection Hl as <- <- <- <-. auto.
    + eapply IH; eauto.
Qed.

Lemma check_steps_ok repo job_id sb st sbe ste :
  check_steps_for_build_test gh repo job_id = (sb, st, sbe, ste) ->
  evidence_ok sb sbe /\ evidence_ok st ste.
Proof.
  unfold check_steps_for_build_test. intros H.
  eapply steps_loop_ok; [exact H| |]; reflexivity.
Qed.

(** The job loop fetches a prefix of the job ids it is given, never clears
    a flag or replaces the evidence of a flag already set, and keeps "flag
    set iff evidence present". *)
Lemma jobs_loop_spec repo ids :
  forall hb ht be te fetched hb' ht' be' te' fetched',
    jobs_loop gh repo ids hb ht be te fetched = (hb', ht', be', te', fetched') ->
    (exists k, fetched' = (fetched ++ firstn k ids)%list)
    /\ (hb = true -> hb' = true /\ be' = be)
    /\ (ht = true -> ht' = true /\ te' = te)
    /\ (hb = true -> ht = true -> fetched' = fetched)
    /\ (evidence_ok hb be -> evidence_ok hb' be')
    /\ (evidence_ok ht te -> evidence_ok ht' te').
Proof.
  induction ids as [|job_id ids IH];
    intros hb ht be te fetched hb' ht' be' te' fetched' Hl.
  - simpl in Hl. injection Hl as <- <- <- <- <-.
    repeat split; auto. exists 0%nat. now rewrite app_nil_r.
  - cbn [jobs_loop] in Hl. destruct (hb && ht) eqn:Hboth.
    + injection Hl as <- <- <- <- <-.
      repeat split; auto. exists 0%nat. now rewrite app_nil_r.
    + destruct (check_steps_for_build_test gh repo job_id) as [[[sb st] sbe] ste] eqn:Hs.
      destruct (check_steps_ok repo job_id sb st sbe ste Hs) as [Hsb Hst].
      set (hb1 := fst (if negb hb && sb then (true, sbe) else (hb, be))) in *.
      destruct (if negb hb && sb then (true, sbe) else (hb, be)) as [hbn ben] eqn:Eb.
      destruct (if negb ht && st then (true, ste) else (ht, te)) as [htn ten] eqn:Et.
      apply IH in Hl. destruct Hl as ((k & Hk) & Hkb & Hkt & _ & Hob & Hot).
      split; [exists (S k); rewrite Hk, <- app_assoc; reflexivity|].
      split; [|split; [|split; [|split]]].
      * intros ->. simpl in Eb. injection Eb as <- <-. apply Hkb. reflexivity.
      * intros ->. rewrite andb_false_l in Et. injection Et as <- <-. apply Hkt. reflexivity.
      * intros -> ->. discriminate.
      * intros Hb. apply Hob. unfold evidence_ok in *.
        destruct hb, sb; simpl in Eb; injection Eb as <- <-; auto.
      * intros Ht. apply Hot. unfold evidence_ok in *.
        destruct ht, st; simpl in Et; injection Et as <- <-; auto.
Qed.

Lemma firstn_firstn_prefix {A} (k n : nat) (l : list A) :
  firstn k (firstn n l) = firstn (List.length (firstn k (firstn n l))) l.
Proof.
  rewrite firstn_firstn, length_firstn.
  destruct (Nat.le_ge_cases (Nat.min k n) (List.length l)) as [Hle|Hge].
  - f_equal. lia.
  - replace (Nat.min (Nat.min k n) (List.length l)) with (List.length l) by lia.
    rewrite firstn_all. apply firstn_all2. exact Hge.
Qed.

(** Everything [resolve_check_runs] returns, in terms of the check-runs the
    reply holds. *)
Lemma resolve_check_runs_cases repo output :
  let checks := observed_checks json_loads_check output in
  let r := fst (resolve_check_runs gh json_loads_check repo output) in
  let fetched := snd (resolve_check_runs gh json_loads_check repo output) in
  (checks = [] /\ r = ci_status_only "no_ci" /\ fetched = [])
  \/ (checks <> []
      /\ check_names r = map name_of checks
      /\ (status r = "pending" \/ status r = "failure" \/ status r = "success")
      /\ (status r = "failure" <-> failed_checks r <> [])
      /\ (failed_checks r = [] /\ failed_check_urls r = []
          \/ failed_checks r = map name_of (filter is_failed checks)
             /\ failed_check_urls r = map url_of (filter is_failed checks)
             /\ status r = "failure")
      /\ evidence_ok (has_build_check r) (build_evidence r)
      /\ evidence_ok (has_test_check r) (test_evidence r)
      /\ fetched = firstn (List.length fetched) (job_ids_of checks)
      /\ (List.length fetched <= 5)%nat
      /\ (existsb (fun check => names_build (name_of check)) checks = true ->
          has_build_check r = true
          /\ build_evidence r = job_evidence names_build checks)
      /\ (existsb (fun check => names_test (name_of check)) checks = true ->
          has_test_check r = true
          /\ test_evidence r = job_evidence names_test checks)
      /\ (existsb (fun check => names_build (name_of check)) checks = true ->
          existsb (fun check => names_test (name_of check)) checks = true ->
          fetched = [])).
Proof.
  cbn zeta. unfold resolve_check_runs, observed_checks.
  rewrite scan_lines_checks.
  set (checks := flat_map _ _).
  rewrite scan_from_start.
  cbn [sc_failed_checks sc_failed_check_urls sc_check_names sc_job_ids sc_has_pending
       sc_has_checks sc_has_build_check sc_has_test_check sc_build_evidence
       sc_test_evidence].
  destruct checks as [|c0 cs] eqn:Hchecks; [left; auto|].
  rewrite <- Hchecks. right.
  assert (Htruthy : truthy checks = true) by (rewrite Hchecks; reflexivity).
  rewrite Htruthy. cbn [negb].
  set (hbj := existsb (fun check => names_build (name_of check)) checks).
  set (htj := existsb (fun check => names_test (name_of check)) checks).
  assert (Hbj : evidence_ok hbj (job_evidence names_build checks)).
  { unfold evidence_ok, hbj, job_evidence. rewrite existsb_find.
    destruct (find _ checks); reflexivity. }
  assert (Htj : evidence_ok htj (job_evidence names_test checks)).
  { unfold evidence_ok, htj, job_evidence. rewrite existsb_find.
    destruct (find _ checks); reflexivity. }
  assert (Hdesc :
    exists hb ht be te fetched,
      (if (negb hbj || negb htj) && truthy (job_ids_of checks)
       then jobs_loop gh repo (firstn 5 (job_ids_of checks)) hbj htj
              (job_evidence names_build checks) (job_evidence names_test checks) []
       else (hbj, htj, job_evidence names_build checks,
             job_evidence names_test checks, []))
      = (hb, ht, be, te, fetched)
      /\ evidence_ok hb be /\ evidence_ok ht te
      /\ fetched = firstn (List.length fetched) (job_ids_of checks)
      /\ (List.length fetched <= 5)%nat
      /\ (hbj = true -> hb = true /\ be = job_evidence names_build checks)
      /\ (htj = true -> ht = true /\ te = job_evidence names_test checks)
      /\ (hbj = true -> htj = true -> fetched = [])).
  { destruct ((negb hbj || negb htj) && truthy (job_ids_of checks)) eqn:Hcond.
    - destruct (jobs_loop gh repo (firstn 5 (job_ids_of checks)) hbj htj
                  (job_evidence names_build checks) (job_evidence names_test checks) [])
        as [[[[hb ht] be] te] fetched] eqn:Hl.
      exists hb, ht, be, te, fetched. split; [reflexivity|].
      destruct (jobs_loop_spec repo _ _ _ _ _ _ _ _ _ _ _ Hl)
        as ((k & Hk) & Hkb & Hkt & Hboth & Hob & Hot).
      cbn [app] in Hk. subst fetched.
      repeat split; auto.
      + apply firstn_firstn_prefix.
      + rewrite firstn_firstn, length_firstn. lia.
      + apply Hkb; assumption.
      + apply Hkb; assumption.
      + apply Hkt; assumption.
      + apply Hkt; assumption.
    - exists hbj, htj, (job_evidence names_build checks),
        (job_evidence names_test checks), []. repeat split; auto; simpl; lia. }
  destruct Hdesc as (hb & ht & be & te & fetched & Heq & Hob & Hot & Hpre & Hlen
                     & Hkb & Hkt & Hboth).
  rewrite Heq.
  destruct (existsb is_pending checks).
  { cbn [fst snd check_names status failed_checks failed_check_urls has_build_check
         has_test_check build_evidence test_evidence].
    split; [rewrite Hchecks; discriminate|]. split; [reflexivity|].
    split; [auto|]. split; [split; [discriminate|congruence]|].
    split; [auto|]. repeat split; auto; try (apply Hkb; assumption);
      try (apply Hkt; assumption). }
  destruct (truthy (map name_of (filter is_failed checks))) eqn:Hf.
  { cbn [fst snd check_names status failed_checks failed_check_urls has_build_check
         has_test_check build_evidence test_evidence].
    split; [rewrite Hchecks; discriminate|]. split; [reflexivity|].
    split; [auto|].
    split; [split; [intros _ He; rewrite He in Hf; discriminate|reflexivity]|].
    split; [right; auto|]. repeat split; auto; try (apply Hkb; assumption);
      try (apply Hkt; assumption). }
  cbn [fst snd check_names status failed_checks failed_check_urls has_build_check
       has_test_check build_evidence test_evidence].
  split; [rewrite Hchecks; discriminate|]. split; [reflexivity|].
  split; [auto|]. split; [split; [discriminate|congruence]|].
  split; [auto|]. repeat split; auto; try (apply Hkb; assumption);
    try (apply Hkt; assumption).
Qed.

End CIDescentFacts.


Section CIResultShapes.
Import PrQualityCheck CiViews.

Variable gh : list string -> bool * string.
Variable json_loads_pr : string -> option PrData.
Variable json_loads_check : string -> option Check.
Variable repo : string.
Variable pr_number : Z.

Local Abbreviation traced :=
  (check_post_merge_ci_status_traced gh json_loads_pr json_loads_check repo pr_number).
Local Abbreviation result :=
  (check_post_merge_ci_status gh json_loads_pr json_loads_check repo pr_number).
Local Abbreviation reply := (check_runs_reply gh json_loads_pr repo pr_number).

(** The three shapes of a resolution. *)
Lemma check_post_merge_ci_status_shapes :
  (reply = None /\ traced = (ci_status_only "unknown", []))
  \/ (exists output,
        reply = Some output
        /\ observed_checks json_loads_check output = []
        /\ traced = (ci_status_only "no_ci", []))
  \/ (exists output,
        reply = Some output
        /\ observed_checks json_loads_check output <> []
        /\ traced = resolve_check_runs gh json_loads_check repo output).
Proof.
  rewrite check_post_merge_ci_status_traced_reply.
  destruct reply as [output|]; [|left; auto]. right.
  destruct (resolve_check_runs_cases gh json_loads_check repo output)
    as [(Hnil & Hr & Hf)|(Hne & _)].
  - left. exists output. repeat split; auto.
    destruct (resolve_check_runs gh json_loads_check repo output) as [r f].
    simpl in Hr, Hf. now subst.
  - right. exists output. auto.
Qed.

End CIResultShapes.

Section CIResults.
Import PrQualityCheck CiViews.

(** X19.  In every result of [check_post_merge_ci_status] the lists
    [failed_checks] and [failed_check_urls] have the same length, and the
    status is "failure" exactly when [failed_checks] is not empty. *)
Theorem ci_failure_iff_failed_checks :
  forall (gh : list string -> bool * string)
         (json_loads_pr : string -> option PrData)
         (json_loads_check : string -> option Check)
         (repo : string) (pr_number : Z),
    let r := check_post_merge_ci_status gh json_loads_pr json_loads_check repo pr_number in
    List.length (failed_checks r) = List.length (failed_check_urls r)
    /\ (status r = "failure" <-> failed_checks r <> []).
Proof.
  intros gh jpr jck repo pr_number r. unfold r, check_post_merge_ci_status.
  destruct (check_post_merge_ci_status_shapes gh jpr jck repo pr_number)
    as [(_ & Ht)|[(output & _ & _ & Ht)|(output & _ & _ & Ht)]]; rewrite Ht.
  - simpl. split; [reflexivity|]. split; [discriminate|congruence].
  - simpl. split; [reflexivity|]. split; [discriminate|congruence].
  - destruct (resolve_check_runs_cases gh jck repo output)
      as [(Hnil & Hr & _)|(_ & _ & _ & Hiff & Hlists & _)].
    + rewrite Hr. simpl. split; [reflexivity|]. split; [discriminate|congruence].
    + split; [|exact Hiff].
      destruct Hlists as [[H1 H2]|(H1 & H2 & _)]; rewrite H1, H2; [reflexivity|].
      now rewrite !length_map.
Qed.

(** The names of check-runs that all carry one. *)
Lemma named_checks_names (checks : list Check) :
  Forall (fun check => name check <> None) checks ->
  map Some (map name_of checks) = map name checks.
Proof.
  induction 1 as [|check l Hc _ IH]; [reflexivity|].
  cbn [map]. rewrite IH. unfold name_of.
  destruct (name check); [reflexivity|contradiction].
Qed.

(** X20.  Once a reply with at least one check-run is read, in which every
    check-run carries its name, [check_names] lists the names of the
    check-runs in order, and a "failure" result lists in [failed_checks]
    and [failed_check_urls] the names and URLs of exactly the completed
    check-runs whose conclusion is failure, cancelled, timed_out or
    action_required, in order; a URL is listed as the reply gives it, which
    is [None] for a null URL and the empty string for an absent key. *)
Theorem ci_lists_report_observed_checks :
  forall (gh : list string -> bool * string)
         (json_loads_pr : string -> option PrData)
         (json_loads_check : string -> option Check)
         (repo : string) (pr_number : Z) (output : string),
    let checks := observed_checks json_loads_check output in
    let r := check_post_merge_ci_status gh json_loads_pr json_loads_check repo pr_number in
    check_runs_reply gh json_loads_pr repo pr_number = Some output ->
    checks <> [] ->
    Forall (fun check => name check <> None) checks ->
    map Some (check_names r) = map name checks
    /\ (status r = "failure" ->
        map Some (failed_checks r) = map name (filter is_failed checks)
        /\ failed_check_urls r = map url_of (filter is_failed checks)).
Proof.
  intros gh jpr jck repo pr_number output checks r Hreply Hne Hnamed.
  unfold r, check_post_merge_ci_status.
  rewrite check_post_merge_ci_status_traced_reply, Hreply.
  destruct (resolve_check_runs_cases gh jck repo output)
    as [(Hnil & _)|(_ & Hnames & _ & Hiff & Hlists & _)]; [contradiction|].
  split; [rewrite Hnames; apply named_checks_names; exact Hnamed|]. intros Hfail.
  destruct Hlists as [[Hnone _]|(Hf & Hu & _)].
  - apply Hiff in Hfail. contradiction.
  - split; [|exact Hu]. rewrite Hf. apply named_checks_names.
    apply Forall_forall. intros check Hin. apply filter_In in Hin.
    exact (proj1 (Forall_forall _ _) Hnamed check (proj1 Hin)).
Qed.

Lemma ci_lists_report_observed_checks_witness :
  let reply := "F" ++ String nl "N" in
  let r := check_post_merge_ci_status (CiScenarios.gh_replies reply)
             CiScenarios.json_pr CiScenarios.json_check "test/repo" 123 in
  map Some (check_names r) = [Some "ci"; Some "deploy"]
  /\ (status r = "failure" ->
      map Some (failed_checks r) = [Some "ci"; Some "deploy"]
      /\ failed_check_urls r = [Some "https://example.com/failed"; None]).
Proof.
  apply (ci_lists_report_observed_checks
           (CiScenarios.gh_replies ("F" ++ String nl "N"))
           CiScenarios.json_pr CiScenarios.json_check "test/repo" 123
           ("F" ++ String nl "N")).
  - reflexivity.
  - vm_compute. discriminate.
  - vm_compute. repeat constructor; discriminate.
Defined.

(** X21.  In every result of [check_post_merge_ci_status] a build or test
    flag is set exactly when the matching evidence text is not empty. *)
Theorem ci_evidence_flags_match_texts :
  forall (gh : list string -> bool * string)
         (json_loads_pr : string -> option PrData)
         (json_loads_check : string -> option Check)
         (repo : string) (pr_number : Z),
    let r := check_post_merge_ci_status gh json_loads_pr json_loads_check repo pr_number in
    has_build_check r = PyStr.nonempty (build_evidence r)
    /\ has_test_check r = PyStr.nonempty (test_evidence r).
Proof.
  intros gh jpr jck repo pr_number r. unfold r, check_post_merge_ci_status.
  destruct (check_post_merge_ci_status_shapes gh jpr jck repo pr_number)
    as [(_ & Ht)|[(output & _ & _ & Ht)|(output & _ & _ & Ht)]]; rewrite Ht.
  - split; reflexivity.
  - split; reflexivity.
  - destruct (resolve_check_runs_cases gh jck repo output)
      as [(Hnil & Hr & _)|(_ & _ & _ & _ & _ & Hb & Htest & _)].
    + rewrite Hr. split; reflexivity.
    + split; assumption.
Qed.

(** X22.  One resolution fetches the steps of at most five jobs, and the
    jobs it fetches are an initial segment of the job ids collected from
    the check-runs, in order. *)
Theorem ci_step_fetches_are_bounded :
  forall (gh : list string -> bool * string)
         (json_loads_pr : string -> option PrData)
         (json_loads_check : string -> option Check)
         (repo : string) (pr_number : Z),
    let fetched :=
      snd (check_post_merge_ci_status_traced gh json_loads_pr json_loads_check
             repo pr_number) in
    (List.length fetched <= 5)%nat
    /\ (forall output,
           check_runs_reply gh json_loads_pr repo pr_number = Some output ->
           fetched
           = firstn (List.length fetched)
               (job_ids_of (observed_checks json_loads_check output))).
Proof.
  intros gh jpr jck repo pr_number fetched. unfold fetched.
  destruct (check_post_merge_ci_status_shapes gh jpr jck repo pr_number)
    as [(_ & Ht)|[(output & Hreply & _ & Ht)|(output & Hreply & _ & Ht)]]; rewrite Ht.
  - simpl. split; [lia|]. intros; reflexivity.
  - simpl. split; [lia|]. intros; reflexivity.
  - destruct (resolve_check_runs_cases gh jck repo output)
      as [(_ & _ & Hf)|(_ & _ & _ & _ & _ & _ & _ & Hpre & Hlen & _)].
    + rewrite Hf. simpl. split; [lia|]. intros; reflexivity.
    + split; [exact Hlen|]. intros output' Hreply'.
      rewrite Hreply in Hreply'. injection Hreply' as <-. exact Hpre.
Qed.

Lemma ci_step_fetches_are_bounded_witness :
  snd (check_post_merge_ci_status_traced
         (CiScenarios.gh_replies CiScenarios.failed_then_pending)
         CiScenarios.json_pr CiScenarios.json_check "test/repo" 123)
  = firstn (List.length
              (snd (check_post_merge_ci_status_traced
                      (CiScenarios.gh_replies CiScenarios.failed_then_pending)
                      CiScenarios.json_pr CiScenarios.json_check "test/repo" 123)))
      (job_ids_of (observed_checks CiScenarios.json_check CiScenarios.failed_then_pending)).
Proof.
  apply (ci_step_fetches_are_bounded
           (CiScenarios.gh_replies CiScenarios.failed_then_pending)
           CiScenarios.json_pr CiScenarios.json_check "test/repo" 123).
  reflexivity.
Defined.

(** X23.  Evidence found in job names is final: when the name of some
    check-run holds a build keyword, the build flag is set and its
    evidence is "job: " followed by the first such name, whatever the step
    lookups return, and likewise for test keywords; when job names give both,
    no steps are fetched at all. *)
Theorem ci_job_name_evidence_is_final :
  forall (gh : list string -> bool * string)
         (json_loads_pr : string -> option PrData)
         (json_loads_check : string -> option Check)
         (repo : string) (pr_number : Z) (output : string),
    let checks := observed_checks json_loads_check output in
    let r := check_post_merge_ci_status gh json_loads_pr json_loads_check repo pr_number in
    let fetched :=
      snd (check_post_merge_ci_status_traced gh json_loads_pr json_loads_check
             repo pr_number) in
    check_runs_reply gh json_loads_pr repo pr_number = Some output ->
    (existsb (fun check => names_build (name_of check)) checks = true ->
     has_build_check r = true /\ build_evidence r = job_evidence names_build checks)
    /\ (existsb (fun check => names_test (name_of check)) checks = true ->
        has_test_check r = true /\ test_evidence r = job_evidence names_test checks)
    /\ (existsb (fun check => names_build (name_of check)) checks = true ->
        existsb (fun check => names_test (name_of check)) checks = true ->
        fetched = []).
Proof.
  intros gh jpr jck repo pr_number output checks r fetched Hreply.
  unfold r, fetched, check_post_merge_ci_status.
  rewrite check_post_merge_ci_status_traced_reply, Hreply.
  destruct (resolve_check_runs_cases gh jck repo output)
    as [(Hnil & _)|(_ & _ & _ & _ & _ & _ & _ & _ & _ & Hb & Ht & Hboth)].
  - unfold checks. rewrite Hnil. simpl. repeat split; discriminate.
  - repeat split; try (apply Hb; assumption); try (apply Ht; assumption).
    apply Hboth; assumption.
Qed.

Lemma ci_job_name_evidence_is_final_witness :
  let gh := CiScenarios.gh_replies "S" in
  let r := check_post_merge_ci_status gh CiScenarios.json_pr CiScenarios.json_check
             "test/repo" 123 in
  (has_build_check r = true /\ build_evidence r = "job: build-and-test")
  /\ (has_test_check r = true /\ test_evidence r = "job: build-and-test")
  /\ snd (check_post_merge_ci_status_traced gh CiScenarios.json_pr
            CiScenarios.json_check "test/repo" 123) = [].
Proof.
  pose proof (ci_job_name_evidence_is_final (CiScenarios.gh_replies "S")
                CiScenarios.json_pr CiScenarios.json_check "test/repo" 123 "S"
                eq_refl) as (Hb & Ht & Hnone).
  split; [apply Hb; reflexivity|]. split; [apply Ht; reflexivity|].
  apply Hnone; reflexivity.
Defined.

(** The status of a resolution is always one of "success",
    "failure", "pending", "no_ci" and "unknown"; it is "unknown" exactly
    when the check-runs reply could not be read (the PR lookup failed, its
    reply had no merge commit with an oid, or the check-runs lookup
    failed). *)
Theorem ci_status_values :
  forall (gh : list string -> bool * string)
         (json_loads_pr : string -> option PrData)
         (json_loads_check : string -> option Check)
         (repo : string) (pr_number : Z),
    let r := check_post_merge_ci_status gh json_loads_pr json_loads_check repo pr_number in
    In (status r) ["success"; "failure"; "pending"; "no_ci"; "unknown"]
    /\ (status r = "unknown"
        <-> check_runs_reply gh json_loads_pr repo pr_number = None).
Proof.
  intros gh jpr jck repo pr_number r. unfold r, check_post_merge_ci_status.
  destruct (check_post_merge_ci_status_shapes gh jpr jck repo pr_number)
    as [(Hreply & Ht)|[(output & Hreply & _ & Ht)|(output & Hreply & _ & Ht)]];
    rewrite Ht, Hreply.
  - simpl. split; [tauto|]. split; auto.
  - simpl. split; [tauto|]. split; discriminate.
  - destruct (resolve_check_runs_cases gh jck repo output)
      as [(_ & Hr & _)|(_ & _ & Hs & _)].
    + rewrite Hr. simpl. split; [tauto|]. split; discriminate.
    + split.
      * destruct Hs as [ -> | [ -> | -> ] ]; simpl; tauto.
      * split; [|discriminate].
        destruct Hs as [ -> | [ -> | -> ] ]; discriminate.
Qed.

End CIResults.


Section StripFacts.

Lemma rstrip_idempotent s : PyStr.rstrip (PyStr.rstrip s) = PyStr.rstrip s.
Proof.
  induction s as [|c s IH]; [reflexivity|].
  cbn [PyStr.rstrip]. destruct (PyStr.rstrip s) as [|d t] eqn:Hr.
  - destruct (PyStr.is_space c) eqn:Hc; [reflexivity|].
    cbn [PyStr.rstrip]. now rewrite Hc.
  - change (PyStr.rstrip (String c (String d t)))
      with (match PyStr.rstrip (String d t) with
            | EmptyString => if PyStr.is_space c then EmptyString else String c EmptyString
            | String a b => String c (String a b)
            end).
    rewrite IH. reflexivity.
Qed.

(** A string that starts with a non-blank character keeps it under
    [rstrip]. *)
Lemma rstrip_keeps_head c s :
  PyStr.is_space c = false ->
  exists t, PyStr.rstrip (String c s) = String c t.
Proof.
  intros Hc. cbn [PyStr.rstrip]. destruct (PyStr.rstrip s); [rewrite Hc|]; eauto.
Qed.

Lemma lstrip_head s :
  PyStr.lstrip s = "" \/ exists c t, PyStr.lstrip s = String c t /\ PyStr.is_space c = false.
Proof.
  induction s as [|c s IH]; [left; reflexivity|].
  cbn [PyStr.lstrip]. destruct (PyStr.is_space c) eqn:Hc; [exact IH|].
  right. eauto.
Qed.

Lemma strip_idempotent s : PyStr.strip (PyStr.strip s) = PyStr.strip s.
Proof.
  unfold PyStr.strip.
  destruct (lstrip_head s) as [->|(c & t & -> & Hc)]; [reflexivity|].
  destruct (rstrip_keeps_head c t Hc) as [u Hu].
  rewrite Hu. cbn [PyStr.lstrip]. rewrite Hc.
  rewrite <- Hu. apply rstrip_idempotent.
Qed.

End StripFacts.

Section JobSteps.
Import PrQualityCheck.

(** X24.  [get_job_steps] returns no blank entry: every step name it
    returns is non-empty and has no blank character at either end; when
    the lookup fails it returns no step at all. *)
Theorem get_job_steps_are_stripped :
  forall (gh : list string -> bool * string) (repo : string) (job_id : Z),
    (forall step, In step (get_job_steps gh repo job_id) ->
                  step <> "" /\ PyStr.strip step = step)
    /\ (fst (gh ["api"; "repos/" ++ repo ++ "/actions/jobs/" ++ PyStr.of_Z job_id;
                 "--jq"; ".steps[].name"]) = false ->
        get_job_steps gh repo job_id = []).
Proof.
  intros gh repo job_id. unfold get_job_steps.
  destruct (gh _) as [success output]. cbn [fst].
  split.
  - intros step Hin. destruct success; simpl in Hin; [|contradiction].
    apply in_map_iff in Hin. destruct Hin as (line & <- & Hin).
    apply filter_In in Hin. destruct Hin as [_ Hne].
    split; [|apply strip_idempotent].
    intros Hempty. rewrite Hempty in Hne. discriminate.
  - intros ->. reflexivity.
Qed.

Lemma get_job_steps_are_stripped_witness :
  get_job_steps (CiScenarios.gh_replies "S") "test/repo" 8 = [].
Proof.
  apply (get_job_steps_are_stripped (CiScenarios.gh_replies "S") "test/repo" 8).
  reflexivity.
Defined.

End JobSteps.


(* ================================================================== *)
(** * Properties of the size, grade, issue and date helpers *)

Lemma filter_disjoint_length {A} (p q : A -> bool) (l : list A) :
  (forall x, In x l -> p x = true -> q x = false) ->
  (List.length (filter p l) + List.length (filter q l) <= List.length l)%nat.
Proof.
  induction l as [|a l IH]; intros H; [simpl; lia|].
  assert (IH' := IH (fun x Hx => H x (or_intror Hx))).
  assert (Ha := H a (or_introl eq_refl)).
  simpl. destruct (p a) eqn:Hp.
  - rewrite (Ha eq_refl). simpl. lia.
  - destruct (q a); simpl; lia.
Qed.

Lemma existsb_eqb_in (x : string) (l : list string) :
  In x l -> existsb (String.eqb x) l = true.
Proof.
  intros H. apply existsb_exists. exists x. split; [exact H|apply String.eqb_refl].
Qed.

(** X25.  [categorize_pr_size] is monotone: a change with no more changed
    lines and no more changed files than another is never put in a larger
    category. *)
Theorem categorize_pr_size_is_monotone :
  forall additions deletions changed_files additions' deletions' changed_files',
    additions + deletions <= additions' + deletions' ->
    changed_files <= changed_files' ->
    PrQualityRules.size_rank
      (PrQualityRules.categorize_pr_size additions deletions changed_files)
    <= PrQualityRules.size_rank
      (PrQualityRules.categorize_pr_size additions' deletions' changed_files').
Proof.
  intros a d f a' d' f' Ht Hf.
  unfold PrQualityRules.categorize_pr_size.
  destruct (Z.leb_spec (a + d) 50), (Z.leb_spec f 3),
    (Z.leb_spec (a + d) 200), (Z.leb_spec f 10),
    (Z.leb_spec (a + d) 500), (Z.leb_spec f 20),
    (Z.leb_spec (a' + d') 50), (Z.leb_spec f' 3),
    (Z.leb_spec (a' + d') 200), (Z.leb_spec f' 10),
    (Z.leb_spec (a' + d') 500), (Z.leb_spec f' 20);
    cbn [andb]; try lia; vm_compute; congruence.
Qed.

Lemma categorize_pr_size_is_monotone_witness :
  PrQualityRules.size_rank (PrQualityRules.categorize_pr_size 40 10 3)
  <= PrQualityRules.size_rank (PrQualityRules.categorize_pr_size 40 11 3).
Proof. apply (categorize_pr_size_is_monotone 40 10 3 40 11 3); lia. Defined.

(** X26.  [calculate_grade] is monotone in the score, and the cell
    [_format_dimension_cell] prints depends on the score only through the
    grade: two scores of one grade give the same cell. *)
Theorem grade_is_monotone_and_decides_the_cell :
  forall score score',
    (score <= score' ->
     PrQualityRules.grade_rank (PrQualityRules.calculate_grade score)
     <= PrQualityRules.grade_rank (PrQualityRules.calculate_grade score'))
    /\ (PrQualityRules.calculate_grade score = PrQualityRules.calculate_grade score' ->
        forall has_issue issue_text,
          PrQualityRules._format_dimension_cell score has_issue issue_text
          = PrQualityRules._format_dimension_cell score' has_issue issue_text).
Proof.
  intros s s'.
  unfold PrQualityRules._format_dimension_cell, PrQualityRules.calculate_grade.
  destruct (Z.leb_spec 90 s), (Z.leb_spec 80 s), (Z.leb_spec 70 s), (Z.leb_spec 60 s),
    (Z.leb_spec 90 s'), (Z.leb_spec 80 s'), (Z.leb_spec 70 s'), (Z.leb_spec 60 s');
    try lia; (split; [intros Hle; try lia; vm_compute; congruence
                     | intros Heq; try discriminate Heq; reflexivity]).
Qed.

Lemma grade_is_monotone_and_decides_the_cell_witness :
  PrQualityRules.grade_rank (PrQualityRules.calculate_grade 59)
  <= PrQualityRules.grade_rank (PrQualityRules.calculate_grade 60)
  /\ PrQualityRules._format_dimension_cell 61 true (Some "No tests")
     = PrQualityRules._format_dimension_cell 69 true (Some "No tests").
Proof.
  split.
  - apply (proj1 (grade_is_monotone_and_decides_the_cell 59 60)). lia.
  - apply (proj2 (grade_is_monotone_and_decides_the_cell 61 69)). reflexivity.
Defined.

(** X27.  [normalize_issue_for_frequency] is idempotent: a normalised issue
    is left as it is, so grouping by the normalised text is stable. *)
Theorem normalize_issue_for_frequency_is_idempotent :
  forall issue,
    PrQualityRules.normalize_issue_for_frequency
      (PrQualityRules.normalize_issue_for_frequency issue)
    = PrQualityRules.normalize_issue_for_frequency issue.
Proof.
  intros issue.
  unfold PrQualityRules.normalize_issue_for_frequency at 2 3.
  destruct (PyStr.contains "Post-merge CI/CD failure" issue) eqn:H1;
    [reflexivity|].
  destruct (PyStr.contains "Large PR" issue
            && negb (PyStr.contains "consider splitting" issue)) eqn:H2;
    [reflexivity|].
  destruct (PyStr.contains "Very large PR" issue) eqn:H3; [reflexivity|].
  unfold PrQualityRules.normalize_issue_for_frequency.
  rewrite H1, H2, H3. reflexivity.
Qed.

(** The fiscal year [get_msft_fiscal_year_dates] returns contains the
    current month: it starts on 1 July of the year before the fiscal year
    and ends on 30 June of the fiscal year, it is named by the last two
    digits of that year, and the current year and month lie between the
    two dates. *)
Theorem fiscal_year_contains_today :
  forall current_year current_month,
    exists fiscal_year,
      PrQualityRules.get_msft_fiscal_year_dates current_year current_month
      = ("FY" ++ PyStr.of_Z (fiscal_year mod 100),
         PyStr.of_Z (fiscal_year - 1) ++ "-07-01",
         PyStr.of_Z fiscal_year ++ "-06-30")
      /\ (fiscal_year - 1 < current_year
          \/ (fiscal_year - 1 = current_year /\ 7 <= current_month))
      /\ (current_year < fiscal_year
          \/ (current_year = fiscal_year /\ current_month <= 6)).
Proof.
  intros y m. unfold PrQualityRules.get_msft_fiscal_year_dates.
  destruct (Z.leb_spec 7 m).
  - exists (y + 1). replace (y + 1 - 1) with y by lia.
    split; [reflexivity|]. split; [right; lia | left; lia].
  - exists y. split; [reflexivity|]. split; [left; lia | right; lia].
Qed.

(** X28.  [get_pr_diff_stats] never counts a file twice: the test files and
    the code files together are at most the files listed, and neither
    count is negative.  When the listing fails, or lists nothing, both
    counts are zero and no file is reported. *)
Theorem diff_stats_counts_are_disjoint :
  forall gh repo pr_number,
    let stats := PrQualityRules.get_pr_diff_stats gh repo pr_number in
    let reply :=
      gh ["pr"; "diff"; PyStr.of_Z pr_number; "--repo"; repo; "--name-only"] in
    0 <= PrQualityRules.test_files stats
    /\ 0 <= PrQualityRules.code_files stats
    /\ PrQualityRules.test_files stats + PrQualityRules.code_files stats
       <= Z.of_nat (List.length (PrQualityRules.files stats))
    /\ (fst reply = false \/ PyStr.strip (snd reply) = "" ->
        stats = PrQualityRules.mkDiffStats 0 0 []).
Proof.
  intros gh repo pr stats reply. subst stats reply.
  unfold PrQualityRules.get_pr_diff_stats.
  destruct (gh _) as [success output]. cbn [fst snd].
  destruct success; cbn [negb].
  - cbv zeta. cbn [PrQualityRules.test_files PrQualityRules.code_files
                   PrQualityRules.files].
    split; [lia|]. split; [lia|]. split.
    + rewrite <- Nat2Z.inj_add. apply Nat2Z.inj_le.
      apply filter_disjoint_length.
      intros x Hx Hp.
      rewrite (existsb_eqb_in x _ (proj2 (filter_In _ _ _) (conj Hx Hp))).
      cbn [negb]. apply andb_false_r.
    + intros [H|H]; [discriminate H|]. rewrite H. reflexivity.
  - cbn. split; [lia|]. split; [lia|]. split; [lia|]. reflexivity.
Qed.

Lemma diff_stats_counts_are_disjoint_witness :
  PrQualityRules.get_pr_diff_stats (fun _ => (true, "  ")) "o/r" 7
  = PrQualityRules.mkDiffStats 0 0 [].
Proof.
  apply (proj2 (proj2 (proj2
    (diff_stats_counts_are_disjoint (fun _ => (true, "  ")) "o/r" 7)))).
  right. reflexivity.
Defined.


(* ================================================================== *)
(** * Properties of [GHClient.search_repos] *)

Lemma Sorted_firstn {A} (R : A -> A -> Prop) (n : nat) (l : list A) :
  Sorted R l -> Sorted R (firstn n l).
Proof.
  revert l. induction n as [|n IH]; intros l H; [constructor|].
  destruct l as [|a l]; [constructor|].
  apply Sorted_inv in H. destruct H as [Hs Hh].
  cbn [firstn]. constructor; [apply IH; exact Hs|].
  destruct l as [|b l]; [destruct n; constructor|].
  apply HdRel_inv in Hh. destruct n; constructor. exact Hh.
Qed.

Lemma In_firstn {A} (n : nat) (l : list A) (x : A) :
  In x (firstn n l) -> In x l.
Proof.
  revert l. induction n as [|n IH]; intros [|a l] H; try contradiction.
  cbn [firstn] in H. destruct H as [H|H]; [left; exact H|right; apply IH; exact H].
Qed.

Lemma slice_to_spec {A} (stop : Z) (l : list A) :
  exists n, PyMore.slice_to stop l = firstn n l /\ (0 < stop -> n = Z.to_nat stop).
Proof.
  unfold PyMore.slice_to. destruct (Z.leb_spec 0 stop).
  - eexists. split; [reflexivity|]. reflexivity.
  - eexists. split; [reflexivity|]. lia.
Qed.

Section SearchFacts.
Variable pattern_t : Type.
Variable re_compile : string -> option pattern_t.
Variable re_match : pattern_t -> string -> bool.
Variable re_search : pattern_t -> string -> bool.
Variable run_command : list string -> pyresult (bool * string).
Variable json_names : string -> pyresult (list string).

Local Abbreviation search_repos :=
  (GHClientQueries.search_repos pattern_t re_compile re_match re_search
     run_command json_names).
Local Abbreviation compile_exclude :=
  (GHClientQueries.compile_exclude pattern_t re_compile).

(** The ways [search_repos] can end. *)
Lemma search_repos_cases owner pattern max_matches exclude_patterns :
  (search_repos owner pattern max_matches exclude_patterns = Returns []
   /\ (re_compile pattern = None
       \/ exists output,
            run_command (GHClientQueries.repo_list_args owner max_matches)
            = Returns (false, output)))
  \/ (exists include_regex e,
         re_compile pattern = Some include_regex
         /\ run_command (GHClientQueries.repo_list_args owner max_matches) = Raises e
         /\ search_repos owner pattern max_matches exclude_patterns = Raises e)
  \/ (exists include_regex output,
        re_compile pattern = Some include_regex
        /\ run_command (GHClientQueries.repo_list_args owner max_matches)
           = Returns (true, output)
        /\ ((exists e, json_names output = Raises e
                       /\ search_repos owner pattern max_matches exclude_patterns
                          = Raises e)
            \/ (exists repo_names,
                  json_names output = Returns repo_names
                  /\ search_repos owner pattern max_matches exclude_patterns
                     = Returns
                         (let sorted :=
                            StringSort.sort
                              (filter
                                 (fun name =>
                                    re_match include_regex name
                                    && match compile_exclude exclude_patterns with
                                       | Some ex => negb (re_search ex name)
                                       | None => true
                                       end)
                                 repo_names) in
                          if max_matches =? 0 then sorted
                          else PyMore.slice_to max_matches sorted)))).
Proof.
  unfold GHClientQueries.search_repos.
  destruct (re_compile pattern) as [inc|]; [|left; split; [reflexivity|left; reflexivity]].
  destruct (run_command _) as [[success output]|e] eqn:Hrun;
    [|right; left; exists inc, e; auto].
  destruct success; cbn [negb];
    [|left; split; [reflexivity|right; eauto]].
  right. right. exists inc, output. split; [reflexivity|]. split; [reflexivity|].
  destruct (json_names output) as [repo_names|e];
    [|left; exists e; split; reflexivity].
  right. exists repo_names. split; [reflexivity|].
  assert (Hf : match compile_exclude exclude_patterns with
               | Some ex => filter (fun name => negb (re_search ex name))
                              (filter (re_match inc) repo_names)
               | None => filter (re_match inc) repo_names
               end
               = filter
                   (fun name =>
                      re_match inc name
                      && match compile_exclude exclude_patterns with
                         | Some ex => negb (re_search ex name)
                         | None => true
                         end)
                   repo_names).
  { destruct (compile_exclude exclude_patterns) as [ex|].
    - induction repo_names as [|a l IH]; [reflexivity|].
      cbn [filter]. destruct (re_match inc a); cbn [andb filter]; [|exact IH].
      destruct (re_search ex a); cbn [negb]; rewrite IH; reflexivity.
    - apply filter_ext. intros a. rewrite andb_true_r. reflexivity. }
  rewrite Hf. cbv zeta. destruct (max_matches =? 0); reflexivity.
Qed.

End SearchFacts.

(** X29.  What [search_repos] returns is in alphabetical order, has at most
    [max_matches] names when that limit is positive, and holds only names
    of the listing which the include pattern matches at their start and
    the exclude pattern, when there is one that compiles, finds nowhere.
    The call raises only what [run_command] raises, or what reading the
    listing as JSON raises. *)
Theorem search_repos_result_is_sound :
  forall pattern_t re_compile re_match re_search run_command json_names
         owner pattern max_matches exclude_patterns,
    match GHClientQueries.search_repos pattern_t re_compile re_match re_search
            run_command json_names owner pattern max_matches exclude_patterns with
    | Returns names =>
        Sorted (fun a b => String.leb a b = true) names
        /\ (0 < max_matches -> Z.of_nat (List.length names) <= max_matches)
        /\ (forall name, In name names ->
            exists include_regex output repo_names,
              re_compile pattern = Some include_regex
              /\ run_command (GHClientQueries.repo_list_args owner max_matches)
                 = Returns (true, output)
              /\ json_names output = Returns repo_names
              /\ In name repo_names
              /\ re_match include_regex name = true
              /\ (forall ex,
                    GHClientQueries.compile_exclude pattern_t re_compile exclude_patterns
                    = Some ex ->
                    re_search ex name = false))
    | Raises e =>
        run_command (GHClientQueries.repo_list_args owner max_matches) = Raises e
        \/ exists output,
             run_command (GHClientQueries.repo_list_args owner max_matches)
             = Returns (true, output)
             /\ json_names output = Raises e
    end.
Proof.
  intros P rc rm rs run js owner pattern mm excl.
  destruct (search_repos_cases P rc rm rs run js owner pattern mm excl)
    as [[Hr _]
       |[(inc & e & Hinc & Hrun & Hr)
        |(inc & output & Hinc & Hrun & [(e & Hj & Hr)|(names & Hj & Hr)])]];
    rewrite Hr.
  - split; [constructor|]. split; [simpl; lia|]. intros name [].
  - left. exact Hrun.
  - right. exists output. auto.
  - cbv zeta.
    set (kept := filter _ names).
    assert (Hsorted : Sorted (fun a b => String.leb a b = true) (StringSort.sort kept))
      by apply StringSort.Sorted_sort.
    assert (Hin : forall name, In name (StringSort.sort kept) ->
              In name names /\ rm inc name = true
              /\ forall ex, GHClientQueries.compile_exclude P rc excl = Some ex ->
                            rs ex name = false).
    { intros name H.
      apply (Permutation_in name (Permutation_sym (StringSort.Permuted_sort kept))) in H.
      apply filter_In in H. destruct H as [H1 H2].
      apply andb_true_iff in H2. destruct H2 as [H2 H3].
      split; [exact H1|]. split; [exact H2|].
      intros ex Hex. rewrite Hex in H3. apply negb_true_iff in H3. exact H3. }
    destruct (Z.eqb_spec mm 0) as [->|Hne].
    + split; [exact Hsorted|]. split; [lia|].
      intros name H. destruct (Hin name H) as (H1 & H2 & H3).
      exists inc, output, names. auto 7.
    + destruct (slice_to_spec mm (StringSort.sort kept)) as (n & Hn & Hlen).
      rewrite Hn. split; [apply Sorted_firstn; exact Hsorted|]. split.
      * intros Hpos. rewrite (Hlen Hpos).
        pose proof (firstn_le_length (Z.to_nat mm) (StringSort.sort kept)). lia.
      * intros name H. apply In_firstn in H.
        destruct (Hin name H) as (H1 & H2 & H3).
        exists inc, output, names. auto 7.
Qed.

Lemma search_repos_result_is_sound_witness :
  match QueryScenarios.search "svc" 1 with
  | Returns names => Z.of_nat (List.length names) <= 1
  | Raises _ => False
  end.
Proof.
  pose proof (search_repos_result_is_sound string
    QueryScenarios.literal_compile PyStr.startswith PyStr.contains
    QueryScenarios.listing QueryScenarios.names_of "org" "svc" 1 None) as H.
  unfold QueryScenarios.search.
  destruct (GHClientQueries.search_repos _ _ _ _ _ _ _ _ _ _) as [names|e].
  - apply (proj1 (proj2 H)). lia.
  - destruct H as [H|(output & _ & H)]; discriminate H.
Defined.

(** X30.  Without a limit ([max_matches = 0]) [search_repos] returns every
    name of the listing that passes the two filters, each as often as the
    listing has it, in alphabetical order.  Exclude patterns whose
    combination does not compile exclude nothing. *)
Theorem search_repos_unlimited_is_complete :
  forall pattern_t re_compile re_match re_search run_command json_names
         owner pattern exclude_patterns include_regex output repo_names,
    re_compile pattern = Some include_regex ->
    run_command (GHClientQueries.repo_list_args owner 0) = Returns (true, output) ->
    json_names output = Returns repo_names ->
    exists names,
      GHClientQueries.search_repos pattern_t re_compile re_match re_search
        run_command json_names owner pattern 0 exclude_patterns = Returns names
      /\ Sorted (fun a b => String.leb a b = true) names
      /\ Permutation
           (filter
              (fun name =>
                 re_match include_regex name
                 && match GHClientQueries.compile_exclude pattern_t re_compile
                            exclude_patterns with
                    | Some ex => negb (re_search ex name)
                    | None => true
                    end)
              repo_names)
           names
      /\ (GHClientQueries.compile_exclude pattern_t re_compile exclude_patterns = None ->
          Permutation (filter (re_match include_regex) repo_names) names).
Proof.
  intros P rc rm rs run js owner pattern excl inc output names Hinc Hrun Hj.
  destruct (search_repos_cases P rc rm rs run js owner pattern 0 excl)
    as [[_ [H|[output' H]]]
       |[(inc' & e & _ & H & _)
        |(inc' & output' & Hinc' & Hrun' & [(e & Hj' & _)|(names' & Hj' & Hr)])]].
  - rewrite Hinc in H. discriminate H.
  - rewrite Hrun in H. discriminate H.
  - rewrite Hrun in H. discriminate H.
  - rewrite Hrun in Hrun'. injection Hrun' as <-. rewrite Hj in Hj'. discriminate Hj'.
  - rewrite Hrun in Hrun'. injection Hrun' as <-. rewrite Hj in Hj'.
    injection Hj' as <-. rewrite Hinc in Hinc'. injection Hinc' as <-.
    eexists. split; [exact Hr|]. cbv zeta. cbn [Z.eqb].
    split; [apply StringSort.Sorted_sort|].
    split; [apply StringSort.Permuted_sort|].
    intros Hnone. rewrite Hnone.
    rewrite (filter_ext _ (rm inc) (fun a => andb_true_r (rm inc a))).
    apply StringSort.Permuted_sort.
Qed.

Lemma search_repos_unlimited_is_complete_witness :
  exists names,
    QueryScenarios.search "svc" 0 = Returns names
    /\ Sorted (fun a b => String.leb a b = true) names
    /\ Permutation
         (filter (fun name => PyStr.startswith "svc" name && true)
            ["svc-b"; "lib-a"; "svc-a"])
         names
    /\ (GHClientQueries.compile_exclude string QueryScenarios.literal_compile None = None ->
        Permutation (filter (PyStr.startswith "svc") ["svc-b"; "lib-a"; "svc-a"]) names).
Proof.
  apply (search_repos_unlimited_is_complete string QueryScenarios.literal_compile
           PyStr.startswith PyStr.contains QueryScenarios.listing
           QueryScenarios.names_of "org" "svc" None "svc" "svc-b,lib-a,svc-a"
           ["svc-b"; "lib-a"; "svc-a"]); reflexivity.
Defined.
